(** * appendfs: a shallow embedding of the append-only filesystem core

    The development follows [src/appendfs.c] and [src/crc32.c].

    Conventions of the embedding
    - C integers are [Z]; the wrap-around of each C type is written out
      ([u32], [u64] for the unsigned types, [s64] for [off_t] and
      [time_t], which are 64-bit signed on the supported hosts); a byte
      is cut from an integer by [byte_of_Z].
    - Bytes are [Byte.byte]; C strings are [string] (no NUL inside).
    - A pointer into the inode array is the index of the row.
    - The two backing files are values of type [file]: their bytes, the
      descriptor's position, and the space the device still accepts
      ([f_room]); a [write] beyond that space fails, which is how a
      record append that fails (possibly after a partial write) arises.
    - [time(NULL)] is the argument [now] of the operations that call it.
    - Allocation ([malloc], [realloc], [strdup]) is taken to succeed,
      and [EINTR] is not delivered.
    - Pointer arguments are not null (the EINVAL guards on them are left
      out), except the buffer of [appendfs_write], an [option]. *)

From Stdlib Require Import ZArith List String Ascii Bool Lia.
From Stdlib Require Import Strings.Byte.
From stdpp Require Import base list.
Import ListNotations.

Local Open Scope Z_scope.
Local Open Scope list_scope.

(** ** Machine integers *)

Definition u32 (x : Z) : Z := x mod 2 ^ 32.
Definition u64 (x : Z) : Z := x mod 2 ^ 64.
Definition s64 (x : Z) : Z := (x + 2 ^ 63) mod 2 ^ 64 - 2 ^ 63.

Definition Z_of_byte (b : byte) : Z := Z.of_N (Byte.to_N b).

Definition byte_of_Z (z : Z) : byte :=
  match Byte.of_N (Z.to_N (z mod 256)) with
  | Some b => b
  | None => x00
  end.

(** [memcpy] of an [n]-byte integer to and from a byte buffer on a
    little-endian host; also the explicit shifts of [write_record]. *)
Fixpoint le_encode (n : nat) (x : Z) : list byte :=
  match n with
  | O => []
  | S k => byte_of_Z (Z.land x 255) :: le_encode k (Z.shiftr x 8)
  end.

Fixpoint le_decode (bs : list byte) : Z :=
  match bs with
  | [] => 0
  | b :: r => Z.lor (Z_of_byte b) (Z.shiftl (le_decode r) 8)
  end.

(** The bytes [p[off .. off+n)] of a buffer. *)
Definition slice (p : list byte) (off n : Z) : list byte :=
  firstn (Z.to_nat n) (skipn (Z.to_nat off) p).

Definition zlen {A} (l : list A) : Z := Z.of_nat (List.length l).

(** ** crc32.c *)

Fixpoint crc_round (j : nat) (c : Z) : Z :=
  match j with
  | O => c
  | S k =>
      crc_round k (if Z.testbit c 0
                   then Z.lxor 3988292384 (Z.shiftr c 1)
                   else Z.shiftr c 1)
  end.

(** [crc_table[i]] as filled by [appendfs_crc32_init]. *)
Definition crc_table (i : Z) : Z := crc_round 8 i.

Definition appendfs_crc32 (data : list byte) : Z :=
  Z.lxor
    (fold_left
       (fun c b =>
          Z.lxor (crc_table (Z.land (Z.lxor c (Z_of_byte b)) 255))
                 (Z.shiftr c 8))
       data 4294967295)
    4294967295.

(** ** Errors *)

Inductive errno : Type :=
| EINVAL | ENOENT | EEXIST | EISDIR | ENOTDIR | ENOTEMPTY
| ENODATA | ERANGE | ENXIO | EIO | ENOSPC
| EUNSET. (* -1 returned with errno left as the caller had it *)

Inductive result (A : Type) : Type :=
| Ok (a : A)
| Err (e : errno).
Arguments Ok {A} a.
Arguments Err {A} e.

(** ** Backing files *)

Record file : Type := mkFile {
  f_data : list byte;   (* contents *)
  f_pos : Z;            (* position of the descriptor *)
  f_room : Z            (* bytes the device still accepts *)
}.

Definition file_size (f : file) : Z := zlen (f_data f).

(** [write(fd, buf, n)]: writes at the position what the device
    accepts; [-1] ([None]) when it accepts nothing. *)
Definition sys_write (f : file) (buf : list byte) : option Z * file :=
  if f_room f <=? 0 then (None, f)
  else
    let n := Z.min (zlen buf) (f_room f) in
    let chunk := firstn (Z.to_nat n) buf in
    (Some n,
     mkFile (firstn (Z.to_nat (f_pos f)) (f_data f) ++ chunk
               ++ skipn (Z.to_nat (f_pos f + n)) (f_data f))
            (f_pos f + n) (f_room f - n)).

(** [read(fd, buf, n)]: up to [n] bytes from the position. *)
Definition sys_read (f : file) (n : Z) : list byte * file :=
  let got := slice (f_data f) (f_pos f) n in
  (got, mkFile (f_data f) (f_pos f + zlen got) (f_room f)).

(** [pread(fd, buf, n, pos)]: the bytes it stores; the position is left
    alone, and a negative [pos] is refused. *)
Definition sys_pread (f : file) (n pos : Z) : list byte :=
  if pos <? 0 then [] else slice (f_data f) pos n.

Definition lseek_set (f : file) (pos : Z) : file :=
  mkFile (f_data f) pos (f_room f).

Definition lseek_end (f : file) : file :=
  mkFile (f_data f) (file_size f) (f_room f).

(** The loop of [write_all]; every turn that does not fail writes at
    least one byte, so [S (length buf)] turns are enough. *)
Fixpoint write_all_loop (fuel : nat) (f : file) (buf : list byte)
    (written : Z) : result unit * file :=
  match fuel with
  | O => (Ok tt, f)
  | S k =>
      if written <? zlen buf then
        match sys_write f (skipn (Z.to_nat written) buf) with
        | (None, f') => (Err ENOSPC, f')
        | (Some rc, f') =>
            if rc =? 0 then (Err EIO, f')
            else write_all_loop k f' buf (written + rc)
        end
      else (Ok tt, f)
  end.

Definition write_all (f : file) (buf : list byte) : result unit * file :=
  write_all_loop (S (List.length buf)) f buf 0.

(** The loop of [read_all]: [-1] when the file ends first. *)
Definition read_all (f : file) (n : Z) : option (list byte) * file :=
  let '(got, f') := sys_read f n in
  if zlen got <? n then (None, f') else (Some got, f').

(** ** C strings *)

Definition strlen (s : string) : Z := Z.of_nat (String.length s).

Definition slash : ascii := "/"%char.

(** [s[n]]; the terminator reads as NUL. *)
Definition char_at (s : string) (n : nat) : ascii :=
  match String.get n s with
  | Some c => c
  | None => Ascii.zero
  end.

(** [s + n] *)
Fixpoint str_drop (n : nat) (s : string) : string :=
  match n, s with
  | O, _ => s
  | S k, EmptyString => EmptyString
  | S k, String _ r => str_drop k r
  end.

(** The first [n] characters of [s] ([memcpy] and a terminator). *)
Fixpoint str_take (n : nat) (s : string) : string :=
  match n, s with
  | O, _ => EmptyString
  | S k, EmptyString => EmptyString
  | S k, String c r => String c (str_take k r)
  end.

(** [strncmp(s1, s2, n) == 0] *)
Fixpoint strncmp_eq (s1 s2 : string) (n : nat) {struct n} : bool :=
  match n with
  | O => true
  | S k =>
      match s1, s2 with
      | EmptyString, EmptyString => true
      | String c1 r1, String c2 r2 => Ascii.eqb c1 c2 && strncmp_eq r1 r2 k
      | _, _ => false
      end
  end.

(** [strchr(s, c) != NULL] *)
Fixpoint strchr_found (s : string) (c : ascii) : bool :=
  match s with
  | EmptyString => false
  | String a r => Ascii.eqb a c || strchr_found r c
  end.

(** [strrchr(s, c) - s], when the character occurs. *)
Fixpoint strrchr (s : string) (c : ascii) : option nat :=
  match s with
  | EmptyString => None
  | String a r =>
      match strrchr r c with
      | Some k => Some (S k)
      | None => if Ascii.eqb a c then Some O else None
      end
  end.

Definition normalize_path_copy (path : string) : string :=
  if Ascii.eqb (char_at path 0) slash then path else String slash path.

(** [normalize_path_view] returns the same string, borrowed or owned. *)
Definition normalize_path_view (path : string) : string :=
  normalize_path_copy path.

(** ** Mode bits (octal in the C headers) *)

Definition S_IFMT : Z := 61440.   (* 0170000 *)
Definition S_IFDIR : Z := 16384.  (* 0040000 *)
Definition S_IFREG : Z := 32768.  (* 0100000 *)
Definition S_IFLNK : Z := 40960.  (* 0120000 *)

Definition S_ISDIR (m : Z) : bool := Z.land m S_IFMT =? S_IFDIR.
Definition S_ISREG (m : Z) : bool := Z.land m S_IFMT =? S_IFREG.
Definition S_ISLNK (m : Z) : bool := Z.land m S_IFMT =? S_IFLNK.

Definition XATTR_CREATE : Z := 1.
Definition XATTR_REPLACE : Z := 2.

Definition APPENDFS_DEFAULT_BUFFER : Z := 4 * 1024 * 1024.
Definition APPENDFS_MIN_FLUSH : Z := 4 * 1024.
Definition RECORD_HEADER_SIZE : Z := 9.

Definition APPENDFS_RECORD_CREATE : Z := 1.
Definition APPENDFS_RECORD_EXTENT : Z := 2.
Definition APPENDFS_RECORD_TRUNCATE : Z := 3.
Definition APPENDFS_RECORD_UNLINK : Z := 4.
Definition APPENDFS_RECORD_RENAME : Z := 5.
Definition APPENDFS_RECORD_MKDIR : Z := 6.
Definition APPENDFS_RECORD_SETXATTR : Z := 7.
Definition APPENDFS_RECORD_REMOVEXATTR : Z := 8.
Definition APPENDFS_RECORD_TIMES : Z := 9.

(** ** The structs *)

Record appendfs_extent : Type := mkExtent {
  logical_offset : Z;
  ext_length : Z;       (* uint32_t length *)
  data_offset : Z
}.

Record appendfs_xattr : Type := mkXattr {
  xa_name : string;
  xa_value : list byte  (* value[0 .. size) *)
}.

Record appendfs_inode : Type := mkInode {
  inode_id : Z;
  path : string;
  mode : Z;
  isize : Z;            (* off_t size *)
  ctime : Z;
  mtime : Z;
  atime : Z;
  deleted : bool;
  extents : list appendfs_extent;   (* extents[0 .. extent_count) *)
  symlink_target : option string;
  xattrs : list appendfs_xattr      (* xattrs[0 .. xattr_count) *)
}.

Record appendfs_context : Type := mkContext {
  data_fd : file;
  meta_fd : file;
  next_inode_id : Z;
  inodes : list appendfs_inode;     (* inodes[0 .. inode_count) *)
  write_buffer_size : Z
}.

Record appendfs_file : Type := mkOpenFile {
  of_inode : nat;       (* file->inode, a row of file->ctx *)
  buffer : list byte;   (* buffer[0 .. buffer_size) *)
  buffer_size : Z;
  buffer_used : Z;
  buffer_offset : Z;
  of_flags : Z;
  position : Z
}.

(** Field updates. *)
Definition set_path (v : string) (i : appendfs_inode) :=
  mkInode (inode_id i) v (mode i) (isize i) (ctime i) (mtime i) (atime i)
          (deleted i) (extents i) (symlink_target i) (xattrs i).
Definition set_mode (v : Z) (i : appendfs_inode) :=
  mkInode (inode_id i) (path i) v (isize i) (ctime i) (mtime i) (atime i)
          (deleted i) (extents i) (symlink_target i) (xattrs i).
Definition set_isize (v : Z) (i : appendfs_inode) :=
  mkInode (inode_id i) (path i) (mode i) v (ctime i) (mtime i) (atime i)
          (deleted i) (extents i) (symlink_target i) (xattrs i).
Definition set_ctime (v : Z) (i : appendfs_inode) :=
  mkInode (inode_id i) (path i) (mode i) (isize i) v (mtime i) (atime i)
          (deleted i) (extents i) (symlink_target i) (xattrs i).
Definition set_mtime (v : Z) (i : appendfs_inode) :=
  mkInode (inode_id i) (path i) (mode i) (isize i) (ctime i) v (atime i)
          (deleted i) (extents i) (symlink_target i) (xattrs i).
Definition set_atime (v : Z) (i : appendfs_inode) :=
  mkInode (inode_id i) (path i) (mode i) (isize i) (ctime i) (mtime i) v
          (deleted i) (extents i) (symlink_target i) (xattrs i).
Definition set_deleted (v : bool) (i : appendfs_inode) :=
  mkInode (inode_id i) (path i) (mode i) (isize i) (ctime i) (mtime i)
          (atime i) v (extents i) (symlink_target i) (xattrs i).
Definition set_extents (v : list appendfs_extent) (i : appendfs_inode) :=
  mkInode (inode_id i) (path i) (mode i) (isize i) (ctime i) (mtime i)
          (atime i) (deleted i) v (symlink_target i) (xattrs i).
Definition set_symlink_target (v : option string) (i : appendfs_inode) :=
  mkInode (inode_id i) (path i) (mode i) (isize i) (ctime i) (mtime i)
          (atime i) (deleted i) (extents i) v (xattrs i).
Definition set_xattrs (v : list appendfs_xattr) (i : appendfs_inode) :=
  mkInode (inode_id i) (path i) (mode i) (isize i) (ctime i) (mtime i)
          (atime i) (deleted i) (extents i) (symlink_target i) v.

Definition set_data_fd (v : file) (c : appendfs_context) :=
  mkContext v (meta_fd c) (next_inode_id c) (inodes c) (write_buffer_size c).
Definition set_meta_fd (v : file) (c : appendfs_context) :=
  mkContext (data_fd c) v (next_inode_id c) (inodes c) (write_buffer_size c).
Definition set_next_inode_id (v : Z) (c : appendfs_context) :=
  mkContext (data_fd c) (meta_fd c) v (inodes c) (write_buffer_size c).
Definition set_inodes (v : list appendfs_inode) (c : appendfs_context) :=
  mkContext (data_fd c) (meta_fd c) (next_inode_id c) v (write_buffer_size c).
Definition set_write_buffer_size (v : Z) (c : appendfs_context) :=
  mkContext (data_fd c) (meta_fd c) (next_inode_id c) (inodes c) v.

(** Update in place of the row [idx] of the inode array. *)
Definition update_inode (idx : nat) (f : appendfs_inode -> appendfs_inode)
    (c : appendfs_context) : appendfs_context :=
  set_inodes (alter f idx (inodes c)) c.

(** The first index of a list whose element passes a test. *)
Fixpoint find_index {A} (p : A -> bool) (l : list A) : option nat :=
  match l with
  | [] => None
  | x :: r => if p x then Some O else option_map S (find_index p r)
  end.

(** ** Lookups *)

(** The three tests of one turn of the loop of [find_inode_by_path]. *)
Definition path_matches (needle : string) (inode : appendfs_inode) : bool :=
  negb (deleted inode)
  && (String.eqb (path inode) needle
      || (negb (Ascii.eqb (char_at (path inode) 0) slash)
          && Ascii.eqb (char_at needle 0) slash
          && String.eqb (path inode) (str_drop 1 needle))
      || (Ascii.eqb (char_at (path inode) 0) slash
          && negb (Ascii.eqb (char_at needle 0) slash)
          && String.eqb (str_drop 1 (path inode)) needle)).

Definition find_inode_by_path (ctx : appendfs_context) (p : string)
    : option nat :=
  find_index (path_matches (normalize_path_view p)) (inodes ctx).

Definition find_inode_by_id (ctx : appendfs_context) (id : Z) : option nat :=
  find_index (fun i => inode_id i =? id) (inodes ctx).

Definition add_extent (logical data_off len : Z) (inode : appendfs_inode)
    : appendfs_inode :=
  set_extents (extents inode ++ [mkExtent logical len data_off]) inode.

Definition find_xattr (inode : appendfs_inode) (name : string) : option nat :=
  find_index (fun x => String.eqb (xa_name x) name) (xattrs inode).

Definition flag_set (flags bit : Z) : bool := negb (Z.land flags bit =? 0).

(** A pointer is not null. *)
Definition is_some {A} (o : option A) : bool :=
  match o with Some _ => true | None => false end.

Definition set_xattr_internal (inode : appendfs_inode) (name : string)
    (value : list byte) (flags : Z) : result unit * appendfs_inode :=
  let existing := find_xattr inode name in
  if flag_set flags XATTR_CREATE && is_some existing
  then (Err EEXIST, inode)
  else if flag_set flags XATTR_REPLACE && negb (is_some existing)
  then (Err ENODATA, inode)
  else
    match existing with
    | None =>
        (Ok tt, set_xattrs (xattrs inode ++ [mkXattr name value]) inode)
    | Some i =>
        (Ok tt,
         set_xattrs (alter (fun x => mkXattr (xa_name x) value) i
                           (xattrs inode)) inode)
    end.

Definition remove_xattr_internal (inode : appendfs_inode) (name : string)
    : result unit * appendfs_inode :=
  match find_xattr inode name with
  | Some i => (Ok tt, set_xattrs (delete i (xattrs inode)) inode)
  | None => (Err ENODATA, inode)
  end.

Definition clear_inode_xattrs (inode : appendfs_inode) : appendfs_inode :=
  set_xattrs [] inode.

(** ** Appending metadata records *)

Definition bytes_of_string (s : string) : list byte := list_byte_of_string s.

(** [write_record(ctx, type, payload, length)]; the callers pass the
    payload length cast to [uint32_t]. *)
Definition write_record (ctx : appendfs_context) (type : Z)
    (payload : list byte) : result unit * appendfs_context :=
  let length := u32 (zlen payload) in
  let body := firstn (Z.to_nat length) payload in
  let checksum := appendfs_crc32 body in
  let header := byte_of_Z type :: le_encode 4 length ++ le_encode 4 checksum in
  match write_all (meta_fd ctx) header with
  | (Err e, f) => (Err e, set_meta_fd f ctx)
  | (Ok _, f) =>
      let '(r, f') := write_all f body in (r, set_meta_fd f' ctx)
  end.

Definition create_payload (inode : appendfs_inode) : list byte :=
  let path_len := strlen (path inode) in
  le_encode 8 (inode_id inode)
  ++ le_encode 4 (u32 (mode inode))
  ++ le_encode 8 (u64 (isize inode))
  ++ le_encode 8 (u64 (mtime inode))
  ++ le_encode 4 (u32 path_len)
  ++ bytes_of_string (path inode)
  ++ match symlink_target inode with
     | Some target =>
         if S_ISLNK (mode inode) then
           let target_len32 := u32 (strlen target) in
           le_encode 4 target_len32
           ++ firstn (Z.to_nat target_len32) (bytes_of_string target)
         else []
     | None => []
     end.

Definition append_create_record (ctx : appendfs_context)
    (inode : appendfs_inode) : result unit * appendfs_context :=
  write_record ctx
    (if S_ISDIR (mode inode) then APPENDFS_RECORD_MKDIR
     else APPENDFS_RECORD_CREATE)
    (create_payload inode).

Definition extent_payload (inode : appendfs_inode)
    (logical data_off len : Z) : list byte :=
  le_encode 8 (inode_id inode) ++ le_encode 8 logical ++ le_encode 8 data_off
  ++ le_encode 4 len ++ le_encode 8 (isize inode).

Definition append_extent_record (ctx : appendfs_context)
    (inode : appendfs_inode) (logical data_off len : Z) :=
  write_record ctx APPENDFS_RECORD_EXTENT
    (extent_payload inode logical data_off len).

Definition truncate_payload (inode : appendfs_inode) : list byte :=
  le_encode 8 (inode_id inode) ++ le_encode 8 (isize inode).

Definition append_truncate_record (ctx : appendfs_context)
    (inode : appendfs_inode) :=
  write_record ctx APPENDFS_RECORD_TRUNCATE (truncate_payload inode).

Definition unlink_payload (inode : appendfs_inode) : list byte :=
  le_encode 8 (inode_id inode).

Definition append_unlink_record (ctx : appendfs_context)
    (inode : appendfs_inode) :=
  write_record ctx APPENDFS_RECORD_UNLINK (unlink_payload inode).

Definition rename_payload (inode : appendfs_inode) (new_path : string)
    : list byte :=
  le_encode 8 (inode_id inode) ++ le_encode 4 (u32 (strlen new_path))
  ++ bytes_of_string new_path.

Definition append_rename_record (ctx : appendfs_context)
    (inode : appendfs_inode) (new_path : string) :=
  write_record ctx APPENDFS_RECORD_RENAME (rename_payload inode new_path).

Definition setxattr_payload (inode : appendfs_inode) (name : string)
    (value : list byte) : list byte :=
  le_encode 8 (inode_id inode) ++ le_encode 4 (u32 (strlen name))
  ++ le_encode 4 (u32 (zlen value)) ++ bytes_of_string name ++ value.

Definition append_setxattr_record (ctx : appendfs_context)
    (inode : appendfs_inode) (name : string) (value : list byte) :=
  write_record ctx APPENDFS_RECORD_SETXATTR
    (setxattr_payload inode name value).

Definition removexattr_payload (inode : appendfs_inode) (name : string)
    : list byte :=
  le_encode 8 (inode_id inode) ++ le_encode 4 (u32 (strlen name))
  ++ bytes_of_string name.

Definition append_removexattr_record (ctx : appendfs_context)
    (inode : appendfs_inode) (name : string) :=
  write_record ctx APPENDFS_RECORD_REMOVEXATTR
    (removexattr_payload inode name).

(** ** Paths *)

Definition path_is_prefix (p prefix : string) : bool :=
  let prefix_len := String.length prefix in
  if negb (strncmp_eq p prefix prefix_len) then false
  else if Nat.eqb prefix_len 0 then true
  else if Ascii.eqb (char_at prefix (prefix_len - 1)) slash then true
  else Ascii.eqb (char_at p prefix_len) Ascii.zero
       || Ascii.eqb (char_at p prefix_len) slash.

Definition is_immediate_child (parent candidate : string) : bool :=
  if String.eqb parent "/" then
    if negb (Ascii.eqb (char_at candidate 0) slash)
       || Ascii.eqb (char_at candidate 1) Ascii.zero
    then false
    else negb (strchr_found (str_drop 1 candidate) slash)
  else
    let parent_len := String.length parent in
    if negb (strncmp_eq candidate parent parent_len) then false
    else if negb (Ascii.eqb (char_at candidate parent_len) slash) then false
    else
      let rest := str_drop (S parent_len) candidate in
      if Ascii.eqb (char_at rest 0) Ascii.zero then false
      else negb (strchr_found rest slash).

(** [split_path(path, &parent, NULL)], the only way it is called. *)
Definition split_path (p : string) : result string :=
  if negb (Ascii.eqb (char_at p 0) slash)
     || Ascii.eqb (char_at p 1) Ascii.zero
  then Err EINVAL
  else
    match strrchr p slash with
    | None => Err EINVAL
    | Some k =>
        if Ascii.eqb (char_at p (S k)) Ascii.zero then Err EINVAL
        else Ok (match k with O => "/"%string | S _ => str_take k p end)
    end.

(** ** Inode rows *)

(** A row cleared by memset. *)
Definition zero_inode : appendfs_inode :=
  mkInode 0 EmptyString 0 0 0 0 0 false [] None [].

Definition inode_at (ctx : appendfs_context) (idx : nat) : appendfs_inode :=
  nth idx (inodes ctx) zero_inode.

(** [create_inode]: the new row is the last one. *)
Definition create_inode (ctx : appendfs_context) (p : string) (m : Z)
    (now : Z) : nat * appendfs_context :=
  let inode :=
    mkInode (next_inode_id ctx) (normalize_path_copy p) m 0 now now now
            false [] None [] in
  (List.length (inodes ctx),
   set_next_inode_id (u64 (next_inode_id ctx + 1))
     (set_inodes (inodes ctx ++ [inode]) ctx)).

(** [free_inode(inode)], the memset and [ctx->inode_count--] on the row
    [create_inode] has just added. *)
Definition drop_last_inode (ctx : appendfs_context) : appendfs_context :=
  set_inodes (removelast (inodes ctx)) ctx.

(** The parent test shared by create_file, mkdir and rename. *)
Definition parent_is_live_dir (ctx : appendfs_context) (parent : string)
    : bool :=
  match find_inode_by_path ctx parent with
  | None => false
  | Some pi =>
      negb (deleted (inode_at ctx pi)) && S_ISDIR (mode (inode_at ctx pi))
  end.

(** ** Directory operations *)

(** The loop of [appendfs_is_directory_empty]: [0] at the first live
    row that is an immediate child, [1] otherwise. *)
Definition appendfs_is_directory_empty (ctx : appendfs_context)
    (p : string) : bool :=
  let dir_path := normalize_path_view p in
  forallb
    (fun inode =>
       deleted inode
       || String.eqb (path inode) dir_path
       || negb (is_immediate_child dir_path (path inode)))
    (inodes ctx).

Definition appendfs_create_file (ctx : appendfs_context) (p : string)
    (m : Z) (now : Z) : result unit * appendfs_context :=
  let norm_path := normalize_path_copy p in
  let existing := find_inode_by_path ctx norm_path in
  if match existing with
     | Some e => negb (deleted (inode_at ctx e))
     | None => false
     end
  then (Err EEXIST, ctx)
  else
    match split_path norm_path with
    | Err e => (Err e, ctx)
    | Ok parent =>
        if negb (String.eqb parent "/") && negb (parent_is_live_dir ctx parent)
        then (Err ENOENT, ctx)
        else
          let '(idx, ctx1) :=
            match existing with
            | Some e =>
                (* a tombstoned row: reused *)
                (e, update_inode e
                      (fun i => clear_inode_xattrs
                                  (set_deleted false
                                     (set_isize 0
                                        (set_extents []
                                           (set_path norm_path i))))) ctx)
            | None => create_inode ctx norm_path (Z.lor S_IFREG m) now
            end in
          let ctx2 :=
            update_inode idx
              (fun i => set_atime now (set_mtime now (set_ctime now
                          (set_mode (Z.lor S_IFREG m) i)))) ctx1 in
          match append_create_record ctx2 (inode_at ctx2 idx) with
          | (Err e, ctx3) =>
              (Err e,
               match existing with
               | None => drop_last_inode ctx3
               | Some _ => ctx3
               end)
          | (Ok _, ctx3) => (Ok tt, ctx3)
          end
    end.

Definition appendfs_mkdirs (ctx : appendfs_context) (p : string) (m : Z)
    (now : Z) : result unit * appendfs_context :=
  match find_inode_by_path ctx p with
  | Some _ => (Ok tt, ctx)
  | None =>
      let '(idx, ctx1) := create_inode ctx p (Z.lor S_IFDIR m) now in
      match append_create_record ctx1 (inode_at ctx1 idx) with
      | (Err e, ctx2) => (Err e, drop_last_inode ctx2)
      | (Ok _, ctx2) => (Ok tt, ctx2)
      end
  end.

Definition appendfs_mkdir (ctx : appendfs_context) (p : string) (m : Z)
    (now : Z) : result unit * appendfs_context :=
  if Ascii.eqb (char_at p 0) Ascii.zero then (Err EINVAL, ctx)
  else if String.eqb p "/" then (Err EINVAL, ctx)
  else
    let norm_path := normalize_path_copy p in
    let existing := find_inode_by_path ctx norm_path in
    if match existing with
       | Some e => negb (deleted (inode_at ctx e))
       | None => false
       end
    then (Err EEXIST, ctx)
    else
      match split_path norm_path with
      | Err e => (Err e, ctx)
      | Ok parent =>
          if negb (String.eqb parent "/")
             && negb (parent_is_live_dir ctx parent)
          then (Err ENOENT, ctx)
          else
            match existing with
            | Some e =>
                let ctx1 :=
                  update_inode e
                    (fun i => clear_inode_xattrs
                       (set_atime now (set_mtime now (set_ctime now
                          (set_mode (Z.lor S_IFDIR (Z.land m 511))
                             (set_deleted false i)))))) ctx in
                append_create_record ctx1 (inode_at ctx1 e)
            | None =>
                let '(idx, ctx1) :=
                  create_inode ctx norm_path
                    (Z.lor S_IFDIR (Z.land m 511)) now in
                match append_create_record ctx1 (inode_at ctx1 idx) with
                | (Err e, ctx2) => (Err e, drop_last_inode ctx2)
                | (Ok _, ctx2) => (Ok tt, ctx2)
                end
            end
      end.

Definition appendfs_unlink (ctx : appendfs_context) (p : string)
    : result unit * appendfs_context :=
  match find_inode_by_path ctx p with
  | None => (Err ENOENT, ctx)
  | Some idx =>
      if S_ISDIR (mode (inode_at ctx idx)) then (Err EISDIR, ctx)
      else
        let ctx1 := update_inode idx (set_deleted true) ctx in
        match append_unlink_record ctx1 (inode_at ctx1 idx) with
        | (Err e, ctx2) => (Err e, ctx2)
        | (Ok _, ctx2) => (Ok tt, ctx2)
        end
  end.

(** The loop that trims the extent array in [appendfs_truncate] (and in
    the TRUNCATE case of replay): it stops at the first extent that
    starts at or after [size], or that straddles it. *)
Fixpoint trim_extents (size : Z) (exts : list appendfs_extent)
    : list appendfs_extent :=
  match exts with
  | [] => []
  | ext :: rest =>
      if logical_offset ext >=? size then []
      else if s64 (logical_offset ext + ext_length ext) >? size then
        [mkExtent (logical_offset ext) (u32 (size - logical_offset ext))
                  (data_offset ext)]
      else ext :: trim_extents size rest
  end.

Definition appendfs_truncate (ctx : appendfs_context) (p : string)
    (size : Z) (now : Z) : result unit * appendfs_context :=
  match find_inode_by_path ctx p with
  | None => (Err ENOENT, ctx)
  | Some idx =>
      let m := mode (inode_at ctx idx) in
      if negb (S_ISREG m) && negb (S_ISLNK m) then (Err EINVAL, ctx)
      else
        let ctx1 := update_inode idx (set_isize size) ctx in
        match append_truncate_record ctx1 (inode_at ctx1 idx) with
        | (Err e, ctx2) => (Err e, ctx2)
        | (Ok _, ctx2) =>
            (Ok tt,
             update_inode idx
               (fun i => set_mtime now
                           (set_extents (trim_extents size (extents i)) i))
               ctx2)
        end
  end.

(** ** Extended attributes *)

Definition appendfs_setxattr (ctx : appendfs_context) (p name : string)
    (value : list byte) (flags : Z) : result unit * appendfs_context :=
  match find_inode_by_path ctx p with
  | None => (Err ENOENT, ctx)
  | Some idx =>
      let inode := inode_at ctx idx in
      if deleted inode then (Err ENOENT, ctx)
      else
        let existing := find_xattr inode name in
        let old_value :=
          match existing with
          | Some k => xa_value (nth k (xattrs inode) (mkXattr name []))
          | None => []
          end in
        match set_xattr_internal inode name value flags with
        | (Err e, _) => (Err e, ctx)
        | (Ok _, inode1) =>
            let ctx1 := update_inode idx (fun _ => inode1) ctx in
            match append_setxattr_record ctx1 inode1 name value with
            | (Err e, ctx2) =>
                let restore i :=
                  match existing with
                  | Some _ =>
                      snd (set_xattr_internal i name old_value XATTR_REPLACE)
                  | None => snd (remove_xattr_internal i name)
                  end in
                (Err e, update_inode idx restore ctx2)
            | (Ok _, ctx2) => (Ok tt, ctx2)
            end
        end
  end.

Definition appendfs_removexattr (ctx : appendfs_context) (p name : string)
    : result unit * appendfs_context :=
  match find_inode_by_path ctx p with
  | None => (Err ENOENT, ctx)
  | Some idx =>
      let inode := inode_at ctx idx in
      if deleted inode then (Err ENOENT, ctx)
      else
        match find_xattr inode name with
        | None => (Err ENODATA, ctx)
        | Some k =>
            let backup := xa_value (nth k (xattrs inode) (mkXattr name [])) in
            match remove_xattr_internal inode name with
            | (Err e, _) => (Err e, ctx)
            | (Ok _, inode1) =>
                let ctx1 := update_inode idx (fun _ => inode1) ctx in
                match append_removexattr_record ctx1 inode1 name with
                | (Err e, ctx2) =>
                    (Err e,
                     update_inode idx
                       (fun i =>
                          snd (set_xattr_internal i name backup XATTR_CREATE))
                       ctx2)
                | (Ok _, ctx2) => (Ok tt, ctx2)
                end
            end
        end
  end.

(** ** Rename *)

(** The loop of [appendfs_rename] that gathers the descendants of the
    moved directory, from row [i] on: the row and the path it will get. *)
Fixpoint collect_children (moved : nat) (from_norm to_norm : string)
    (i : nat) (rows : list appendfs_inode) : list (nat * string) :=
  match rows with
  | [] => []
  | child :: rest =>
      let from_len := String.length from_norm in
      let more := collect_children moved from_norm to_norm (S i) rest in
      if Nat.eqb i moved || deleted child then more
      else if negb (path_is_prefix (path child) from_norm) then more
      else if (strlen (path child) <=? Z.of_nat from_len)
              || negb (Ascii.eqb (char_at (path child) from_len) slash)
      then more
      else
        (i, String.append to_norm (str_drop from_len (path child))) :: more
  end.

(** The loop that appends one RENAME record per gathered descendant and
    then moves it; it stops at the first record that cannot be appended. *)
Fixpoint rename_children (ctx : appendfs_context)
    (children : list (nat * string)) : result unit * appendfs_context :=
  match children with
  | [] => (Ok tt, ctx)
  | (ci, child_new_path) :: rest =>
      match append_rename_record ctx (inode_at ctx ci) child_new_path with
      | (Err e, ctx1) => (Err e, ctx1)
      | (Ok _, ctx1) =>
          rename_children
            (update_inode ci
               (fun c => set_deleted false (set_path child_new_path c)) ctx1)
            rest
      end
  end.

Definition appendfs_rename (ctx : appendfs_context)
    (from_path to_path : string) (now : Z)
    : result unit * appendfs_context :=
  let from_norm := normalize_path_copy from_path in
  let to_norm := normalize_path_copy to_path in
  match find_inode_by_path ctx from_norm with
  | None => (Err ENOENT, ctx)
  | Some idx =>
      if String.eqb from_norm to_norm then (Ok tt, ctx)
      else
        match split_path to_norm with
        | Err e => (Err e, ctx)
        | Ok to_parent =>
            if negb (String.eqb to_parent "/")
               && negb (parent_is_live_dir ctx to_parent)
            then (Err ENOENT, ctx)
            else
              let inode := inode_at ctx idx in
              (* an existing destination is checked, then tombstoned *)
              let replaced : result unit * appendfs_context :=
                match find_inode_by_path ctx to_norm with
                | None => (Ok tt, ctx)
                | Some d =>
                    let dest := inode_at ctx d in
                    if deleted dest then (Ok tt, ctx)
                    else if S_ISDIR (mode inode) && negb (S_ISDIR (mode dest))
                    then (Err ENOTDIR, ctx)
                    else if S_ISDIR (mode inode)
                            && negb (appendfs_is_directory_empty ctx to_norm)
                    then (Err ENOTEMPTY, ctx)
                    else if negb (S_ISDIR (mode inode)) && S_ISDIR (mode dest)
                    then (Err EISDIR, ctx)
                    else
                      let ctx1 :=
                        update_inode d
                          (fun i => set_mtime now (set_deleted true i)) ctx in
                      append_unlink_record ctx1 (inode_at ctx1 d)
                end in
              match replaced with
              | (Err e, ctx1) => (Err e, ctx1)
              | (Ok _, ctx1) =>
                  let children :=
                    if S_ISDIR (mode (inode_at ctx1 idx)) then
                      collect_children idx from_norm to_norm 0 (inodes ctx1)
                    else [] in
                  match append_rename_record ctx1 (inode_at ctx1 idx) to_norm
                  with
                  | (Err e, ctx2) => (Err e, ctx2)
                  | (Ok _, ctx2) =>
                      rename_children
                        (update_inode idx
                           (fun i => set_mtime now
                                       (set_deleted false
                                          (set_path to_norm i))) ctx2)
                        children
                  end
              end
        end
  end.

(** ** Open files: the write buffer *)

(** Flag values of the Linux [fcntl.h]. *)
Definition O_CREAT : Z := 64.
Definition O_TRUNC : Z := 512.
Definition O_APPEND : Z := 1024.

(** [memcpy(dst + off, src, |src|)] *)
Definition memcpy_at (dst : list byte) (off : Z) (src : list byte)
    : list byte :=
  firstn (Z.to_nat off) dst ++ src
  ++ skipn (Z.to_nat off + List.length src) dst.

Definition set_buffer_used (v : Z) (f : appendfs_file) :=
  mkOpenFile (of_inode f) (buffer f) (buffer_size f) v (buffer_offset f)
             (of_flags f) (position f).
Definition set_buffer_offset (v : Z) (f : appendfs_file) :=
  mkOpenFile (of_inode f) (buffer f) (buffer_size f) (buffer_used f) v
             (of_flags f) (position f).
Definition set_buffer (v : list byte) (f : appendfs_file) :=
  mkOpenFile (of_inode f) v (buffer_size f) (buffer_used f) (buffer_offset f)
             (of_flags f) (position f).
Definition set_position (v : Z) (f : appendfs_file) :=
  mkOpenFile (of_inode f) (buffer f) (buffer_size f) (buffer_used f)
             (buffer_offset f) (of_flags f) v.

Definition flush_buffer (ctx : appendfs_context) (f : appendfs_file)
    (now : Z) : result unit * appendfs_context * appendfs_file :=
  if buffer_used f =? 0 then (Ok tt, ctx, f)
  else
    let fd := lseek_end (data_fd ctx) in
    let data_off := f_pos fd in
    match write_all fd (firstn (Z.to_nat (buffer_used f)) (buffer f)) with
    | (Err e, fd1) => (Err e, set_data_fd fd1 ctx, f)
    | (Ok _, fd1) =>
        let ctx1 := set_data_fd fd1 ctx in
        let len := u32 (buffer_used f) in
        let new_size := s64 (buffer_offset f + buffer_used f) in
        let ctx2 :=
          update_inode (of_inode f)
            (fun i =>
               let i1 := add_extent (buffer_offset f) data_off len i in
               set_mtime now
                 (if new_size >? isize i1 then set_isize new_size i1 else i1))
            ctx1 in
        match append_extent_record ctx2 (inode_at ctx2 (of_inode f))
                (buffer_offset f) data_off len with
        | (Err e, ctx3) => (Err e, ctx3, f)
        | (Ok _, ctx3) => (Ok tt, ctx3, set_buffer_used 0 f)
        end
    end.

(** The copy loop of [appendfs_write]; [remaining] falls on every turn
    as long as the buffer has a positive size. *)
Fixpoint write_loop (fuel : nat) (ctx : appendfs_context)
    (f : appendfs_file) (buf : list byte) (size offset remaining : Z)
    (now : Z) : result unit * appendfs_context * appendfs_file :=
  match fuel with
  | O => (if remaining >? 0 then Err EUNSET else Ok tt, ctx, f)
  | S k =>
      if remaining >? 0 then
        let space := u64 (buffer_size f - buffer_used f) in
        let '(r, ctx1, f1, space1) :=
          if space =? 0 then
            match flush_buffer ctx f now with
            | (Err e, c, g) => (Err e, c, g, space)
            | (Ok _, c, g) =>
                (Ok tt, c,
                 set_buffer_offset (s64 (offset + (size - remaining))) g,
                 buffer_size g)
            end
          else (Ok tt, ctx, f, space) in
        match r with
        | Err e => (Err e, ctx1, f1)
        | Ok _ =>
            let to_copy := if remaining >? space1 then space1 else remaining in
            let f2 :=
              set_buffer_used (buffer_used f1 + to_copy)
                (set_buffer
                   (memcpy_at (buffer f1) (buffer_used f1)
                      (slice buf (size - remaining) to_copy)) f1) in
            let remaining1 := remaining - to_copy in
            if (buffer_used f2 >=? APPENDFS_MIN_FLUSH)
               && (buffer_used f2 >=? buffer_size f2)
            then
              match flush_buffer ctx1 f2 now with
              | (Err e, c, g) => (Err e, c, g)
              | (Ok _, c, g) =>
                  write_loop k c
                    (set_buffer_offset (s64 (offset + (size - remaining1))) g)
                    buf size offset remaining1 now
              end
            else write_loop k ctx1 f2 buf size offset remaining1 now
        end
      else (Ok tt, ctx, f)
  end.

(** [buf] is [None] for a null pointer. *)
Definition appendfs_write (ctx : appendfs_context) (f : appendfs_file)
    (buf : option (list byte)) (size offset : Z) (now : Z)
    : result Z * appendfs_context * appendfs_file :=
  match buf with
  | None => (Err EINVAL, ctx, f)
  | Some p =>
      if size =? 0 then (Ok 0, ctx, f)
      else
        let '(r, ctx1, f1) :=
          if (buffer_used f >? 0)
             && negb (offset =? s64 (buffer_offset f + buffer_used f))
          then flush_buffer ctx f now
          else (Ok tt, ctx, f) in
        match r with
        | Err e => (Err e, ctx1, f1)
        | Ok _ =>
            let f2 :=
              if buffer_used f1 =? 0 then set_buffer_offset offset f1
              else f1 in
            match write_loop (S (Z.to_nat size)) ctx1 f2 p size offset size now
            with
            | (Err e, c, g) => (Err e, c, g)
            | (Ok _, c, g) =>
                (Ok size, c, set_position (s64 (offset + size)) g)
            end
        end
  end.

Definition appendfs_flush (ctx : appendfs_context) (f : appendfs_file)
    (now : Z) : result unit * appendfs_context * appendfs_file :=
  flush_buffer ctx f now.

Definition appendfs_set_options (ctx : appendfs_context) (wbs : Z)
    : result unit * appendfs_context :=
  if wbs <? APPENDFS_MIN_FLUSH then (Err EINVAL, ctx)
  else (Ok tt, set_write_buffer_size wbs ctx).

Definition appendfs_open_file (ctx : appendfs_context) (p : string)
    (flags m : Z) (now : Z) : result appendfs_file * appendfs_context :=
  let found : result nat * appendfs_context :=
    match find_inode_by_path ctx p with
    | Some i => (Ok i, ctx)
    | None =>
        if negb (flag_set flags O_CREAT) then (Err ENOENT, ctx)
        else
          match appendfs_create_file ctx p m now with
          | (Err e, c) => (Err e, c)
          | (Ok _, c) =>
              match find_inode_by_path c p with
              | Some i => (Ok i, c)
              | None => (Err EUNSET, c) (* the row was just stored *)
              end
          end
    end in
  match found with
  | (Err e, c) => (Err e, c)
  | (Ok i, c) =>
      if S_ISDIR (mode (inode_at c i)) then (Err EISDIR, c)
      else
        let f :=
          mkOpenFile i (repeat x00 (Z.to_nat (write_buffer_size c)))
                     (write_buffer_size c) 0 0 flags 0 in
        let truncated :=
          if flag_set flags O_TRUNC then appendfs_truncate c p 0 now
          else (Ok tt, c) in
        match truncated with
        | (Err e, c1) => (Err e, c1)
        | (Ok _, c1) =>
            (Ok (if flag_set flags O_APPEND
                 then set_position (isize (inode_at c1 i)) f else f), c1)
        end
  end.

(** ** Reading *)

(** The extent loop of [appendfs_read]: [out] is the caller's buffer and
    [total] the bytes stored so far, always at [out + total]. *)
Fixpoint read_extents (data : file) (exts : list appendfs_extent)
    (out : list byte) (size offset total : Z) : result Z * list byte :=
  match exts with
  | [] => (Ok total, out)
  | ext :: rest =>
      if total <? size then
        let ext_end := s64 (logical_offset ext + ext_length ext) in
        if offset >=? ext_end then
          read_extents data rest out size offset total
        else
          let start :=
            if offset >? logical_offset ext then offset
            else logical_offset ext in
          let cap := s64 (offset + s64 (u64 (size - total))) in
          let end_ := if ext_end >? cap then cap else ext_end in
          if start >=? end_ then
            read_extents data rest out size offset total
          else
            let read_len := u64 (end_ - start) in
            let data_pos :=
              s64 (data_offset ext + (start - logical_offset ext)) in
            let got := sys_pread data read_len data_pos in
            if zlen got =? read_len then
              read_extents data rest (memcpy_at out total got) size offset
                           (u64 (total + read_len))
            else (Err EUNSET, memcpy_at out total got)
      else (Ok total, out)
  end.

Definition appendfs_read (ctx : appendfs_context) (p : string)
    (out : list byte) (size offset : Z) (now : Z)
    : result Z * list byte * appendfs_context :=
  match find_inode_by_path ctx p with
  | None => (Err ENOENT, out, ctx)
  | Some idx =>
      let inode := inode_at ctx idx in
      if deleted inode then (Err ENOENT, out, ctx)
      else if offset >=? isize inode then (Ok 0, out, ctx)
      else
        match read_extents (data_fd ctx) (extents inode) out size offset 0
        with
        | (Err e, out1) => (Err e, out1, ctx)
        | (Ok total, out1) =>
            (Ok total, out1,
             if total >? 0 then update_inode idx (set_atime now) ctx
             else ctx)
        end
  end.

(** ** Stat *)

Record appendfs_inode_info : Type := mkInfo {
  st_ino : Z;
  st_mode : Z;
  st_size : Z;
  st_ctime : Z;
  st_mtime : Z;
  st_atime : Z
}.

Definition appendfs_stat (ctx : appendfs_context) (p : string)
    : result appendfs_inode_info :=
  match find_inode_by_path ctx p with
  | None => Err ENOENT
  | Some idx =>
      let inode := inode_at ctx idx in
      if deleted inode then Err ENOENT
      else Ok (mkInfo (inode_id inode) (mode inode) (isize inode)
                      (ctime inode) (mtime inode) (atime inode))
  end.

(** ** Replay of the metadata log *)

Fixpoint until_nul (bs : list byte) : list byte :=
  match bs with
  | [] => []
  | b :: r => if Byte.eqb b x00 then [] else b :: until_nul r
  end.

(** [strndup((const char * )(p + off), n)] *)
Definition strndup (p : list byte) (off n : Z) : string :=
  string_of_list_byte (until_nul (slice p off n)).

(** An integer field of [n] bytes read by [memcpy] at [p + off]. *)
Definition field (p : list byte) (off n : Z) : Z := le_decode (slice p off n).

Definition apply_create (ctx : appendfs_context) (p : list byte)
    : appendfs_context :=
  let length := zlen p in
  if length <? 28 then ctx
  else
    let id := field p 0 8 in
    let m := field p 8 4 in
    let size := field p 12 8 in
    let ts := field p 20 8 in
    let path_len := field p 28 4 in
    let offset := 32 in
    if offset + path_len >? length then ctx
    else
      let new_path := strndup p offset path_len in
      let '(idx, ctx1) :=
        match find_inode_by_id ctx id with
        | None =>
            (List.length (inodes ctx),
             set_inodes
               (inodes ctx
                ++ [mkInode id EmptyString 0 0 0 0 0 false [] None []]) ctx)
        | Some i =>
            (i, update_inode i
                  (fun r => set_xattrs []
                              (set_symlink_target None (set_extents [] r)))
                  ctx)
        end in
      let offset1 := offset + path_len in
      let target :=
        if S_ISLNK m && (offset1 + 4 <=? length) then
          let target_len := field p offset1 4 in
          if offset1 + 4 + target_len <=? length
          then Some (strndup p (offset1 + 4) target_len)
          else None
        else None in
      let ctx2 :=
        update_inode idx
          (fun r =>
             let r1 :=
               set_deleted false
                 (set_atime (s64 ts) (set_mtime (s64 ts) (set_ctime (s64 ts)
                    (set_isize (s64 size) (set_mode m
                       (set_path new_path r)))))) in
             match target with
             | Some t => set_symlink_target (Some t) r1
             | None => r1
             end) ctx1 in
      if next_inode_id ctx2 <=? id
      then set_next_inode_id (u64 (id + 1)) ctx2
      else ctx2.

Definition apply_extent (ctx : appendfs_context) (p : list byte)
    : appendfs_context :=
  if zlen p <? 36 then ctx
  else
    let id := field p 0 8 in
    let logical := s64 (field p 8 8) in
    let data_off := s64 (field p 16 8) in
    let len := field p 24 4 in
    let new_size := s64 (field p 28 8) in
    match find_inode_by_id ctx id with
    | None => ctx
    | Some i =>
        update_inode i
          (fun r =>
             let r1 := add_extent logical data_off len r in
             if new_size >? isize r1 then set_isize new_size r1 else r1) ctx
    end.

Definition apply_truncate (ctx : appendfs_context) (p : list byte)
    : appendfs_context :=
  if zlen p <? 16 then ctx
  else
    let id := field p 0 8 in
    let new_size := s64 (field p 8 8) in
    match find_inode_by_id ctx id with
    | None => ctx
    | Some i =>
        update_inode i
          (fun r => set_extents (trim_extents new_size (extents r))
                      (set_isize new_size r)) ctx
    end.

Definition apply_unlink (ctx : appendfs_context) (p : list byte)
    : appendfs_context :=
  if zlen p <? 8 then ctx
  else
    match find_inode_by_id ctx (field p 0 8) with
    | None => ctx
    | Some i => update_inode i (set_deleted true) ctx
    end.

Definition apply_rename (ctx : appendfs_context) (p : list byte)
    : appendfs_context :=
  if zlen p <? 12 then ctx
  else
    let id := field p 0 8 in
    let path_len := field p 8 4 in
    if 12 + path_len >? zlen p then ctx
    else
      match find_inode_by_id ctx id with
      | None => ctx
      | Some i =>
          update_inode i
            (fun r => set_deleted false (set_path (strndup p 12 path_len) r))
            ctx
      end.

Definition apply_setxattr (ctx : appendfs_context) (p : list byte)
    : appendfs_context :=
  if zlen p <? 16 then ctx
  else
    let id := field p 0 8 in
    let name_len := field p 8 4 in
    let value_len := field p 12 4 in
    let offset := 16 in
    if offset + name_len + value_len >? zlen p then ctx
    else
      match find_inode_by_id ctx id with
      | None => ctx
      | Some i =>
          let name := strndup p offset name_len in
          let value := slice p (offset + name_len) value_len in
          update_inode i (fun r => snd (set_xattr_internal r name value 0)) ctx
      end.

Definition apply_removexattr (ctx : appendfs_context) (p : list byte)
    : appendfs_context :=
  if zlen p <? 12 then ctx
  else
    let id := field p 0 8 in
    let name_len := field p 8 4 in
    if 12 + name_len >? zlen p then ctx
    else
      match find_inode_by_id ctx id with
      | None => ctx
      | Some i =>
          update_inode i
            (fun r => snd (remove_xattr_internal r (strndup p 12 name_len)))
            ctx
      end.

Definition apply_times (ctx : appendfs_context) (p : list byte)
    : appendfs_context :=
  if zlen p <? 24 then ctx
  else
    let id := field p 0 8 in
    let atime_raw := s64 (field p 8 8) in
    let mtime_raw := s64 (field p 16 8) in
    match find_inode_by_id ctx id with
    | None => ctx
    | Some i =>
        update_inode i (fun r => set_mtime mtime_raw (set_atime atime_raw r))
                     ctx
    end.

(** The [switch (type)] of [replay_metadata] on a payload whose checksum
    has been accepted. *)
Definition apply_record (ctx : appendfs_context) (type : Z)
    (payload : list byte) : appendfs_context :=
  if (type =? APPENDFS_RECORD_CREATE) || (type =? APPENDFS_RECORD_MKDIR)
  then apply_create ctx payload
  else if type =? APPENDFS_RECORD_EXTENT then apply_extent ctx payload
  else if type =? APPENDFS_RECORD_TRUNCATE then apply_truncate ctx payload
  else if type =? APPENDFS_RECORD_UNLINK then apply_unlink ctx payload
  else if type =? APPENDFS_RECORD_RENAME then apply_rename ctx payload
  else if type =? APPENDFS_RECORD_SETXATTR then apply_setxattr ctx payload
  else if type =? APPENDFS_RECORD_REMOVEXATTR
  then apply_removexattr ctx payload
  else if type =? APPENDFS_RECORD_TIMES then apply_times ctx payload
  else ctx.

(** The [while (1)] of [replay_metadata].  A turn that does not leave the
    loop consumes at least the nine header bytes. *)
Fixpoint replay_loop (fuel : nat) (ctx : appendfs_context)
    : appendfs_context :=
  match fuel with
  | O => ctx
  | S k =>
      let '(header, fd1) := sys_read (meta_fd ctx) RECORD_HEADER_SIZE in
      if zlen header <? RECORD_HEADER_SIZE then set_meta_fd fd1 ctx
      else
        let type := Z_of_byte (nth 0 header x00) in
        let length := field header 1 4 in
        let checksum := field header 5 4 in
        match read_all fd1 length with
        | (None, fd2) => set_meta_fd fd2 ctx
        | (Some payload, fd2) =>
            let ctx1 := set_meta_fd fd2 ctx in
            if negb (appendfs_crc32 payload =? checksum)
            then replay_loop k ctx1
            else replay_loop k (apply_record ctx1 type payload)
        end
  end.

Definition replay_metadata (ctx : appendfs_context) : appendfs_context :=
  let ctx0 := set_meta_fd (lseek_set (meta_fd ctx) 0) ctx in
  let ctx1 := replay_loop (S (List.length (f_data (meta_fd ctx)))) ctx0 in
  set_meta_fd (lseek_end (meta_fd ctx1)) ctx1.

(** [appendfs_open] on the two backing files as found on disk. *)
Definition appendfs_open (data meta : file) : appendfs_context :=
  replay_metadata (mkContext data meta 1 [] APPENDFS_DEFAULT_BUFFER).

(** * Stores and notions used in the statements *)

(** ** Stores used as concrete inputs *)

(** A store opened on two empty backing files, each on a device with
    [room] bytes left. *)
Definition fresh_store (room : Z) : appendfs_context :=
  appendfs_open (mkFile [] 0 room) (mkFile [] 0 room).

(** The device of the metadata log accepts nothing more. *)
Definition meta_device_full (ctx : appendfs_context) : appendfs_context :=
  set_meta_fd (mkFile (f_data (meta_fd ctx)) (f_pos (meta_fd ctx)) 0) ctx.

(** Each [(bytes, offset)] of [writes] is written through the open file
    and flushed. *)
Fixpoint write_and_flush_all (ctx : appendfs_context) (f : appendfs_file)
    (writes : list (list byte * Z)) (now : Z)
    : option (appendfs_context * appendfs_file) :=
  match writes with
  | [] => Some (ctx, f)
  | (bytes, off) :: rest =>
      match appendfs_write ctx f (Some bytes) (zlen bytes) off now with
      | (Ok _, c1, f1) =>
          match appendfs_flush c1 f1 now with
          | (Ok _, c2, f2) => write_and_flush_all c2 f2 rest now
          | _ => None
          end
      | _ => None
      end
  end.

(** A fresh store whose write buffer is set to [wbs] bytes and in which
    [p] is created (mode 0644), opened and written as [writes] says. *)
Definition store_with_file (p : string) (wbs : Z)
    (writes : list (list byte * Z)) : option appendfs_context :=
  match appendfs_set_options (fresh_store 1000000) wbs with
  | (Ok _, c0) =>
      match appendfs_create_file c0 p 420 1 with
      | (Ok _, c1) =>
          match appendfs_open_file c1 p 0 0 2 with
          | (Ok f, c2) => fst <$> write_and_flush_all c2 f writes 3
          | _ => None
          end
      | _ => None
      end
  | _ => None
  end.


(** A read on a store that may not have been built: the result and the
    caller's buffer afterwards. *)
Definition read_in (store : option appendfs_context) (p : string)
    (out : list byte) (size offset : Z) : option (result Z * list byte) :=
  (fun ctx => fst (appendfs_read ctx p out size offset 9)) <$> store.

(** ** Framed records, for statements about replay *)

(** One record as it lies in the log: the type byte, the payload, and the
    checksum stored in its header (not necessarily the right one). *)
Record log_record : Type := mkRecord {
  rec_type : byte;
  rec_payload : list byte;
  rec_checksum : Z
}.

Definition frame (r : log_record) : list byte :=
  rec_type r :: le_encode 4 (zlen (rec_payload r))
  ++ le_encode 4 (rec_checksum r) ++ rec_payload r.

Definition encode_log (rs : list log_record) : list byte :=
  concat (map frame rs).

(** The length and the checksum fit their four header bytes. *)
Definition well_framed (r : log_record) : Prop :=
  zlen (rec_payload r) < 2 ^ 32 /\ 0 <= rec_checksum r < 2 ^ 32.

Definition checksum_ok (r : log_record) : bool :=
  appendfs_crc32 (rec_payload r) =? rec_checksum r.

(** What replay does with one record: applied when the checksum is right,
    dropped otherwise. *)
Definition apply_if_valid (ctx : appendfs_context) (r : log_record)
    : appendfs_context :=
  if checksum_ok r
  then apply_record ctx (Z_of_byte (rec_type r)) (rec_payload r)
  else ctx.

(** The record [write_record] frames for a payload. *)
Definition framed (type : byte) (payload : list byte) : log_record :=
  mkRecord type payload (appendfs_crc32 payload).

(** The payloads applied by replay of a list of records, in order. *)
Definition apply_all (ctx : appendfs_context) (rs : list log_record)
    : appendfs_context :=
  fold_left
    (fun c r => apply_record c (Z_of_byte (rec_type r)) (rec_payload r))
    rs ctx.

(** Sample records: the MKDIR record of a directory row, and a CREATE
    record whose header carries the checksum 0. *)
Definition sample_mkdir (id : Z) (p : string) : log_record :=
  framed x06
    (create_payload (mkInode id p (Z.lor S_IFDIR 493) 0 1 1 1 false [] None [])).

Definition sample_damaged (id : Z) (p : string) : log_record :=
  mkRecord x01
    (create_payload (mkInode id p (Z.lor S_IFREG 420) 0 1 1 1 false [] None []))
    0.

(** A context about to replay the log [meta]. *)
Definition unopened (meta : list byte) (room : Z) : appendfs_context :=
  mkContext (mkFile [] 0 room) (mkFile meta 0 room) 1 []
            APPENDFS_DEFAULT_BUFFER.

(** The row [mkdirs] stores for a path that is not taken. *)
Definition mkdirs_row (ctx : appendfs_context) (p : string) (m now : Z)
    : appendfs_inode :=
  mkInode (next_inode_id ctx) (normalize_path_copy p) (Z.lor S_IFDIR m) 0
          now now now false [] None [].

(** ** Extended attributes: the two mutating calls side by side *)

Inductive xattr_op : Type :=
| XSet (value : list byte) (flags : Z)
| XRemove.

(** The public call. *)
Definition xattr_call (ctx : appendfs_context) (p name : string)
    (op : xattr_op) : result unit * appendfs_context :=
  match op with
  | XSet value flags => appendfs_setxattr ctx p name value flags
  | XRemove => appendfs_removexattr ctx p name
  end.

(** Its change of the row in memory. *)
Definition xattr_mutation (inode : appendfs_inode) (name : string)
    (op : xattr_op) : result unit * appendfs_inode :=
  match op with
  | XSet value flags => set_xattr_internal inode name value flags
  | XRemove => remove_xattr_internal inode name
  end.

(** Its record append. *)
Definition xattr_append (ctx : appendfs_context) (inode : appendfs_inode)
    (name : string) (op : xattr_op) : result unit * appendfs_context :=
  match op with
  | XSet value _ => append_setxattr_record ctx inode name value
  | XRemove => append_removexattr_record ctx inode name
  end.

(** The value [getxattr] finds under a name: that of the entry
    [find_xattr] returns. *)
Definition xattr_value (inode : appendfs_inode) (name : string)
    : option (list byte) :=
  match find_xattr inode name with
  | Some k => xa_value <$> xattrs inode !! k
  | None => None
  end.

(** A store with the file [/f] carrying two attributes, on a metadata
    device that has just filled up. *)
Definition store_with_xattrs : option appendfs_context :=
  match appendfs_create_file (fresh_store 4096) "/f" 420 1 with
  | (Ok _, c1) =>
      match appendfs_setxattr c1 "/f" "user.k" [x76] 0 with
      | (Ok _, c2) =>
          match appendfs_setxattr c2 "/f" "user.j" [] 0 with
          | (Ok _, c3) => Some (meta_device_full c3)
          | _ => None
          end
      | _ => None
      end
  | _ => None
  end.

(** The first value stored under a name in an attribute array. *)
Fixpoint xattr_assoc (name : string) (xs : list appendfs_xattr)
    : option (list byte) :=
  match xs with
  | [] => None
  | x :: r =>
      if String.eqb (xa_name x) name then Some (xa_value x)
      else xattr_assoc name r
  end.

Definition xattr_store : appendfs_context :=
  match store_with_xattrs with
  | Some c => c
  | None => fresh_store 0
  end.

(** ** Subtrees, for statements about rename *)

(** [q] is [a], a slash, and anything after it. *)
Definition under (a q : string) : bool :=
  strncmp_eq q (String.append a "/") (String.length (String.append a "/")).

(** [b] is [a] or lies in the subtree of [a]. *)
Definition path_within (a b : string) : bool :=
  under a (String.append b "/").

(** The rows, from row [i] on, that are live and lie under [a]: the row
    and its path. *)
Fixpoint live_descendants (a : string) (i : nat)
    (rows : list appendfs_inode) : list (nat * string) :=
  match rows with
  | [] => []
  | r :: rest =>
      if negb (deleted r) && under a (path r)
      then (i, path r) :: live_descendants a (S i) rest
      else live_descendants a (S i) rest
  end.

(** The record [write_record] stores for a type and a payload. *)
Definition record_of (type : Z) (payload : list byte) : log_record :=
  let body := firstn (Z.to_nat (u32 (zlen payload))) payload in
  mkRecord (byte_of_Z type) body (appendfs_crc32 body).

(** The RENAME record of row [i] of [ctx] for its new path. *)
Definition rename_record (ctx : appendfs_context) (i : nat)
    (new_path : string) : log_record :=
  record_of APPENDFS_RECORD_RENAME (rename_payload (inode_at ctx i) new_path).

(** The path a descendant of [a] gets when [a] becomes [b]. *)
Definition moved_path (a b q : string) : string :=
  String.append b (str_drop (String.length a) q).

(** What the rename loop does to a gathered row. *)
Definition move_row (new_path : string) (r : appendfs_inode)
    : appendfs_inode :=
  set_deleted false (set_path new_path r).

(** The inode array after the rows of [moves] got their new paths. *)
Definition apply_moves (rows : list appendfs_inode)
    (moves : list (nat * string)) : list appendfs_inode :=
  fold_left (fun l '(i, np) => alter (move_row np) i l) moves rows.

(** A store with the directory [/a] and the file [/a/b]. *)
Definition rename_store : appendfs_context :=
  snd (appendfs_create_file
         (snd (appendfs_mkdir (fresh_store 4096) "/a" 493 1)) "/a/b" 420 2).

(** * Further operations of [appendfs.c] *)

(** ** rmdir *)

Definition appendfs_rmdir (ctx : appendfs_context) (p : string) (now : Z)
    : result unit * appendfs_context :=
  if String.eqb p "/" then (Err EINVAL, ctx)
  else
    match find_inode_by_path ctx p with
    | None => (Err ENOENT, ctx)
    | Some idx =>
        if deleted (inode_at ctx idx) then (Err ENOENT, ctx)
        else if negb (S_ISDIR (mode (inode_at ctx idx)))
        then (Err ENOTDIR, ctx)
        else if negb (appendfs_is_directory_empty ctx p)
        then (Err ENOTEMPTY, ctx)
        else
          let ctx1 :=
            update_inode idx (fun i => set_mtime now (set_deleted true i))
                         ctx in
          match append_unlink_record ctx1 (inode_at ctx1 idx) with
          | (Err e, ctx2) => (Err e, ctx2)
          | (Ok _, ctx2) => (Ok tt, ctx2)
          end
  end.

(** ** Symbolic links *)

(** The mode argument of [appendfs_symlink] is ignored by the code and
    left out here. *)
Definition appendfs_symlink (ctx : appendfs_context)
    (target linkpath : string) (now : Z) : result unit * appendfs_context :=
  let norm_path := normalize_path_copy linkpath in
  let existing := find_inode_by_path ctx norm_path in
  if match existing with
     | Some e => negb (deleted (inode_at ctx e))
     | None => false
     end
  then (Err EEXIST, ctx)
  else
    match split_path norm_path with
    | Err e => (Err e, ctx)
    | Ok parent =>
        if negb (String.eqb parent "/") && negb (parent_is_live_dir ctx parent)
        then (Err ENOENT, ctx)
        else
          let '(idx, ctx1) :=
            match existing with
            | Some e =>
                (e, update_inode e
                      (fun i => clear_inode_xattrs
                                  (set_extents []
                                     (set_symlink_target None
                                        (set_path norm_path i)))) ctx)
            | None => create_inode ctx norm_path (Z.lor S_IFLNK 511) now
            end in
          let ctx2 :=
            update_inode idx
              (fun i =>
                 set_deleted false
                   (set_atime now (set_mtime now (set_ctime now
                      (set_isize (s64 (strlen target))
                         (set_mode (Z.lor S_IFLNK 511)
                            (set_symlink_target (Some target) i)))))))
              ctx1 in
          match append_create_record ctx2 (inode_at ctx2 idx) with
          | (Err e, ctx3) =>
              (Err e,
               match existing with
               | None => drop_last_inode ctx3
               | Some _ => update_inode idx (set_symlink_target None) ctx3
               end)
          | (Ok _, ctx3) => (Ok tt, ctx3)
          end
    end.

(** [buf[i] = c] *)
Definition store_byte (buf : list byte) (i : Z) (c : byte) : list byte :=
  memcpy_at buf i [c].

Definition appendfs_readlink (ctx : appendfs_context) (p : string)
    (buf : list byte) (size : Z) (now : Z)
    : result Z * list byte * appendfs_context :=
  match find_inode_by_path ctx p with
  | None => (Err ENOENT, buf, ctx)
  | Some idx =>
      let inode := inode_at ctx idx in
      if deleted inode then (Err ENOENT, buf, ctx)
      else if negb (S_ISLNK (mode inode)) then (Err EINVAL, buf, ctx)
      else
        let target_len :=
          match symlink_target inode with
          | Some t => strlen t
          | None => 0
          end in
        if size =? 0 then (Ok target_len, buf, ctx)
        else
          let copy_len :=
            if target_len <? u64 (size - 1) then target_len
            else u64 (size - 1) in
          if size =? 1 then (Ok target_len, store_byte buf 0 x00, ctx)
          else
            let buf1 :=
              match symlink_target inode with
              | Some t =>
                  memcpy_at buf 0
                    (firstn (Z.to_nat copy_len) (bytes_of_string t))
              | None => buf
              end in
            (Ok target_len, store_byte buf1 copy_len x00,
             update_inode idx (set_atime now) ctx)
  end.

(** ** Timestamps *)

Record timespec : Type := mkTimespec { tv_sec : Z; tv_nsec : Z }.

(** Values of the Linux [sys/stat.h]. *)
Definition UTIME_NOW : Z := 1073741823.   (* (1l << 30) - 1l *)
Definition UTIME_OMIT : Z := 1073741822.  (* (1l << 30) - 2l *)

Definition times_payload (inode : appendfs_inode) : list byte :=
  le_encode 8 (inode_id inode) ++ le_encode 8 (atime inode)
  ++ le_encode 8 (mtime inode).

Definition append_times_record (ctx : appendfs_context)
    (inode : appendfs_inode) :=
  write_record ctx APPENDFS_RECORD_TIMES (times_payload inode).

Definition appendfs_set_times (ctx : appendfs_context) (p : string)
    (times_0 times_1 : timespec) (now : Z)
    : result unit * appendfs_context :=
  match find_inode_by_path ctx p with
  | None => (Err ENOENT, ctx)
  | Some idx =>
      if deleted (inode_at ctx idx) then (Err ENOENT, ctx)
      else
        let set_a i :=
          if tv_nsec times_0 =? UTIME_NOW then set_atime now i
          else if negb (tv_nsec times_0 =? UTIME_OMIT)
          then set_atime (tv_sec times_0) i
          else i in
        let set_m i :=
          if tv_nsec times_1 =? UTIME_NOW then set_mtime now i
          else if negb (tv_nsec times_1 =? UTIME_OMIT)
          then set_mtime (tv_sec times_1) i
          else i in
        let ctx1 :=
          update_inode idx (fun i => set_ctime now (set_m (set_a i))) ctx in
        match append_times_record ctx1 (inode_at ctx1 idx) with
        | (Err e, ctx2) => (Err e, ctx2)
        | (Ok _, ctx2) => (Ok tt, ctx2)
        end
  end.

(** ** Reading extended attributes *)

(** [value] is [None] for a null pointer; the buffer comes back as the
    call leaves it. *)
Definition appendfs_getxattr (ctx : appendfs_context) (p name : string)
    (value : option (list byte)) (size : Z)
    : result Z * option (list byte) :=
  match find_inode_by_path ctx p with
  | None => (Err ENOENT, value)
  | Some idx =>
      let inode := inode_at ctx idx in
      if deleted inode then (Err ENOENT, value)
      else
        match find_xattr inode name with
        | None => (Err ENODATA, value)
        | Some k =>
            let attr := nth k (xattrs inode) (mkXattr name []) in
            match value with
            | None => (Ok (zlen (xa_value attr)), None)
            | Some buf =>
                if size <? zlen (xa_value attr) then (Err ERANGE, value)
                else (Ok (zlen (xa_value attr)),
                      Some (memcpy_at buf 0 (xa_value attr)))
            end
        end
  end.

(** The two loops of [appendfs_listxattr]: the total, and the names laid
    out one after the other, each with its terminator ([lst] is the
    parameter [list]). *)
Definition listxattr_total (xs : list appendfs_xattr) : Z :=
  fold_left (fun total x => total + (strlen (xa_name x) + 1)) xs 0.

Fixpoint listxattr_fill (xs : list appendfs_xattr) (lst : list byte)
    (offset : Z) : list byte :=
  match xs with
  | [] => lst
  | x :: rest =>
      let len := strlen (xa_name x) in
      let lst1 := memcpy_at lst offset (bytes_of_string (xa_name x)) in
      listxattr_fill rest (store_byte lst1 (offset + len) x00)
                     (offset + len + 1)
  end.

Definition appendfs_listxattr (ctx : appendfs_context) (p : string)
    (lst : option (list byte)) (size : Z)
    : result Z * option (list byte) :=
  match find_inode_by_path ctx p with
  | None => (Err ENOENT, lst)
  | Some idx =>
      let inode := inode_at ctx idx in
      if deleted inode then (Err ENOENT, lst)
      else
        let total := listxattr_total (xattrs inode) in
        match lst with
        | None => (Ok total, None)
        | Some buf =>
            if size <? total then (Err ERANGE, lst)
            else (Ok total, Some (listxattr_fill (xattrs inode) buf 0))
        end
  end.

(** ** Seek *)

Definition SEEK_SET : Z := 0.
Definition SEEK_CUR : Z := 1.
Definition SEEK_END : Z := 2.
Definition SEEK_DATA : Z := 3.
Definition SEEK_HOLE : Z := 4.

(** The loop of the SEEK_DATA case: the first extent, in array order,
    that ends after [offset]; [-1] when there is none. *)
Fixpoint seek_data_loop (exts : list appendfs_extent) (offset : Z) : Z :=
  match exts with
  | [] => -1
  | ext :: rest =>
      let start := logical_offset ext in
      let end_ := s64 (logical_offset ext + ext_length ext) in
      if end_ <=? offset then seek_data_loop rest offset
      else if offset <? start then start else offset
  end.

(** The loop of the SEEK_HOLE case; [inl] is a return from inside the
    loop, [inr] the position the loop ends with. *)
Fixpoint seek_hole_loop (exts : list appendfs_extent) (pos : Z) : Z + Z :=
  match exts with
  | [] => inr pos
  | ext :: rest =>
      let start := logical_offset ext in
      let end_ := s64 (logical_offset ext + ext_length ext) in
      if pos <? start then inl pos
      else if (pos >=? start) && (pos <? end_)
      then seek_hole_loop rest end_
      else seek_hole_loop rest pos
  end.

Definition appendfs_seek (ctx : appendfs_context) (f : appendfs_file)
    (offset whence : Z) (now : Z)
    : result Z * appendfs_context * appendfs_file :=
  let '(r, ctx1, f1) :=
    if buffer_used f >? 0 then appendfs_flush ctx f now
    else (Ok tt, ctx, f) in
  match r with
  | Err e => (Err e, ctx1, f1)
  | Ok _ =>
      let inode := inode_at ctx1 (of_inode f1) in
      if (whence =? SEEK_SET) || (whence =? SEEK_CUR) || (whence =? SEEK_END)
      then
        let base :=
          if whence =? SEEK_CUR then position f1
          else if whence =? SEEK_END then isize inode
          else 0 in
        let new_pos := s64 (base + offset) in
        if new_pos <? 0 then (Err EINVAL, ctx1, f1)
        else (Ok new_pos, ctx1, set_position new_pos f1)
      else if whence =? SEEK_DATA then
        if offset <? 0 then (Err EINVAL, ctx1, f1)
        else if offset >=? isize inode then (Err ENXIO, ctx1, f1)
        else
          let found := seek_data_loop (extents inode) offset in
          if found <? 0 then (Err ENXIO, ctx1, f1)
          else (Ok found, ctx1, set_position found f1)
      else if whence =? SEEK_HOLE then
        if offset <? 0 then (Err EINVAL, ctx1, f1)
        else if offset >=? isize inode
        then (Ok (isize inode), ctx1, set_position (isize inode) f1)
        else
          match seek_hole_loop (extents inode) offset with
          | inl pos => (Ok pos, ctx1, set_position pos f1)
          | inr pos =>
              let pos1 := if pos >? isize inode then isize inode else pos in
              (Ok pos1, ctx1, set_position pos1 f1)
          end
      else (Err EINVAL, ctx1, f1)
  end.

(** ** Close of an open file *)

(** [appendfs_close_file]: the flush result is returned and the handle is
    gone either way. *)
Definition appendfs_close_file (ctx : appendfs_context) (f : appendfs_file)
    (now : Z) : result unit * appendfs_context :=
  let '(r, ctx1, _) := appendfs_flush ctx f now in (r, ctx1).

(** ** Listing a directory *)

(** The name [is_immediate_child] hands out: the candidate after the
    parent and its slash. *)
Definition child_name (parent candidate : string) : string :=
  if String.eqb parent "/" then str_drop 1 candidate
  else str_drop (S (String.length parent)) candidate.

Definition info_of (inode : appendfs_inode) : appendfs_inode_info :=
  mkInfo (inode_id inode) (mode inode) (isize inode) (ctime inode)
         (mtime inode) (atime inode).

(** The loop of [appendfs_iterate_children]; the callback gets the name,
    the info and the user data, and returns its code with the user data
    as it leaves it.  A code other than 0 ends the loop. *)
Fixpoint iterate_rows {U : Type} (parent : string)
    (cb : string -> appendfs_inode_info -> U -> Z * U)
    (rows : list appendfs_inode) (user_data : U) : U :=
  match rows with
  | [] => user_data
  | inode :: rest =>
      if deleted inode then iterate_rows parent cb rest user_data
      else if negb (is_immediate_child parent (path inode))
      then iterate_rows parent cb rest user_data
      else
        let '(rc, u1) :=
          cb (child_name parent (path inode)) (info_of inode) user_data in
        if negb (rc =? 0) then u1 else iterate_rows parent cb rest u1
  end.

Definition appendfs_iterate_children {U : Type} (ctx : appendfs_context)
    (dir_path : string) (cb : string -> appendfs_inode_info -> U -> Z * U)
    (user_data : U) : result unit * U :=
  (Ok tt, iterate_rows (normalize_path_view dir_path) cb (inodes ctx)
            user_data).

(** * Notions used in the further statements *)

(** A string that C can hold: no NUL inside. *)
Fixpoint c_string (s : string) : bool :=
  match s with
  | EmptyString => true
  | String c r => negb (Ascii.eqb c Ascii.zero) && c_string r
  end.

(** A row without its three timestamps. *)
Definition without_times (i : appendfs_inode) : appendfs_inode :=
  set_atime 0 (set_mtime 0 (set_ctime 0 i)).

(** What of a context is meant to outlive the process: every row but for
    its timestamps, and the next inode id. *)
Definition durable (c : appendfs_context) : list appendfs_inode * Z :=
  (map without_times (inodes c), next_inode_id c).

(** Close and open again: [appendfs_open] on the two files as they are. *)
Definition reopen (c : appendfs_context) : appendfs_context :=
  appendfs_open (data_fd c) (meta_fd c).

(** The log is a sequence of whole records and the descriptor is at its
    end. *)
Definition log_intact (c : appendfs_context) : Prop :=
  f_pos (meta_fd c) = file_size (meta_fd c)
  /\ exists rs, Forall well_framed rs /\ f_data (meta_fd c) = encode_log rs.

(** Replay of the log rebuilds the rows held in memory. *)
Definition consistent (c : appendfs_context) : Prop :=
  log_intact c /\ durable (reopen c) = durable c.

(** Inode ids are distinct 64-bit values below the next id to hand out. *)
Definition ids_fresh (c : appendfs_context) : Prop :=
  NoDup (map inode_id (inodes c))
  /\ Forall (fun id => 0 <= id < next_inode_id c) (map inode_id (inodes c))
  /\ 0 < next_inode_id c < 2 ^ 64.

(** The invariant of a store that has seen no failed append: the log
    replays to the rows in memory, and the ids are fresh. *)
Definition sound (c : appendfs_context) : Prop :=
  consistent c /\ ids_fresh c.

(** A row update that neither reads nor keeps a timestamp of its own. *)
Definition time_blind (f : appendfs_inode -> appendfs_inode) : Prop :=
  forall x, without_times (f x) = without_times (f (without_times x)).

(** ** Stores used as concrete inputs of the further statements *)

(** A fresh store with the file [/f], and the row and record of it. *)
Definition store_f : appendfs_context :=
  snd (appendfs_create_file (fresh_store 4096) "/f" 420 1).

Definition row_f : appendfs_inode :=
  mkInode 1 "/f" (Z.lor S_IFREG 420) 0 1 1 1 false [] None [].

Definition record_f : log_record :=
  record_of APPENDFS_RECORD_CREATE (create_payload row_f).

(** A fresh store with the directory [/d]. *)
Definition store_d : appendfs_context :=
  snd (appendfs_mkdir (fresh_store 4096) "/d" 493 1).

Definition record_d : log_record :=
  record_of APPENDFS_RECORD_MKDIR
    (create_payload
       (mkInode 1 "/d" (Z.lor S_IFDIR 493) 0 1 1 1 false [] None [])).

(** [/f] with the attribute [user.k]. *)
Definition store_f_xattr : appendfs_context :=
  snd (appendfs_setxattr store_f "/f" "user.k" [x76] 0).

Definition record_f_xattr : log_record :=
  record_of APPENDFS_RECORD_SETXATTR (setxattr_payload row_f "user.k" [x76]).

(** [/f] opened with a write buffer of 4096 bytes, with three bytes
    written at offset 0 and not flushed. *)
Definition store_f_written : appendfs_context * appendfs_file :=
  match appendfs_open_file (snd (appendfs_set_options store_f 4096))
          "/f" 0 0 2 with
  | (Ok f, c) =>
      let '(_, c', f') := appendfs_write c f (Some [x61; x62; x63]) 3 0 3 in
      (c', f')
  | (Err _, c) => (c, mkOpenFile 0 [] 0 0 0 0 0)
  end.

(** ** The three calls that add a row, side by side *)

Inductive create_call : Type :=
| CreateFile (m : Z)
| Mkdir (m : Z)
| Symlink (target : string).

Definition run_create (ctx : appendfs_context) (p : string)
    (call : create_call) (now : Z) : result unit * appendfs_context :=
  match call with
  | CreateFile m => appendfs_create_file ctx p m now
  | Mkdir m => appendfs_mkdir ctx p m now
  | Symlink target => appendfs_symlink ctx target p now
  end.

(** The row a successful call stores. *)
Definition created_row (ctx : appendfs_context) (p : string)
    (call : create_call) (now : Z) : appendfs_inode :=
  match call with
  | CreateFile m =>
      mkInode (next_inode_id ctx) (normalize_path_copy p) (Z.lor S_IFREG m)
              0 now now now false [] None []
  | Mkdir m =>
      mkInode (next_inode_id ctx) (normalize_path_copy p)
              (Z.lor S_IFDIR (Z.land m 511)) 0 now now now false [] None []
  | Symlink target =>
      mkInode (next_inode_id ctx) (normalize_path_copy p)
              (Z.lor S_IFLNK 511) (s64 (strlen target)) now now now false []
              (Some target) []
  end.

(** The attribute names of a row as [listxattr] lays them out: one after
    the other, each with its terminator. *)
Definition names_block (xs : list appendfs_xattr) : list byte :=
  concat (map (fun x => bytes_of_string (xa_name x) ++ [x00]) xs).

(** ** Listing with a callback that records every entry *)

(** The callback stores the name and the info and returns 0, which asks
    for the next entry. *)
Definition collect_entry (name : string) (info : appendfs_inode_info)
    (seen : list (string * appendfs_inode_info))
    : Z * list (string * appendfs_inode_info) :=
  (0, seen ++ [(name, info)]).

Definition list_children (ctx : appendfs_context) (dir_path : string)
    : list (string * appendfs_inode_info) :=
  snd (appendfs_iterate_children ctx dir_path collect_entry []).

(** The rows [appendfs_iterate_children] hands to the callback. *)
Definition is_listed (dir : string) (r : appendfs_inode) : bool :=
  negb (deleted r) && is_immediate_child dir (path r).

(** [store_f] on a metadata device with room for five more bytes. *)
Definition store_f_nearly_full : appendfs_context :=
  set_meta_fd (mkFile (f_data (meta_fd store_f)) (f_pos (meta_fd store_f)) 5)
              store_f.
(** * Properties *)

(** ** Writing nothing *)

(** C10.  A write of zero bytes through a non-null buffer returns 0 and
    leaves the context (both logs, every inode) and the open file (buffer,
    [buffer_offset], [buffer_used], position) as they were, whatever the
    offset. *)
Theorem write_zero_bytes_changes_nothing :
  forall (ctx : appendfs_context) (f : appendfs_file) (buf : list byte)
         (offset now : Z),
    appendfs_write ctx f (Some buf) 0 offset now = (Ok 0, ctx, f).
Proof. intros; reflexivity. Qed.

(** ** Reading: holes and overlapping extents *)

(** C1.  The store of scenario S2: 4096 bytes 0xAA written at offset
    1048576 of a new file and flushed, so that the file is 1052672 bytes
    long and starts with a hole.  A read of 16 bytes at offset 0 returns 0
    and stores nothing in the caller's buffer (here filled with 0xFF
    beforehand); a read of 16 bytes that starts 6 bytes before the extent
    returns 10 and stores the extent's bytes at the start of the buffer,
    not at their logical position. *)
Theorem read_skips_holes_instead_of_zero_filling :
  let store := store_with_file "/h" 4096 [(repeat xaa 4096, 1048576)] in
  (fun ctx => st_size <$> match appendfs_stat ctx "/h" with
                          | Ok i => Some i
                          | Err _ => None
                          end) <$> store = Some (Some 1052672)
  /\ read_in store "/h" (repeat xff 16) 16 0 = Some (Ok 0, repeat xff 16)
  /\ read_in store "/h" (repeat xff 16) 16 1048570
     = Some (Ok 10, repeat xaa 10 ++ repeat xff 6).
Proof. vm_compute. repeat split; reflexivity. Qed.

(** C2.  The store of scenario S3: 1024 bytes 0x11 written at offset 0 and
    flushed, then 512 bytes 0x22 written at offset 256 and flushed.  A read
    of 1024 bytes at offset 0 is served from the first extent alone: it
    returns 1024 bytes 0x11, and the bytes of the later flush do not show. *)
Theorem read_serves_overlap_from_the_oldest_extent :
  let store :=
    store_with_file "/o" 4096 [(repeat x11 1024, 0); (repeat x22 512, 256)] in
  read_in store "/o" (repeat x00 1024) 1024 0
  = Some (Ok 1024, repeat x11 1024)
  /\ repeat x11 1024
     <> repeat x11 256 ++ repeat x22 512 ++ repeat x11 256.
Proof.
  split.
  - vm_compute. reflexivity.
  - intros H. apply (f_equal (fun l => nth 256 l x00)) in H.
    vm_compute in H. discriminate H.
Qed.

(** ** Failure of the record append in unlink and truncate *)

(** C3.  A store holding the 4-byte file [/f]; the device of the metadata
    log is full.  [unlink] fails, yet the row stays tombstoned: [stat],
    which succeeded before the call, now fails with ENOENT.  [truncate] to
    1 fails, yet the size stays 1.  Nothing is recorded that undoes the
    change: the log has not grown. *)
Theorem unlink_and_truncate_keep_their_change_on_failure :
  let store :=
    meta_device_full <$> store_with_file "/f" 4096 [(repeat xaa 4, 0)] in
  (fun ctx => st_size <$> match appendfs_stat ctx "/f" with
                          | Ok i => Some i
                          | Err _ => None
                          end) <$> store = Some (Some 4)
  /\ (fun ctx =>
        let '(r, ctx') := appendfs_unlink ctx "/f" in
        (r, appendfs_stat ctx' "/f",
         file_size (meta_fd ctx') - file_size (meta_fd ctx))) <$> store
     = Some (Err ENOSPC, Err ENOENT, 0)
  /\ (fun ctx =>
        let '(r, ctx') := appendfs_truncate ctx "/f" 1 9 in
        (r, st_size <$> match appendfs_stat ctx' "/f" with
                        | Ok i => Some i
                        | Err _ => None
                        end,
         file_size (meta_fd ctx') - file_size (meta_fd ctx))) <$> store
     = Some (Err ENOSPC, Some 1, 0).
Proof. vm_compute. repeat split; reflexivity. Qed.

(** ** The mode of a created file *)

(** C8.  [create_file] with the mode argument 040755 (the type bits of a
    directory and 0755) succeeds and stores the mode 0140755, the argument
    or-ed with S_IFREG; S_IFREG | (mode & 07777) is 0100755. *)
Theorem create_file_does_not_mask_the_mode :
  (let '(r, ctx') := appendfs_create_file (fresh_store 4096) "/f" 16877 7 in
   (r, st_mode <$> match appendfs_stat ctx' "/f" with
                   | Ok i => Some i
                   | Err _ => None
                   end)) = (Ok tt, Some 49645)
  /\ Z.lor S_IFREG (Z.land 16877 4095) = 33261.
Proof. vm_compute. split; reflexivity. Qed.

(** ** Bytes and little-endian fields *)

Lemma Z_of_byte_range (b : byte) : 0 <= Z_of_byte b < 256.
Proof.
  unfold Z_of_byte. pose proof (Byte.to_N_bounded b) as H.
  lia.
Qed.

Lemma Z_of_byte_of_Z (z : Z) : Z_of_byte (byte_of_Z z) = z mod 256.
Proof.
  unfold Z_of_byte, byte_of_Z.
  assert (Hr : 0 <= z mod 256 < 256) by (apply Z.mod_pos_bound; lia).
  destruct (Byte.of_N (Z.to_N (z mod 256))) as [b|] eqn:E.
  - apply Byte.to_of_N in E. rewrite E. rewrite Z2N.id; lia.
  - apply Byte.of_N_None_iff in E. lia.
Qed.

Lemma length_le_encode (n : nat) (x : Z) : List.length (le_encode n x) = n.
Proof. revert x; induction n; intros; simpl; [|rewrite IHn]; reflexivity. Qed.

Lemma lor_shiftl_8 (a b : Z) :
  0 <= a < 256 -> 0 <= b -> Z.lor a (Z.shiftl b 8) = a + 256 * b.
Proof.
  intros Ha Hb.
  rewrite Z.shiftl_mul_pow2 by lia.
  rewrite <- Z.add_nocarry_lor.
  - change (2 ^ 8) with 256. lia.
  - apply Z.bits_inj'. intros n Hn.
    rewrite Z.land_spec, Z.bits_0.
    destruct (Z.ltb_spec n 8).
    + rewrite Z.mul_pow2_bits_low by lia. apply andb_false_r.
    + replace (Z.testbit a n) with false; [reflexivity|].
      symmetry. apply Z.bits_above_log2; [lia|].
      destruct (Z.eq_dec a 0) as [->|]; [simpl; lia|].
      apply Z.log2_lt_pow2; [lia|].
      apply Z.lt_le_trans with (2 ^ 8); [simpl; lia|].
      apply Z.pow_le_mono_r; lia.
Qed.

Lemma le_decode_encode (n : nat) (x : Z) :
  le_decode (le_encode n x) = x mod 2 ^ (8 * Z.of_nat n).
Proof.
  revert x; induction n as [|n IH]; intros x.
  - simpl. rewrite Z.mod_1_r. reflexivity.
  - cbn [le_encode le_decode]. rewrite IH, Z_of_byte_of_Z.
    change 255 with (Z.ones 8). rewrite Z.land_ones by lia.
    change (2 ^ 8) with 256. rewrite Z.mod_mod by lia.
    rewrite Z.shiftr_div_pow2 by lia. change (2 ^ 8) with 256.
    rewrite lor_shiftl_8.
    + replace (8 * Z.of_nat (S n)) with (8 + 8 * Z.of_nat n) by lia.
      rewrite Z.pow_add_r by lia. change (2 ^ 8) with 256.
      rewrite Z.rem_mul_r by lia. reflexivity.
    + apply Z.mod_pos_bound; lia.
    + apply Z.mod_pos_bound. apply Z.pow_pos_nonneg; lia.
Qed.

Lemma le_decode_encode_4 (x : Z) :
  0 <= x < 2 ^ 32 -> le_decode (le_encode 4 x) = x.
Proof.
  intros H. rewrite le_decode_encode.
  change (8 * Z.of_nat 4) with 32. apply Z.mod_small; lia.
Qed.

(** ** Slices and the backing files *)

Lemma zlen_app {A} (a b : list A) : zlen (a ++ b) = zlen a + zlen b.
Proof. unfold zlen. rewrite length_app. lia. Qed.

Lemma zlen_nonneg {A} (a : list A) : 0 <= zlen a.
Proof. unfold zlen. lia. Qed.

Lemma slice_app_mid (a b c : list byte) :
  slice (a ++ b ++ c) (zlen a) (zlen b) = b.
Proof.
  unfold slice, zlen. rewrite !Nat2Z.id.
  rewrite drop_app_length. apply take_app_length.
Qed.

Lemma write_all_ok (f : file) (buf : list byte) :
  zlen buf <= f_room f ->
  f_pos f = file_size f ->
  write_all f buf
  = (Ok tt, mkFile (f_data f ++ buf) (f_pos f + zlen buf)
                   (f_room f - zlen buf)).
Proof.
  intros Hroom Hpos. unfold write_all.
  destruct buf as [|b r].
  - cbn. destruct f; cbn. rewrite app_nil_r, Z.add_0_r, Z.sub_0_r.
    reflexivity.
  - assert (Hlen : 0 < zlen (b :: r)) by (unfold zlen; cbn; lia).
    cbn [write_all_loop List.length].
    replace (0 <? zlen (b :: r)) with true by (symmetry; apply Z.ltb_lt; lia).
    change (skipn (Z.to_nat 0) (b :: r)) with (b :: r).
    unfold sys_write.
    replace (f_room f <=? 0) with false by (symmetry; apply Z.leb_gt; lia).
    rewrite Z.min_l by lia.
    replace (zlen (b :: r) =? 0) with false
      by (symmetry; apply Z.eqb_neq; lia).
    rewrite Z.add_0_l, Z.ltb_irrefl.
    f_equal. f_equal.
    rewrite Hpos. unfold file_size, zlen. rewrite !Nat2Z.id.
    rewrite firstn_all. rewrite (take_ge (b :: r)) by lia.
    rewrite drop_ge by lia. rewrite app_nil_r. reflexivity.
Qed.

Lemma write_all_succeeds (f : file) (buf : list byte) :
  zlen buf <= f_room f ->
  exists f', write_all f buf = (Ok tt, f')
             /\ f_room f' = f_room f - zlen buf.
Proof.
  intros Hroom. unfold write_all.
  destruct buf as [|b r].
  - exists f. split; [reflexivity|]. unfold zlen. cbn. lia.
  - assert (Hlen : 0 < zlen (b :: r)) by (unfold zlen; cbn; lia).
    cbn [write_all_loop List.length].
    replace (0 <? zlen (b :: r)) with true by (symmetry; apply Z.ltb_lt; lia).
    change (skipn (Z.to_nat 0) (b :: r)) with (b :: r).
    unfold sys_write.
    replace (f_room f <=? 0) with false by (symmetry; apply Z.leb_gt; lia).
    rewrite Z.min_l by lia.
    replace (zlen (b :: r) =? 0) with false
      by (symmetry; apply Z.eqb_neq; lia).
    rewrite Z.add_0_l, Z.ltb_irrefl.
    eexists. split; reflexivity.
Qed.

Lemma write_all_data_fd_free (f : file) (buf : list byte) :
  f_room f <= 0 -> 0 < zlen buf -> write_all f buf = (Err ENOSPC, f).
Proof.
  intros Hroom Hlen. unfold write_all. cbn [write_all_loop].
  replace (0 <? zlen buf) with true by (symmetry; apply Z.ltb_lt; lia).
  unfold sys_write.
  replace (f_room f <=? 0) with true by (symmetry; apply Z.leb_le; lia).
  reflexivity.
Qed.

Lemma length_header (type : byte) (l c : list byte) :
  List.length (type :: l ++ c) = S (List.length l + List.length c).
Proof. cbn. rewrite length_app. reflexivity. Qed.

Lemma write_record_ok (ctx : appendfs_context) (type : Z)
    (payload : list byte) :
  zlen payload < 2 ^ 32 ->
  RECORD_HEADER_SIZE + zlen payload <= f_room (meta_fd ctx) ->
  f_pos (meta_fd ctx) = file_size (meta_fd ctx) ->
  write_record ctx type payload
  = (Ok tt,
     set_meta_fd
       (mkFile (f_data (meta_fd ctx) ++ frame (framed (byte_of_Z type) payload))
               (f_pos (meta_fd ctx) + RECORD_HEADER_SIZE + zlen payload)
               (f_room (meta_fd ctx) - RECORD_HEADER_SIZE - zlen payload))
       ctx).
Proof.
  intros Hlen Hroom Hpos. unfold write_record, RECORD_HEADER_SIZE in *.
  pose proof (zlen_nonneg payload) as Hnn.
  unfold u32. rewrite (Z.mod_small (zlen payload)) by lia.
  unfold zlen at 2 3. rewrite Nat2Z.id, firstn_all.
  set (hdr := byte_of_Z type :: le_encode 4 (zlen payload)
                ++ le_encode 4 (appendfs_crc32 payload)).
  assert (Hh : zlen hdr = 9).
  { unfold zlen, hdr. rewrite length_header, !length_le_encode.
    reflexivity. }
  rewrite write_all_ok by lia. rewrite write_all_ok.
  - cbn [f_data f_pos f_room]. rewrite Hh. unfold frame, framed.
    cbn [rec_type rec_payload rec_checksum].
    rewrite <- app_assoc. unfold hdr. cbn [app]. rewrite <- !app_assoc.
    reflexivity.
  - cbn [f_room]. lia.
  - unfold file_size in *. cbn [f_pos f_data]. rewrite zlen_app. lia.
Qed.

Lemma write_record_succeeds (ctx : appendfs_context) (type : Z)
    (payload : list byte) :
  RECORD_HEADER_SIZE + zlen payload <= f_room (meta_fd ctx) ->
  exists ctx', write_record ctx type payload = (Ok tt, ctx')
               /\ ctx' = set_meta_fd (meta_fd ctx') ctx.
Proof.
  intros Hroom. unfold write_record, RECORD_HEADER_SIZE in *.
  pose proof (zlen_nonneg payload) as Hnn.
  set (body := firstn (Z.to_nat (u32 (zlen payload))) payload).
  set (hdr := byte_of_Z type :: le_encode 4 (u32 (zlen payload))
                ++ le_encode 4 (appendfs_crc32 body)).
  assert (Hh : zlen hdr = 9).
  { unfold zlen, hdr. rewrite length_header, !length_le_encode.
    reflexivity. }
  assert (Hb : zlen body <= zlen payload).
  { unfold body, zlen. rewrite length_take. lia. }
  destruct (write_all_succeeds (meta_fd ctx) hdr) as (f1 & E1 & Hr1); [lia|].
  rewrite E1.
  destruct (write_all_succeeds f1 body) as (f2 & E2 & _); [lia|].
  rewrite E2. eexists. split; reflexivity.
Qed.

(** ** Reading: the extent loop in general

    The evaluations for C1 and C2 are instances of the two lemmas at the
    end of this section. *)

Lemma s64_small (x : Z) : - 2 ^ 63 <= x < 2 ^ 63 -> s64 x = x.
Proof. intros H. unfold s64. rewrite Z.mod_small; lia. Qed.

Lemma u64_small (x : Z) : 0 <= x < 2 ^ 64 -> u64 x = x.
Proof. intros H. unfold u64. apply Z.mod_small. lia. Qed.

Lemma geb_false (x y : Z) : x < y -> (x >=? y) = false.
Proof. intros H. rewrite Z.geb_leb. apply Z.leb_gt. exact H. Qed.

Lemma geb_true (x y : Z) : y <= x -> (x >=? y) = true.
Proof. intros H. rewrite Z.geb_leb. apply Z.leb_le. exact H. Qed.

Lemma gtb_false (x y : Z) : x <= y -> (x >? y) = false.
Proof. intros H. rewrite Z.gtb_ltb. apply Z.ltb_ge. exact H. Qed.

Lemma gtb_false_inv (x y : Z) : (x >? y) = false -> x <= y.
Proof. intros H. rewrite Z.gtb_ltb in H. apply Z.ltb_ge. exact H. Qed.

(** A request that ends before every extent starts: nothing is stored and
    0 is returned, whatever the size of the file. *)
Lemma read_extents_before_all_extents (data : file)
    (exts : list appendfs_extent) (out : list byte) (size offset : Z) :
  0 <= offset -> 0 < size -> offset + size < 2 ^ 63 ->
  Forall (fun ext => offset + size <= logical_offset ext
                     /\ 0 <= ext_length ext
                     /\ logical_offset ext + ext_length ext < 2 ^ 63) exts ->
  read_extents data exts out size offset 0 = (Ok 0, out).
Proof.
  intros Ho Hs Hb Hall. induction Hall as [|ext exts [Hl [Hn Hr]] _ IH];
    [reflexivity|].
  cbn [read_extents].
  replace (0 <? size) with true by (symmetry; apply Z.ltb_lt; lia).
  rewrite Z.sub_0_r.
  rewrite (s64_small (logical_offset ext + ext_length ext)) by lia.
  replace (offset >=? logical_offset ext + ext_length ext) with false
    by (symmetry; apply geb_false; lia).
  replace (offset >? logical_offset ext) with false
    by (symmetry; apply gtb_false; lia).
  rewrite (u64_small size) by lia.
  rewrite (s64_small size) by lia.
  rewrite (s64_small (offset + size)) by lia.
  destruct (logical_offset ext + ext_length ext >? offset + size) eqn:E.
  - replace (logical_offset ext >=? offset + size) with true
      by (symmetry; apply geb_true; lia).
    exact IH.
  - apply gtb_false_inv in E.
    replace (logical_offset ext >=? logical_offset ext + ext_length ext)
      with true by (symmetry; apply geb_true; lia).
    exact IH.
Qed.

(** A request that the oldest extent covers is served from that extent
    alone: the extents flushed later are not looked at. *)
Lemma read_extents_first_extent_wins (data : file) (ext : appendfs_extent)
    (later : list appendfs_extent) (out : list byte) (size offset : Z) :
  0 <= offset -> 0 < size ->
  logical_offset ext <= offset ->
  offset + size <= logical_offset ext + ext_length ext ->
  logical_offset ext + ext_length ext < 2 ^ 63 ->
  0 <= data_offset ext ->
  data_offset ext + (offset - logical_offset ext) + size <= file_size data ->
  file_size data < 2 ^ 63 ->
  read_extents data (ext :: later) out size offset 0
  = (Ok size,
     memcpy_at out 0
       (slice (f_data data)
          (data_offset ext + (offset - logical_offset ext)) size)).
Proof.
  intros Ho Hs Hl Hr Hb Hd Hlen Hfs.
  cbn [read_extents].
  replace (0 <? size) with true by (symmetry; apply Z.ltb_lt; lia).
  rewrite Z.sub_0_r.
  rewrite (s64_small (logical_offset ext + ext_length ext)) by lia.
  replace (offset >=? logical_offset ext + ext_length ext) with false
    by (symmetry; apply geb_false; lia).
  rewrite (u64_small size) by lia.
  rewrite (s64_small size) by lia.
  rewrite (s64_small (offset + size)) by lia.
  assert (Hstart : (if offset >? logical_offset ext then offset
                    else logical_offset ext) = offset).
  { destruct (offset >? logical_offset ext) eqn:E; [reflexivity|].
    apply gtb_false_inv in E. lia. }
  rewrite Hstart.
  assert (Hend : (if logical_offset ext + ext_length ext >? offset + size
                  then offset + size
                  else logical_offset ext + ext_length ext) = offset + size).
  { destruct (logical_offset ext + ext_length ext >? offset + size) eqn:E;
      [reflexivity|]. apply gtb_false_inv in E. lia. }
  rewrite Hend.
  replace (offset >=? offset + size) with false
    by (symmetry; apply geb_false; lia).
  replace (offset + size - offset) with size by lia.
  rewrite (u64_small size) by lia.
  rewrite (s64_small (data_offset ext + (offset - logical_offset ext)))
    by (pose proof (zlen_nonneg (f_data data)); unfold file_size in *; lia).
  unfold sys_pread.
  replace (data_offset ext + (offset - logical_offset ext) <? 0) with false
    by (symmetry; apply Z.ltb_ge; lia).
  assert (Hgot : zlen (slice (f_data data)
                         (data_offset ext + (offset - logical_offset ext))
                         size) = size).
  { unfold slice, file_size, zlen in *.
    rewrite length_take, length_drop. lia. }
  rewrite Hgot, Z.eqb_refl, Z.add_0_l.
  rewrite (u64_small size) by lia.
  destruct later as [|e l]; cbn [read_extents];
    [reflexivity|rewrite Z.ltb_irrefl; reflexivity].
Qed.

(** ** A record append touches the metadata log only *)

Lemma write_record_frame (ctx : appendfs_context) (type : Z)
    (payload : list byte) :
  forall r ctx',
    write_record ctx type payload = (r, ctx') ->
    ctx' = set_meta_fd (meta_fd ctx') ctx.
Proof.
  intros r ctx' H. unfold write_record in H.
  repeat case_match; simplify_eq/=; reflexivity.
Qed.

Lemma write_record_inodes (ctx : appendfs_context) (type : Z)
    (payload : list byte) (r : result unit) (ctx' : appendfs_context) :
  write_record ctx type payload = (r, ctx') -> inodes ctx' = inodes ctx.
Proof.
  intros H. apply write_record_frame in H. rewrite H. reflexivity.
Qed.

(** ** Replay reads the log record by record *)

Lemma set_meta_fd_twice (f g : file) (ctx : appendfs_context) :
  set_meta_fd f (set_meta_fd g ctx) = set_meta_fd f ctx.
Proof. reflexivity. Qed.

Lemma apply_record_set_meta_fd (f : file) (ctx : appendfs_context)
    (type : Z) (payload : list byte) :
  apply_record (set_meta_fd f ctx) type payload
  = set_meta_fd f (apply_record ctx type payload).
Proof.
  destruct ctx as [d m nid rows wbs].
  unfold apply_record, apply_create, apply_extent, apply_truncate,
    apply_unlink, apply_rename, apply_setxattr, apply_removexattr,
    apply_times, find_inode_by_id, update_inode, set_meta_fd, set_inodes,
    set_next_inode_id.
  cbn [inodes data_fd meta_fd next_inode_id write_buffer_size].
  repeat case_match; simplify_eq/=; try reflexivity; congruence.
Qed.

Lemma apply_if_valid_set_meta_fd (f : file) (ctx : appendfs_context)
    (r : log_record) :
  apply_if_valid (set_meta_fd f ctx) r = set_meta_fd f (apply_if_valid ctx r).
Proof.
  unfold apply_if_valid. destruct (checksum_ok r); [|reflexivity].
  apply apply_record_set_meta_fd.
Qed.

Lemma fold_apply_set_meta_fd (f : file) (rs : list log_record) :
  forall ctx,
    fold_left apply_if_valid rs (set_meta_fd f ctx)
    = set_meta_fd f (fold_left apply_if_valid rs ctx).
Proof.
  induction rs as [|r rs IH]; intros ctx; [reflexivity|].
  cbn [fold_left]. rewrite apply_if_valid_set_meta_fd. apply IH.
Qed.

Lemma meta_fd_set_meta_fd (f : file) (ctx : appendfs_context) :
  meta_fd (set_meta_fd f ctx) = f.
Proof. reflexivity. Qed.

Lemma meta_fd_apply_if_valid (ctx : appendfs_context) (r : log_record) :
  meta_fd (apply_if_valid ctx r) = meta_fd ctx.
Proof.
  rewrite <- (meta_fd_set_meta_fd (meta_fd ctx) (apply_if_valid ctx r)).
  rewrite <- apply_if_valid_set_meta_fd.
  destruct ctx; reflexivity.
Qed.

(** One turn of the loop on a log whose next bytes are a framed record. *)
Lemma replay_loop_step (k : nat) (ctx : appendfs_context)
    (pre rest : list byte) (r : log_record) :
  well_framed r ->
  f_data (meta_fd ctx) = pre ++ frame r ++ rest ->
  f_pos (meta_fd ctx) = zlen pre ->
  replay_loop (S k) ctx
  = replay_loop k
      (apply_if_valid
         (set_meta_fd (mkFile (f_data (meta_fd ctx)) (zlen (pre ++ frame r))
                              (f_room (meta_fd ctx))) ctx) r).
Proof.
  intros [Hlen [Hc0 Hc1]] Hdata Hpos.
  pose proof (zlen_nonneg (rec_payload r)) as Hnn.
  set (hdr := rec_type r :: le_encode 4 (zlen (rec_payload r))
                ++ le_encode 4 (rec_checksum r)).
  assert (Hh : zlen hdr = 9).
  { unfold zlen, hdr. rewrite length_header, !length_le_encode.
    reflexivity. }
  assert (Hframe : frame r = hdr ++ rec_payload r).
  { unfold frame, hdr. cbn [app]. rewrite <- app_assoc. reflexivity. }
  cbn [replay_loop]. unfold sys_read, RECORD_HEADER_SIZE.
  rewrite Hpos, Hdata, Hframe.
  replace (pre ++ (hdr ++ rec_payload r) ++ rest)
    with (pre ++ hdr ++ (rec_payload r ++ rest))
    by (rewrite <- !app_assoc; reflexivity).
  assert (Hs : slice (pre ++ hdr ++ rec_payload r ++ rest) (zlen pre) 9
               = hdr) by (rewrite <- Hh; apply slice_app_mid).
  rewrite Hs, Hh.
  cbn [Z.ltb Z.compare Pos.compare Pos.compare_cont].
  assert (Hty : nth 0 hdr x00 = rec_type r) by reflexivity.
  assert (Hl : field hdr 1 4 = zlen (rec_payload r)).
  { unfold field, hdr.
    change (rec_type r :: ?l) with ([rec_type r] ++ l).
    change 1 with (zlen [rec_type r]).
    replace 4 with (zlen (le_encode 4 (zlen (rec_payload r))))
      by (unfold zlen; rewrite length_le_encode; reflexivity).
    rewrite slice_app_mid. apply le_decode_encode_4. lia. }
  assert (Hck : field hdr 5 4 = rec_checksum r).
  { unfold field, hdr.
    change (rec_type r :: ?a ++ ?b) with ((rec_type r :: a) ++ b ++ []).
    replace 5 with (zlen (rec_type r :: le_encode 4 (zlen (rec_payload r))))
      by (unfold zlen; cbn [List.length]; rewrite length_le_encode;
          reflexivity).
    replace 4 with (zlen (le_encode 4 (rec_checksum r))) at 2
      by (unfold zlen; rewrite length_le_encode; reflexivity).
    rewrite slice_app_mid. apply le_decode_encode_4. lia. }
  rewrite Hty, Hl, Hck.
  unfold read_all, sys_read. cbn [f_data f_pos f_room].
  replace (pre ++ hdr ++ rec_payload r ++ rest)
    with ((pre ++ hdr) ++ rec_payload r ++ rest)
    by (rewrite <- !app_assoc; reflexivity).
  replace (zlen pre + 9) with (zlen (pre ++ hdr))
    by (rewrite zlen_app; lia).
  rewrite slice_app_mid. rewrite Z.ltb_irrefl.
  unfold apply_if_valid, checksum_ok.
  replace (zlen (pre ++ hdr) + zlen (rec_payload r))
    with (zlen (pre ++ hdr ++ rec_payload r))
    by (rewrite !zlen_app; lia).
  replace ((pre ++ hdr) ++ rec_payload r ++ rest)
    with (pre ++ (hdr ++ rec_payload r) ++ rest)
    by (rewrite <- !app_assoc; reflexivity).
  destruct (appendfs_crc32 (rec_payload r) =? rec_checksum r); reflexivity.
Qed.

Lemma frame_nonempty (r : log_record) : (0 < List.length (frame r))%nat.
Proof. unfold frame. cbn. lia. Qed.

Lemma length_encode_log (rs : list log_record) :
  (List.length rs <= List.length (encode_log rs))%nat.
Proof.
  induction rs as [|r rs IH]; [cbn; lia|].
  unfold encode_log in *. cbn [map concat List.length].
  rewrite length_app. pose proof (frame_nonempty r). lia.
Qed.

Lemma replay_loop_frames (rs : list log_record) :
  forall (fuel : nat) (ctx : appendfs_context) (pre : list byte),
    Forall well_framed rs ->
    f_data (meta_fd ctx) = pre ++ encode_log rs ->
    f_pos (meta_fd ctx) = zlen pre ->
    (List.length rs < fuel)%nat ->
    replay_loop fuel ctx
    = set_meta_fd (lseek_end (meta_fd ctx)) (fold_left apply_if_valid rs ctx).
Proof.
  induction rs as [|r rs IH]; intros fuel ctx pre Hwf Hdata Hpos Hfuel.
  - destruct fuel as [|k]; [cbn in Hfuel; lia|].
    cbn [replay_loop fold_left]. unfold sys_read, RECORD_HEADER_SIZE.
    unfold encode_log in Hdata. cbn in Hdata. rewrite app_nil_r in Hdata.
    rewrite Hpos, Hdata.
    replace (slice pre (zlen pre) 9) with (@nil byte).
    + cbn. unfold lseek_end, file_size. rewrite ?Hdata, Z.add_0_r.
      reflexivity.
    + unfold slice, zlen. rewrite Nat2Z.id, drop_all. reflexivity.
  - destruct fuel as [|k]; [cbn in Hfuel; lia|].
    apply Forall_cons_1 in Hwf as [Hr Hrs].
    unfold encode_log in Hdata. cbn [map concat] in Hdata.
    fold (encode_log rs) in Hdata.
    rewrite (replay_loop_step k ctx pre (encode_log rs) r Hr Hdata Hpos).
    rewrite (IH k _ (pre ++ frame r)).
    + rewrite meta_fd_apply_if_valid, meta_fd_set_meta_fd.
      cbn [fold_left]. rewrite apply_if_valid_set_meta_fd.
      rewrite fold_apply_set_meta_fd, set_meta_fd_twice.
      reflexivity.
    + exact Hrs.
    + rewrite meta_fd_apply_if_valid, meta_fd_set_meta_fd. cbn [f_data].
      rewrite Hdata, <- app_assoc. reflexivity.
    + rewrite meta_fd_apply_if_valid, meta_fd_set_meta_fd. reflexivity.
    + cbn [List.length] in Hfuel. lia.
Qed.

Lemma replay_metadata_frames (rs : list log_record)
    (ctx : appendfs_context) :
  Forall well_framed rs ->
  f_data (meta_fd ctx) = encode_log rs ->
  replay_metadata ctx
  = set_meta_fd (lseek_end (meta_fd ctx)) (fold_left apply_if_valid rs ctx).
Proof.
  intros Hwf Hdata. unfold replay_metadata.
  rewrite (replay_loop_frames rs _ _ []).
  - rewrite fold_apply_set_meta_fd, set_meta_fd_twice, meta_fd_set_meta_fd.
    reflexivity.
  - exact Hwf.
  - exact Hdata.
  - reflexivity.
  - pose proof (length_encode_log rs). rewrite Hdata. lia.
Qed.

Lemma fold_apply_if_valid_filter (rs : list log_record) :
  forall ctx,
    fold_left apply_if_valid rs ctx = apply_all ctx (List.filter checksum_ok rs).
Proof.
  unfold apply_all.
  induction rs as [|r rs IH]; intros ctx; [reflexivity|].
  cbn [fold_left List.filter]. unfold apply_if_valid at 2.
  destruct (checksum_ok r); cbn [fold_left]; apply IH.
Qed.

(** C5.  The log is a sequence of framed records in which the record
    [bad] carries a checksum that differs from the CRC32 of its payload.
    Replay ends with the state obtained by applying, in log order, every
    record before [bad] and every record after [bad] whose checksum is
    right: [bad] alone is dropped and the loop goes on. *)
Theorem replay_skips_a_record_with_a_wrong_checksum :
  forall (ctx : appendfs_context) (before after : list log_record)
         (bad : log_record),
    Forall well_framed (before ++ bad :: after) ->
    f_data (meta_fd ctx) = encode_log (before ++ bad :: after) ->
    checksum_ok bad = false ->
    replay_metadata ctx
    = set_meta_fd (lseek_end (meta_fd ctx))
        (apply_all ctx
           (List.filter checksum_ok before ++ List.filter checksum_ok after)).
Proof.
  intros ctx before after bad Hwf Hdata Hbad.
  rewrite (replay_metadata_frames _ ctx Hwf Hdata).
  rewrite fold_apply_if_valid_filter.
  rewrite List.filter_app. cbn [List.filter]. rewrite Hbad.
  reflexivity.
Qed.

Lemma replay_skips_a_record_with_a_wrong_checksum_witness :
  let before := [sample_mkdir 1 "/a"] in
  let bad := sample_damaged 2 "/a/f" in
  let after := [sample_mkdir 3 "/b"] in
  let ctx := unopened (encode_log (before ++ bad :: after)) 4096 in
  replay_metadata ctx
  = set_meta_fd (lseek_end (meta_fd ctx))
      (apply_all ctx
         (List.filter checksum_ok before ++ List.filter checksum_ok after)).
Proof.
  apply (replay_skips_a_record_with_a_wrong_checksum
           (unopened (encode_log ([sample_mkdir 1 "/a"]
                                  ++ sample_damaged 2 "/a/f"
                                  :: [sample_mkdir 3 "/b"])) 4096)
           [sample_mkdir 1 "/a"] [sample_mkdir 3 "/b"]
           (sample_damaged 2 "/a/f")).
  - repeat constructor; vm_compute; congruence.
  - vm_compute. reflexivity.
  - vm_compute. reflexivity.
Defined.

(** ** A successful append, read backwards *)

Lemma write_all_short (f : file) (buf : list byte) :
  f_room f < zlen buf -> 0 < zlen buf ->
  exists f', write_all f buf = (Err ENOSPC, f').
Proof.
  intros Hroom Hlen.
  destruct (Z.le_gt_cases (f_room f) 0) as [Hz|Hpos].
  - exists f. apply write_all_data_fd_free; assumption.
  - destruct buf as [|b [|b' r]].
    + unfold zlen in Hlen. cbn in Hlen. lia.
    + unfold zlen in Hroom. cbn in Hroom. lia.
    + unfold write_all. cbn [List.length write_all_loop].
      replace (0 <? zlen (b :: b' :: r)) with true
        by (symmetry; apply Z.ltb_lt; lia).
      change (skipn (Z.to_nat 0) (b :: b' :: r)) with (b :: b' :: r).
      unfold sys_write at 1.
      replace (f_room f <=? 0) with false by (symmetry; apply Z.leb_gt; lia).
      rewrite Z.min_r by lia.
      replace (f_room f =? 0) with false by (symmetry; apply Z.eqb_neq; lia).
      rewrite Z.add_0_l.
      replace (f_room f <? zlen (b :: b' :: r)) with true
        by (symmetry; apply Z.ltb_lt; lia).
      unfold sys_write. cbn [f_room]. rewrite Z.sub_diag. cbn [Z.leb Z.compare].
      eexists. reflexivity.
Qed.

Lemma write_all_Ok_inv (f f' : file) (buf : list byte) :
  write_all f buf = (Ok tt, f') ->
  f_pos f = file_size f ->
  f' = mkFile (f_data f ++ buf) (f_pos f + zlen buf) (f_room f - zlen buf).
Proof.
  intros H Hpos.
  destruct (Z.le_gt_cases (zlen buf) (f_room f)) as [Hle|Hgt].
  - rewrite write_all_ok in H by assumption. congruence.
  - destruct buf as [|b r].
    + cbn in H. injection H as <-. destruct f; cbn.
      rewrite app_nil_r, Z.add_0_r, Z.sub_0_r. reflexivity.
    + destruct (write_all_short f (b :: r)) as [f'' Hf]; [lia| |congruence].
      unfold zlen. cbn. lia.
Qed.

Lemma zlen_record_body (payload : list byte) :
  zlen (firstn (Z.to_nat (u32 (zlen payload))) payload) = u32 (zlen payload).
Proof.
  pose proof (zlen_nonneg payload) as Hnn.
  assert (Hb : 0 <= u32 (zlen payload) <= zlen payload).
  { unfold u32. split; [apply Z.mod_pos_bound; lia|].
    apply Z.mod_le; lia. }
  unfold zlen in *. rewrite length_take. lia.
Qed.

Lemma write_record_Ok_inv (ctx ctx' : appendfs_context) (type : Z)
    (payload : list byte) :
  write_record ctx type payload = (Ok tt, ctx') ->
  f_pos (meta_fd ctx) = file_size (meta_fd ctx) ->
  ctx' = set_meta_fd (meta_fd ctx') ctx
  /\ f_data (meta_fd ctx')
     = f_data (meta_fd ctx) ++ frame (record_of type payload)
  /\ f_pos (meta_fd ctx') = file_size (meta_fd ctx').
Proof.
  intros H Hpos. split; [apply (write_record_frame _ _ _ _ _ H)|].
  unfold write_record in H.
  set (body := firstn (Z.to_nat (u32 (zlen payload))) payload) in *.
  set (hdr := byte_of_Z type :: le_encode 4 (u32 (zlen payload))
                ++ le_encode 4 (appendfs_crc32 body)) in *.
  destruct (write_all (meta_fd ctx) hdr) as [[[]|e] f1] eqn:E1;
    [|discriminate H].
  destruct (write_all f1 body) as [r2 f2] eqn:E2.
  injection H as -> <-.
  apply write_all_Ok_inv in E1; [|exact Hpos]. subst f1.
  apply write_all_Ok_inv in E2.
  - subst f2. cbn [meta_fd set_meta_fd f_data f_pos]. split.
    + unfold frame, record_of. fold body. cbn [rec_type rec_payload rec_checksum].
      unfold body at 2. rewrite zlen_record_body. fold body.
      unfold hdr. cbn [app]. rewrite <- !app_assoc. reflexivity.
    + unfold file_size in *. cbn [f_data]. rewrite !zlen_app. lia.
  - unfold file_size in *. cbn [f_pos f_data]. rewrite zlen_app. lia.
Qed.

(** ** Replay does not change the log *)

Lemma meta_fd_apply_record (ctx : appendfs_context) (type : Z)
    (payload : list byte) :
  meta_fd (apply_record ctx type payload) = meta_fd ctx.
Proof.
  rewrite <- (meta_fd_set_meta_fd (meta_fd ctx) (apply_record ctx type payload)).
  rewrite <- apply_record_set_meta_fd. destruct ctx; reflexivity.
Qed.

Lemma replay_loop_keeps_log (fuel : nat) :
  forall ctx,
    f_data (meta_fd (replay_loop fuel ctx)) = f_data (meta_fd ctx)
    /\ f_room (meta_fd (replay_loop fuel ctx)) = f_room (meta_fd ctx).
Proof.
  induction fuel as [|k IH]; intros ctx; [split; reflexivity|].
  cbn [replay_loop]. unfold sys_read, read_all, sys_read.
  cbn [f_data f_pos f_room].
  repeat case_match; simplify_eq/=; try (split; reflexivity).
  all: match goal with
       | |- context [replay_loop _ ?c] => destruct (IH c) as [Hd Hr]
       end;
       rewrite Hd, Hr, ?meta_fd_apply_record; split; reflexivity.
Qed.

(** C4, as the code has it.  Replay leaves the bytes of the metadata log
    as they were and puts the descriptor at the raw end of the file, so the
    next record that is appended (here one that the device has room for)
    lands after everything the log held, damaged and torn bytes included. *)
Theorem replay_keeps_the_log_and_appends_at_its_raw_end :
  forall (ctx : appendfs_context) (type : Z) (payload : list byte),
    RECORD_HEADER_SIZE + zlen payload <= f_room (meta_fd ctx) ->
    f_data (meta_fd (replay_metadata ctx)) = f_data (meta_fd ctx)
    /\ f_pos (meta_fd (replay_metadata ctx)) = file_size (meta_fd ctx)
    /\ exists ctx',
         write_record (replay_metadata ctx) type payload = (Ok tt, ctx')
         /\ f_data (meta_fd ctx')
            = f_data (meta_fd ctx) ++ frame (record_of type payload).
Proof.
  intros ctx type payload Hroom.
  destruct (replay_loop_keeps_log
              (S (List.length (f_data (meta_fd ctx))))
              (set_meta_fd (lseek_set (meta_fd ctx) 0) ctx)) as [Hd Hr].
  cbn [meta_fd set_meta_fd lseek_set f_data f_room] in Hd, Hr.
  assert (Hdata : f_data (meta_fd (replay_metadata ctx)) = f_data (meta_fd ctx)).
  { unfold replay_metadata. cbn [meta_fd set_meta_fd lseek_end f_data].
    exact Hd. }
  assert (Hpos : f_pos (meta_fd (replay_metadata ctx)) = file_size (meta_fd ctx)).
  { unfold replay_metadata. cbn [meta_fd set_meta_fd lseek_end f_pos].
    unfold file_size. rewrite Hd. reflexivity. }
  assert (Hrm : f_room (meta_fd (replay_metadata ctx)) = f_room (meta_fd ctx)).
  { unfold replay_metadata. cbn [meta_fd set_meta_fd lseek_end f_room].
    exact Hr. }
  split; [exact Hdata|]. split; [exact Hpos|].
  destruct (write_record_succeeds (replay_metadata ctx) type payload)
    as (ctx' & E & _); [rewrite Hrm; exact Hroom|].
  exists ctx'. split; [exact E|].
  apply write_record_Ok_inv in E.
  - destruct E as (_ & E & _). rewrite E, Hdata. reflexivity.
  - rewrite Hpos. unfold file_size. rewrite Hdata. reflexivity.
Qed.

Lemma replay_keeps_the_log_and_appends_at_its_raw_end_witness :
  let torn := encode_log [sample_mkdir 1 "/a"] ++ [x01; x02; x03; x04; x05] in
  let ctx := unopened torn 4096 in
  let payload := unlink_payload (mkInode 1 "/a" 0 0 0 0 0 false [] None []) in
  f_data (meta_fd (replay_metadata ctx)) = torn
  /\ f_pos (meta_fd (replay_metadata ctx)) = zlen torn
  /\ exists ctx',
       write_record (replay_metadata ctx) APPENDFS_RECORD_UNLINK payload
       = (Ok tt, ctx')
       /\ f_data (meta_fd ctx')
          = torn ++ frame (record_of APPENDFS_RECORD_UNLINK payload).
Proof.
  apply (replay_keeps_the_log_and_appends_at_its_raw_end
           (unopened (encode_log [sample_mkdir 1 "/a"]
                      ++ [x01; x02; x03; x04; x05]) 4096)
           APPENDFS_RECORD_UNLINK
           (unlink_payload (mkInode 1 "/a" 0 0 0 0 0 false [] None []))).
  vm_compute. congruence.
Defined.

(** C4, the claim refuted.  The log holds one whole MKDIR record (43
    bytes) followed by five bytes of a torn record.  After [appendfs_open]
    the log still has its 48 bytes and the descriptor is at 48, not at the
    last record boundary 43; the record appended by a following [mkdirs]
    starts at byte 48, behind the torn bytes. *)
Lemma replay_does_not_truncate_a_torn_log :
  let whole := encode_log [sample_mkdir 1 "/a"] in
  let torn := whole ++ [x01; x02; x03; x04; x05] in
  let ctx := appendfs_open (mkFile [] 0 4096) (mkFile torn 0 4096) in
  let after := snd (appendfs_mkdirs ctx "/b" 493 2) in
  zlen whole = 43
  /\ file_size (meta_fd ctx) = 48
  /\ f_pos (meta_fd ctx) = 48
  /\ file_size (meta_fd after) = 91
  /\ firstn 48 (f_data (meta_fd after)) = torn
  /\ skipn 48 (f_data (meta_fd after))
     = frame (framed x06
                (create_payload
                   (mkInode 2 "/b" (Z.lor S_IFDIR 493) 0 2 2 2 false []
                            None []))).
Proof. vm_compute. repeat split; reflexivity. Qed.

(** ** mkdirs and mkdir *)

Lemma normalize_path_copy_slash (p : string) :
  char_at (normalize_path_copy p) 0 = slash.
Proof.
  unfold normalize_path_copy.
  destruct (Ascii.eqb (char_at p 0) slash) eqn:E.
  - apply Ascii.eqb_eq. exact E.
  - reflexivity.
Qed.

Lemma normalize_path_copy_idem (p : string) :
  normalize_path_copy (normalize_path_copy p) = normalize_path_copy p.
Proof.
  unfold normalize_path_copy at 1.
  rewrite normalize_path_copy_slash, Ascii.eqb_refl. reflexivity.
Qed.

Lemma find_inode_by_path_normalized (ctx : appendfs_context) (p : string) :
  find_inode_by_path ctx (normalize_path_copy p) = find_inode_by_path ctx p.
Proof.
  unfold find_inode_by_path, normalize_path_view.
  rewrite normalize_path_copy_idem. reflexivity.
Qed.

Lemma split_path_ok_first_char (p parent : string) :
  split_path (normalize_path_copy p) = Ok parent ->
  Ascii.eqb (char_at p 0) Ascii.zero = false /\ String.eqb p "/" = false.
Proof.
  unfold split_path, normalize_path_copy. intros H.
  destruct p as [|c r].
  - cbn in H. discriminate H.
  - cbn [char_at String.get] in *.
    destruct (Ascii.eqb c slash) eqn:Ec.
    + apply Ascii.eqb_eq in Ec. subst c. split; [reflexivity|].
      destruct r as [|c' r']; [cbn in H; discriminate H|reflexivity].
    + cbn [char_at String.get negb orb] in H.
      rewrite Ascii.eqb_refl in H. cbn [negb orb] in H.
      split.
      * destruct (Ascii.eqb c Ascii.zero); [discriminate H|reflexivity].
      * cbn [String.eqb]. unfold slash in Ec. rewrite Ec. reflexivity.
Qed.

(** C9.  When no live inode is found at the path and the device has room
    for the record, [mkdirs] adds the directory row and returns success;
    nothing about the parent is asked.  On the same store [mkdir] fails with ENOENT
    as soon as the parent of the path is not [/] and is not the path of a
    live directory. *)
Theorem mkdirs_skips_the_parent_check_of_mkdir :
  forall (ctx : appendfs_context) (p : string) (m now : Z),
    find_inode_by_path ctx p = None ->
    RECORD_HEADER_SIZE + zlen (create_payload (mkdirs_row ctx p m now))
      <= f_room (meta_fd ctx) ->
    (exists ctx',
        appendfs_mkdirs ctx p m now = (Ok tt, ctx')
        /\ inodes ctx' = inodes ctx ++ [mkdirs_row ctx p m now])
    /\ (forall parent,
          split_path (normalize_path_copy p) = Ok parent ->
          parent <> "/"%string ->
          parent_is_live_dir ctx parent = false ->
          appendfs_mkdir ctx p m now = (Err ENOENT, ctx)).
Proof.
  intros ctx p m now Hnone Hroom. split.
  - unfold appendfs_mkdirs. rewrite Hnone. unfold create_inode.
    fold (mkdirs_row ctx p m now).
    unfold inode_at. cbn [inodes set_next_inode_id set_inodes].
    rewrite nth_middle. unfold append_create_record.
    match goal with
    | |- context [write_record ?c ?t ?pl] =>
        destruct (write_record_succeeds c t pl) as (ctx' & E & Hc);
          [exact Hroom|]
    end.
    rewrite E. exists ctx'. split; [reflexivity|].
    rewrite Hc. reflexivity.
  - intros parent Hsplit Hroot Hdir.
    destruct (split_path_ok_first_char p parent Hsplit) as [Hz Hs].
    unfold appendfs_mkdir. rewrite Hz, Hs.
    rewrite find_inode_by_path_normalized, Hnone, Hsplit, Hdir.
    destruct (String.eqb_spec parent "/") as [->|_]; [congruence|].
    reflexivity.
Qed.

Lemma mkdirs_skips_the_parent_check_of_mkdir_witness :
  let ctx := fresh_store 4096 in
  (exists ctx',
      appendfs_mkdirs ctx "/x/a" 493 5 = (Ok tt, ctx')
      /\ inodes ctx' = inodes ctx ++ [mkdirs_row ctx "/x/a" 493 5])
  /\ appendfs_mkdir ctx "/x/a" 493 5 = (Err ENOENT, ctx).
Proof.
  destruct (mkdirs_skips_the_parent_check_of_mkdir
              (fresh_store 4096) "/x/a" 493 5) as [Hmkdirs Hmkdir].
  - vm_compute. reflexivity.
  - vm_compute. congruence.
  - split; [exact Hmkdirs|].
    apply (Hmkdir "/x"%string).
    + vm_compute. reflexivity.
    + discriminate.
    + vm_compute. reflexivity.
Defined.

(** ** Searching a list *)

Lemma find_index_Some {A} (p : A -> bool) (l : list A) :
  forall i,
    find_index p l = Some i ->
    exists x, l !! i = Some x /\ p x = true
              /\ forall j y, (j < i)%nat -> l !! j = Some y -> p y = false.
Proof.
  induction l as [|a l IH]; intros i H; [discriminate H|].
  cbn [find_index] in H. destruct (p a) eqn:Ea.
  - injection H as <-. exists a. repeat split; [exact Ea|]. intros; lia.
  - destruct (find_index p l) as [k|] eqn:Ek; [|discriminate H].
    injection H as <-. destruct (IH k eq_refl) as (x & Hx & Hp & Hb).
    exists x. repeat split; [exact Hx|exact Hp|].
    intros [|j] y Hj Hy; cbn in Hy.
    + congruence.
    + apply (Hb j); [lia|exact Hy].
Qed.

Lemma find_index_None {A} (p : A -> bool) (l : list A) :
  find_index p l = None -> forall x, In x l -> p x = false.
Proof.
  induction l as [|a l IH]; intros H x Hin; [destruct Hin|].
  cbn [find_index] in H. destruct (p a) eqn:Ea; [discriminate H|].
  destruct (find_index p l) eqn:Ek; [discriminate H|].
  destruct Hin as [->|Hin]; [exact Ea|apply IH; [reflexivity|exact Hin]].
Qed.

Lemma find_index_None_intro {A} (p : A -> bool) (l : list A) :
  (forall x, In x l -> p x = false) -> find_index p l = None.
Proof.
  induction l as [|a l IH]; intros H; [reflexivity|].
  cbn [find_index]. rewrite (H a (or_introl eq_refl)).
  rewrite IH; [reflexivity|]. intros x Hx. apply H. right. exact Hx.
Qed.

Lemma find_index_app_last {A} (p : A -> bool) (l : list A) (x : A) :
  find_index p l = None -> p x = true ->
  find_index p (l ++ [x]) = Some (List.length l).
Proof.
  induction l as [|a l IH]; intros H Hx; cbn [find_index app List.length].
  - rewrite Hx. reflexivity.
  - cbn [find_index] in H. destruct (p a); [discriminate H|].
    destruct (find_index p l); [discriminate H|].
    rewrite IH by (reflexivity || exact Hx). reflexivity.
Qed.

Lemma find_index_lt {A} (p : A -> bool) (l : list A) (i : nat) :
  find_index p l = Some i -> (i < List.length l)%nat.
Proof.
  intros H. destruct (find_index_Some p l i H) as (x & Hx & _).
  apply lookup_lt_Some in Hx. exact Hx.
Qed.

Lemma find_index_ext_alter {A} (p : A -> bool) (f : A -> A) (k : nat)
    (l : list A) :
  (forall x, p (f x) = p x) ->
  find_index p (alter f k l) = find_index p l.
Proof.
  intros Hf. revert k; induction l as [|a l IH]; intros k; [reflexivity|].
  destruct k as [|k]; cbn [alter list_alter find_index].
  - rewrite Hf. reflexivity.
  - fold (alter f k l). rewrite IH. reflexivity.
Qed.

Lemma lookup_nth_inode (ctx : appendfs_context) (idx : nat) :
  (idx < List.length (inodes ctx))%nat ->
  inodes ctx !! idx = Some (inode_at ctx idx).
Proof.
  intros H. unfold inode_at.
  destruct (inodes ctx !! idx) as [x|] eqn:E.
  - f_equal. symmetry. apply nth_lookup_Some with (d := zero_inode) in E.
    exact E.
  - apply lookup_ge_None in E. lia.
Qed.

Lemma find_inode_by_path_lt (ctx : appendfs_context) (p : string)
    (idx : nat) :
  find_inode_by_path ctx p = Some idx -> (idx < List.length (inodes ctx))%nat.
Proof. apply find_index_lt. Qed.

(** ** Extended attributes: undoing a change *)

Lemma alter_fixed {A} (f : A -> A) (k : nat) (l : list A) :
  (forall x, l !! k = Some x -> f x = x) -> alter f k l = l.
Proof.
  intros H. apply list_eq. intros j.
  destruct (decide (k = j)) as [->|Hne].
  - rewrite list_lookup_alter_eq. destruct (l !! j) as [x|] eqn:E;
      [cbn; rewrite (H x eq_refl)|]; reflexivity.
  - apply list_lookup_alter_ne. exact Hne.
Qed.

Lemma xattr_value_assoc (inode : appendfs_inode) (name : string) :
  xattr_value inode name = xattr_assoc name (xattrs inode).
Proof.
  unfold xattr_value, find_xattr.
  induction (xattrs inode) as [|x r IH]; [reflexivity|].
  cbn [find_index xattr_assoc].
  destruct (String.eqb (xa_name x) name); [reflexivity|].
  rewrite <- IH. destruct (find_index _ r); reflexivity.
Qed.

Lemma xattr_assoc_app_miss (name : string) (xs : list appendfs_xattr)
    (x : appendfs_xattr) :
  String.eqb (xa_name x) name = false ->
  xattr_assoc name (xs ++ [x]) = xattr_assoc name xs.
Proof.
  intros Hx. induction xs as [|y r IH]; cbn [app xattr_assoc].
  - rewrite Hx. reflexivity.
  - rewrite IH. reflexivity.
Qed.

Lemma xattr_assoc_app_absent (name : string) (xs : list appendfs_xattr)
    (x : appendfs_xattr) :
  ~ In name (map xa_name xs) -> xa_name x = name ->
  xattr_assoc name (xs ++ [x]) = Some (xa_value x).
Proof.
  intros Ha Hx. induction xs as [|y r IH]; cbn [app xattr_assoc].
  - rewrite Hx, String.eqb_refl. reflexivity.
  - cbn [map In] in Ha.
    destruct (String.eqb_spec (xa_name y) name) as [E|_]; [tauto|].
    apply IH. tauto.
Qed.

(** Taking the entry found under a name out of the array and adding it
    again at the end keeps every lookup, names being distinct. *)
Lemma xattr_assoc_move_to_end (name : string) (xs : list appendfs_xattr) :
  forall k x,
    NoDup (map xa_name xs) ->
    find_index (fun y => String.eqb (xa_name y) name) xs = Some k ->
    xs !! k = Some x ->
    (forall n, xattr_assoc n (delete k xs ++ [x]) = xattr_assoc n xs)
    /\ find_index (fun y => String.eqb (xa_name y) name) (delete k xs) = None.
Proof.
  unfold delete.
  induction xs as [|y r IH]; intros k x Hnd Hfind Hk; [discriminate Hfind|].
  cbn [map] in Hnd. apply NoDup_cons in Hnd as [Hy Hr].
  cbn [find_index] in Hfind.
  destruct (String.eqb (xa_name y) name) eqn:Ey.
  - injection Hfind as <-. cbn in Hk. injection Hk as <-.
    apply String.eqb_eq in Ey. cbn [list_delete]. split.
    + intros n. cbn [xattr_assoc].
      destruct (String.eqb_spec (xa_name y) n) as [E|E].
      * apply xattr_assoc_app_absent; [|exact E].
        rewrite <- E. rewrite <- list_elem_of_In. exact Hy.
      * apply xattr_assoc_app_miss. apply String.eqb_neq. exact E.
    + apply find_index_None_intro. intros z Hz.
      apply String.eqb_neq. intros E. apply Hy.
      rewrite list_elem_of_In. rewrite Ey, <- E. apply in_map. exact Hz.
  - destruct (find_index _ r) as [k'|] eqn:Ek; [|discriminate Hfind].
    injection Hfind as <-. cbn in Hk.
    destruct (IH k' x Hr eq_refl Hk) as [Hassoc Hnone].
    cbn [list_delete]. split.
    + intros n. cbn [app xattr_assoc]. unfold delete. rewrite Hassoc.
      reflexivity.
    + cbn [find_index]. rewrite Ey. unfold delete. rewrite Hnone.
      reflexivity.
Qed.

Lemma delete_last {A} (l : list A) (x : A) :
  delete (List.length l) (l ++ [x]) = l.
Proof. rewrite delete_middle. apply app_nil_r. Qed.

Lemma set_xattr_internal_undone (inode inode1 : appendfs_inode)
    (name : string) (value : list byte) (flags : Z) :
  set_xattr_internal inode name value flags = (Ok tt, inode1) ->
  match find_xattr inode name with
  | Some k =>
      snd (set_xattr_internal inode1 name
             (xa_value (nth k (xattrs inode) (mkXattr name [])))
             XATTR_REPLACE)
  | None => snd (remove_xattr_internal inode1 name)
  end = inode.
Proof.
  unfold set_xattr_internal at 1. intros H.
  destruct (find_xattr inode name) as [k|] eqn:Ef; cbn [is_some negb] in H.
  - assert (inode1
            = set_xattrs (alter (fun x => mkXattr (xa_name x) value) k
                                (xattrs inode)) inode) as ->.
    { destruct (flag_set flags XATTR_CREATE); cbn in H; [discriminate H|].
      destruct (flag_set flags XATTR_REPLACE); cbn in H; congruence. }
    unfold set_xattr_internal, find_xattr in *. cbn [xattrs set_xattrs].
    rewrite find_index_ext_alter by reflexivity. rewrite Ef.
    change (flag_set XATTR_REPLACE XATTR_CREATE) with false.
    change (flag_set XATTR_REPLACE XATTR_REPLACE) with true.
    cbn [andb is_some negb snd set_xattrs xattrs].
    rewrite list_alter_alter_eq.
    destruct (find_index_Some _ _ _ Ef) as (x & Hx & _).
    rewrite (nth_lookup_Some _ _ _ _ Hx).
    rewrite alter_fixed; [destruct inode; reflexivity|].
    intros x' Hx'. rewrite Hx in Hx'. injection Hx' as <-.
    destruct x; reflexivity.
  - assert (inode1
            = set_xattrs (xattrs inode ++ [mkXattr name value]) inode) as ->.
    { destruct (flag_set flags XATTR_CREATE); cbn in H;
        destruct (flag_set flags XATTR_REPLACE); cbn in H; congruence. }
    unfold remove_xattr_internal, find_xattr in *. cbn [xattrs set_xattrs].
    rewrite (find_index_app_last _ _ _ Ef) by (cbn; apply String.eqb_refl).
    cbn [snd set_xattrs xattrs]. rewrite delete_last.
    destruct inode; reflexivity.
Qed.

Lemma remove_xattr_internal_undone (inode inode1 : appendfs_inode)
    (name : string) (k : nat) :
  NoDup (map xa_name (xattrs inode)) ->
  find_xattr inode name = Some k ->
  remove_xattr_internal inode name = (Ok tt, inode1) ->
  let restored :=
    snd (set_xattr_internal inode1 name
           (xa_value (nth k (xattrs inode) (mkXattr name []))) XATTR_CREATE) in
  (forall n, xattr_value restored n = xattr_value inode n)
  /\ set_xattrs [] restored = set_xattrs [] inode.
Proof.
  intros Hnd Hfind Hrem. unfold remove_xattr_internal in Hrem.
  rewrite Hfind in Hrem. injection Hrem as <-.
  unfold find_xattr in Hfind.
  destruct (find_index_Some _ _ _ Hfind) as (x & Hx & Hname & _).
  apply String.eqb_eq in Hname.
  destruct (xattr_assoc_move_to_end name (xattrs inode) k x Hnd Hfind Hx)
    as [Hassoc Hnone].
  rewrite (nth_lookup_Some _ _ _ _ Hx).
  unfold set_xattr_internal, find_xattr. cbn [xattrs set_xattrs].
  rewrite Hnone.
  change (flag_set XATTR_CREATE XATTR_CREATE) with true.
  change (flag_set XATTR_CREATE XATTR_REPLACE) with false.
  cbn [andb is_some negb snd]. split.
  - intros n. rewrite !xattr_value_assoc. cbn [xattrs set_xattrs].
    rewrite <- Hname. replace (mkXattr (xa_name x) (xa_value x)) with x
      by (destruct x; reflexivity).
    apply Hassoc.
  - destruct inode; reflexivity.
Qed.

Lemma inode_at_alter_const (ctx c : appendfs_context) (idx i : nat)
    (r : appendfs_inode) :
  (idx < List.length (inodes ctx))%nat ->
  inodes c = alter (fun _ => r) idx (inodes ctx) ->
  inode_at c i = if decide (i = idx) then r else inode_at ctx i.
Proof.
  intros Hlt Hc. unfold inode_at. rewrite Hc, !nth_lookup.
  destruct (decide (i = idx)) as [->|Hne].
  - rewrite list_lookup_alter_eq.
    destruct (lookup_lt_is_Some_2 (inodes ctx) idx Hlt) as [x ->].
    reflexivity.
  - rewrite list_lookup_alter_ne by congruence. reflexivity.
Qed.

(** The names of a row stay distinct under the two internal mutators, so
    every row built by the public calls and by replay has distinct names. *)
Lemma names_alter_value (v : list byte) (k : nat) (xs : list appendfs_xattr) :
  map xa_name (alter (fun x => mkXattr (xa_name x) v) k xs) = map xa_name xs.
Proof.
  revert k; induction xs as [|x xs IH]; intros k; [reflexivity|].
  destruct k as [|k]; cbn [alter list_alter map]; [reflexivity|].
  fold (alter (fun x => mkXattr (xa_name x) v) k xs). rewrite IH.
  reflexivity.
Qed.

Lemma set_xattr_internal_NoDup (inode : appendfs_inode) (name : string)
    (value : list byte) (flags : Z) :
  NoDup (map xa_name (xattrs inode)) ->
  NoDup (map xa_name
           (xattrs (snd (set_xattr_internal inode name value flags)))).
Proof.
  intros Hnd. unfold set_xattr_internal.
  destruct (find_xattr inode name) as [k|] eqn:Ef;
    destruct (flag_set flags XATTR_CREATE);
    destruct (flag_set flags XATTR_REPLACE);
    cbn [andb is_some negb snd xattrs set_xattrs]; try exact Hnd.
  1,2: rewrite names_alter_value; exact Hnd.
  all: rewrite map_app; cbn [map xa_name]; apply NoDup_app;
    split; [exact Hnd|]; split; [|apply NoDup_singleton];
    intros n Hn Hn'; apply list_elem_of_singleton in Hn'; subst n;
    rewrite list_elem_of_In in Hn; apply in_map_iff in Hn as (x & Hx & Hin);
    apply (find_index_None _ _ Ef) in Hin; cbn in Hin;
    apply String.eqb_neq in Hin; congruence.
Qed.

Lemma remove_xattr_internal_NoDup (inode : appendfs_inode) (name : string) :
  NoDup (map xa_name (xattrs inode)) ->
  NoDup (map xa_name (xattrs (snd (remove_xattr_internal inode name)))).
Proof.
  intros Hnd. unfold remove_xattr_internal.
  destruct (find_xattr inode name) as [k|]; cbn [snd xattrs set_xattrs];
    [|exact Hnd].
  apply (sublist_NoDup _ (map xa_name (xattrs inode))); [exact Hnd|].
  apply (fmap_sublist xa_name), sublist_delete.
Qed.

Lemma inode_at_eq (c1 c2 : appendfs_context) (i : nat) :
  inodes c1 = inodes c2 -> inode_at c1 i = inode_at c2 i.
Proof. unfold inode_at. intros ->. reflexivity. Qed.

(** C6.  [setxattr] or [removexattr] on a live inode: the change of the
    row in memory has succeeded and the record append fails.  The call
    then returns that failure, and afterwards every name of every inode
    has the value it had before the call; nothing else of any row differs
    either.  After a failed [setxattr] the inode array is the one before
    the call; after a failed [removexattr] the attribute is back under its
    old value (as the last entry of the array).  Names within the row are
    distinct, as [set_xattr_internal] keeps them. *)
Theorem xattr_change_is_undone_when_the_append_fails :
  forall (ctx : appendfs_context) (p name : string) (op : xattr_op)
         (idx : nat) (inode1 : appendfs_inode) (e : errno)
         (ctx2 : appendfs_context),
    find_inode_by_path ctx p = Some idx ->
    deleted (inode_at ctx idx) = false ->
    NoDup (map xa_name (xattrs (inode_at ctx idx))) ->
    xattr_mutation (inode_at ctx idx) name op = (Ok tt, inode1) ->
    xattr_append (update_inode idx (fun _ => inode1) ctx) inode1 name op
    = (Err e, ctx2) ->
    exists ctx',
      xattr_call ctx p name op = (Err e, ctx')
      /\ (forall i n,
            xattr_value (inode_at ctx' i) n = xattr_value (inode_at ctx i) n)
      /\ (forall i,
            set_xattrs [] (inode_at ctx' i) = set_xattrs [] (inode_at ctx i))
      /\ List.length (inodes ctx') = List.length (inodes ctx)
      /\ (op <> XRemove -> inodes ctx' = inodes ctx).
Proof.
  intros ctx p name op idx inode1 e ctx2 Hfind Hlive Hnd Hmut Happ.
  pose proof (find_inode_by_path_lt _ _ _ Hfind) as Hlt.
  assert (Hrows : inodes ctx2 = alter (fun _ => inode1) idx (inodes ctx)).
  { destruct op; cbn [xattr_append] in Happ;
      apply write_record_inodes in Happ; exact Happ. }
  assert (Hshape : forall restore r,
             restore inode1 = r ->
             inodes (update_inode idx restore ctx2)
             = alter (fun _ => r) idx (inodes ctx)).
  { intros restore r Hr. unfold update_inode.
    cbn [inodes set_inodes]. rewrite Hrows, list_alter_alter_eq.
    apply list_alter_ext; [|reflexivity]. intros x _. cbn. exact Hr. }
  destruct op as [value flags|]; cbn [xattr_call xattr_mutation xattr_append]
    in *.
  - (* setxattr *)
    pose proof (set_xattr_internal_undone _ _ _ _ _ Hmut) as Hundo.
    eexists. split.
    + unfold appendfs_setxattr. rewrite Hfind, Hlive, Hmut, Happ.
      reflexivity.
    + match goal with
      | |- context [update_inode idx ?f ctx2] =>
          assert (Hsame : inodes (update_inode idx f ctx2) = inodes ctx)
      end.
      { rewrite (Hshape _ (inode_at ctx idx)).
        - apply alter_fixed. intros x Hx.
          rewrite (lookup_nth_inode ctx idx Hlt) in Hx. congruence.
        - cbv beta. destruct (find_xattr (inode_at ctx idx) name);
            exact Hundo. }
      repeat split.
      * intros i n. rewrite (inode_at_eq _ _ i Hsame). reflexivity.
      * intros i. rewrite (inode_at_eq _ _ i Hsame). reflexivity.
      * rewrite Hsame. reflexivity.
      * intros _. exact Hsame.
  - (* removexattr *)
    assert (Hk : exists k, find_xattr (inode_at ctx idx) name = Some k).
    { unfold remove_xattr_internal in Hmut.
      destruct (find_xattr (inode_at ctx idx) name) as [k|];
        [exists k; reflexivity|discriminate Hmut]. }
    destruct Hk as [k Hk].
    destruct (remove_xattr_internal_undone _ _ _ _ Hnd Hk Hmut)
      as [Hval Hrest].
    eexists. split.
    + unfold appendfs_removexattr. rewrite Hfind, Hlive, Hk, Hmut, Happ.
      reflexivity.
    + match goal with
      | |- context [update_inode idx ?f ctx2] =>
          pose proof (Hshape f _ eq_refl) as Hres
      end.
      cbv beta in Hres.
      pose proof (fun i => inode_at_alter_const ctx _ idx i _ Hlt Hres) as Hat.
      repeat split.
      * intros i n. rewrite Hat. destruct (decide (i = idx)) as [->|_];
          [apply Hval|reflexivity].
      * intros i. rewrite Hat. destruct (decide (i = idx)) as [->|_];
          [apply Hrest|reflexivity].
      * rewrite Hres. apply length_alter.
      * intros Hne. congruence.
Qed.

Lemma xattr_change_is_undone_when_the_append_fails_witness :
  (exists ctx',
      xattr_call xattr_store "/f" "user.k" (XSet [x77] 0) = (Err ENOSPC, ctx')
      /\ forall n, xattr_value (inode_at ctx' 0) n
                   = xattr_value (inode_at xattr_store 0) n)
  /\ (exists ctx',
         xattr_call xattr_store "/f" "user.k" XRemove = (Err ENOSPC, ctx')
         /\ forall n, xattr_value (inode_at ctx' 0) n
                      = xattr_value (inode_at xattr_store 0) n).
Proof.
  assert (Hnd : NoDup (map xa_name (xattrs (inode_at xattr_store 0)))).
  { vm_compute. repeat constructor; rewrite list_elem_of_In; cbn;
      intuition discriminate. }
  split.
  - destruct (xattr_change_is_undone_when_the_append_fails
                xattr_store "/f" "user.k" (XSet [x77] 0) 0%nat
                (snd (set_xattr_internal (inode_at xattr_store 0) "user.k"
                        [x77] 0))
                ENOSPC
                (snd (append_setxattr_record
                        (update_inode 0
                           (fun _ =>
                              snd (set_xattr_internal
                                     (inode_at xattr_store 0) "user.k"
                                     [x77] 0)) xattr_store)
                        (snd (set_xattr_internal (inode_at xattr_store 0)
                                "user.k" [x77] 0))
                        "user.k" [x77])))
      as (ctx' & Hcall & Hval & _).
    + vm_compute. reflexivity.
    + vm_compute. reflexivity.
    + exact Hnd.
    + vm_compute. reflexivity.
    + vm_compute. reflexivity.
    + exists ctx'. split; [exact Hcall|]. intros n. apply Hval.
  - destruct (xattr_change_is_undone_when_the_append_fails
                xattr_store "/f" "user.k" XRemove 0%nat
                (snd (remove_xattr_internal (inode_at xattr_store 0)
                        "user.k"))
                ENOSPC
                (snd (append_removexattr_record
                        (update_inode 0
                           (fun _ =>
                              snd (remove_xattr_internal
                                     (inode_at xattr_store 0) "user.k"))
                           xattr_store)
                        (snd (remove_xattr_internal (inode_at xattr_store 0)
                                "user.k"))
                        "user.k")))
      as (ctx' & Hcall & Hval & _).
    + vm_compute. reflexivity.
    + vm_compute. reflexivity.
    + exact Hnd.
    + vm_compute. reflexivity.
    + vm_compute. reflexivity.
    + exists ctx'. split; [exact Hcall|]. intros n. apply Hval.
Defined.

(** ** Strings *)

Lemma strncmp_eq_prefix (a : string) :
  forall q, strncmp_eq q a (String.length a) = true
            <-> exists r, q = String.append a r.
Proof.
  induction a as [|c a IH]; intros q; cbn [String.length strncmp_eq].
  - split; [intros _; exists q; reflexivity|reflexivity].
  - destruct q as [|d q].
    + split; [discriminate|]. intros [r Hr]. discriminate Hr.
    + rewrite andb_true_iff, Ascii.eqb_eq, IH. split.
      * intros [-> [r ->]]. exists r. reflexivity.
      * intros [r Hr]. cbn in Hr. injection Hr as -> ->.
        split; [reflexivity|exists r; reflexivity].
Qed.

Lemma append_assoc (a b c : string) :
  String.append (String.append a b) c = String.append a (String.append b c).
Proof. induction a as [|x a IH]; cbn; [|rewrite IH]; reflexivity. Qed.

Lemma length_append (a b : string) :
  String.length (String.append a b) = (String.length a + String.length b)%nat.
Proof. induction a as [|x a IH]; cbn; [|rewrite IH]; reflexivity. Qed.

Lemma str_drop_append (a r : string) :
  str_drop (String.length a) (String.append a r) = r.
Proof. induction a as [|x a IH]; cbn; [destruct r; reflexivity|exact IH]. Qed.

Lemma char_at_append (a r : string) :
  char_at (String.append a r) (String.length a) = char_at r 0.
Proof.
  unfold char_at. induction a as [|x a IH]; cbn [String.append String.length];
    [reflexivity|]. cbn [String.get]. exact IH.
Qed.

Lemma under_spec (a q : string) :
  under a q = true <-> exists r, q = String.append a (String slash r).
Proof.
  unfold under. rewrite strncmp_eq_prefix. split; intros [r ->]; exists r.
  - rewrite append_assoc. reflexivity.
  - rewrite append_assoc. reflexivity.
Qed.

(** Two prefixes of one string: one is a prefix of the other. *)
Lemma append_eq_comparable (a b : string) :
  forall r s,
    String.append a r = String.append b s ->
    (exists t, a = String.append b t) \/ (exists t, b = String.append a t).
Proof.
  revert b; induction a as [|x a IH]; intros b r s H.
  - right. exists b. reflexivity.
  - destruct b as [|y b].
    + left. exists (String x a). reflexivity.
    + cbn in H. injection H as -> H.
      destruct (IH b r s H) as [[t ->]|[t ->]].
      * left. exists t. reflexivity.
      * right. exists t. reflexivity.
Qed.

(** ** Rename: which rows are gathered *)

Lemma char_at_0_slash (r : string) :
  Ascii.eqb (char_at r 0) slash = true -> exists r', r = String slash r'.
Proof.
  destruct r as [|c r']; cbn; intros H.
  - discriminate H.
  - apply Ascii.eqb_eq in H. subst c. exists r'. reflexivity.
Qed.

(** The three tests of the gathering loop on a path amount to [under]. *)
Lemma child_tests_under (a q : string) :
  path_is_prefix q a
  && negb ((strlen q <=? Z.of_nat (String.length a))
           || negb (Ascii.eqb (char_at q (String.length a)) slash))
  = under a q.
Proof.
  destruct (under a q) eqn:Eu.
  - apply under_spec in Eu as [r ->].
    assert (Hp : strncmp_eq (String.append a (String slash r)) a
                   (String.length a) = true).
    { apply strncmp_eq_prefix. eexists. reflexivity. }
    unfold path_is_prefix. rewrite Hp. cbn [negb].
    rewrite char_at_append. cbn [char_at String.get].
    rewrite Ascii.eqb_refl. cbn [negb orb].
    unfold strlen. rewrite length_append. cbn [String.length].
    replace (Z.of_nat (String.length a + S (String.length r))
             <=? Z.of_nat (String.length a)) with false
      by (symmetry; apply Z.leb_gt; lia).
    rewrite orb_true_r.
    destruct (Nat.eqb (String.length a) 0); [reflexivity|].
    destruct (Ascii.eqb _ slash); reflexivity.
  - apply not_true_iff_false. intros H. apply not_true_iff_false in Eu.
    apply Eu. apply andb_true_iff in H as [Hp Hc].
    apply negb_true_iff, orb_false_iff in Hc as [Hlen Hch].
    apply negb_false_iff in Hch.
    assert (Hs : strncmp_eq q a (String.length a) = true).
    { unfold path_is_prefix in Hp.
      destruct (strncmp_eq q a (String.length a)); [reflexivity|].
      discriminate Hp. }
    apply strncmp_eq_prefix in Hs as [r ->].
    rewrite char_at_append in Hch.
    apply char_at_0_slash in Hch as [r' ->].
    apply under_spec. exists r'. reflexivity.
Qed.

Lemma collect_children_spec (moved : nat) (a b : string)
    (rows : list appendfs_inode) :
  forall i,
    (forall k x, rows !! k = Some x -> (i + k)%nat = moved ->
                 negb (deleted x) && under a (path x) = false) ->
    collect_children moved a b i rows
    = map (fun '(j, q) => (j, moved_path a b q)) (live_descendants a i rows).
Proof.
  induction rows as [|r rows IH]; intros i Hmoved; [reflexivity|].
  cbn [collect_children live_descendants].
  rewrite IH by (intros k x Hk Hik; apply (Hmoved (S k) x Hk); lia).
  pose proof (child_tests_under a (path r)) as Ht.
  destruct (Nat.eqb_spec i moved) as [Hi|Hi].
  - rewrite (Hmoved 0%nat r eq_refl) by lia. reflexivity.
  - cbn [orb]. destruct (deleted r); cbn [negb andb]; [reflexivity|].
    destruct (path_is_prefix (path r) a); cbn [negb andb] in *.
    + destruct ((strlen (path r) <=? Z.of_nat (String.length a))
                || negb (Ascii.eqb (char_at (path r) (String.length a))
                                   slash));
        cbn [negb] in Ht; rewrite <- Ht; reflexivity.
    + rewrite <- Ht. reflexivity.
Qed.

Lemma live_descendants_alter (a : string) (f : appendfs_inode -> appendfs_inode)
    (d : nat) (rows : list appendfs_inode) :
  forall i,
    (forall x, rows !! d = Some x ->
               negb (deleted x) && under a (path x) = false
               /\ negb (deleted (f x)) && under a (path (f x)) = false) ->
    live_descendants a i (alter f d rows) = live_descendants a i rows.
Proof.
  revert d; induction rows as [|r rows IH]; intros d i H; [reflexivity|].
  destruct d as [|d]; cbn [alter list_alter live_descendants].
  - destruct (H r eq_refl) as [-> ->]. reflexivity.
  - fold (alter f d rows). rewrite IH by (intros x Hx; apply H; exact Hx).
    reflexivity.
Qed.

Lemma live_descendants_spec (a : string) (rows : list appendfs_inode) :
  forall i j q,
    In (j, q) (live_descendants a i rows)
    <-> exists x, (i <= j)%nat /\ rows !! (j - i)%nat = Some x
                  /\ deleted x = false /\ under a (path x) = true
                  /\ q = path x.
Proof.
  induction rows as [|r rows IH]; intros i j q; cbn [live_descendants].
  - split; [intros []|]. intros (x & _ & Hx & _). discriminate Hx.
  - assert (Hrest : In (j, q) (live_descendants a (S i) rows)
              <-> exists x, (i < j)%nat /\ (r :: rows) !! (j - i)%nat = Some x
                            /\ deleted x = false /\ under a (path x) = true
                            /\ q = path x).
    { rewrite IH. split.
      - intros (x & Hle & Hx & Hrest). exists x. split; [lia|].
        replace (j - i)%nat with (S (j - S i)) by lia. split; assumption.
      - intros (x & Hlt & Hx & Hrest). exists x. split; [lia|].
        replace (j - i)%nat with (S (j - S i)) in Hx by lia.
        split; assumption. }
    destruct (negb (deleted r) && under a (path r)) eqn:Er.
    + apply andb_true_iff in Er as [Hd Hu]. apply negb_true_iff in Hd.
      cbn [In]. rewrite Hrest. split.
      * intros [E|(x & Hlt & Hx)].
        -- injection E as <- <-. exists r. rewrite Nat.sub_diag.
           repeat split; try assumption. lia.
        -- exists x. split; [lia|exact Hx].
      * intros (x & Hle & Hx & Hdx & Hux & ->).
        destruct (Nat.eq_dec j i) as [->|Hne].
        -- left. rewrite Nat.sub_diag in Hx. injection Hx as <-. reflexivity.
        -- right. exists x. split; [lia|]. repeat split; assumption.
    + rewrite Hrest. split.
      * intros (x & Hlt & Hx). exists x. split; [lia|exact Hx].
      * intros (x & Hle & Hx & Hdx & Hux & ->).
        destruct (Nat.eq_dec j i) as [->|Hne].
        -- rewrite Nat.sub_diag in Hx. injection Hx as <-.
           rewrite Hdx, Hux in Er. discriminate Er.
        -- exists x. split; [lia|]. repeat split; assumption.
Qed.

(** ** Rename: the loop over the gathered rows *)

Lemma ids_alter (f : appendfs_inode -> appendfs_inode) (j : nat)
    (l : list appendfs_inode) :
  (forall x, inode_id (f x) = inode_id x) ->
  map inode_id (alter f j l) = map inode_id l.
Proof.
  intros Hf. revert j; induction l as [|x l IH]; intros j; [reflexivity|].
  destruct j as [|j]; cbn [alter list_alter map].
  - rewrite Hf. reflexivity.
  - fold (alter f j l). rewrite IH. reflexivity.
Qed.

Lemma inode_id_at (c : appendfs_context) (i : nat) :
  inode_id (inode_at c i) = nth i (map inode_id (inodes c)) 0.
Proof.
  unfold inode_at. change 0 with (inode_id zero_inode).
  symmetry. apply map_nth.
Qed.

Lemma rename_record_ids (c1 c2 : appendfs_context) (i : nat) (np : string) :
  map inode_id (inodes c1) = map inode_id (inodes c2) ->
  rename_record c1 i np = rename_record c2 i np.
Proof.
  intros H. unfold rename_record, rename_payload.
  rewrite !inode_id_at, H. reflexivity.
Qed.

Lemma rename_children_Ok (children : list (nat * string)) :
  forall ctx ctx',
    rename_children ctx children = (Ok tt, ctx') ->
    f_pos (meta_fd ctx) = file_size (meta_fd ctx) ->
    inodes ctx' = apply_moves (inodes ctx) children
    /\ f_data (meta_fd ctx')
       = f_data (meta_fd ctx)
         ++ encode_log (map (fun '(i, np) => rename_record ctx i np) children).
Proof.
  induction children as [|[ci np] rest IH]; intros ctx ctx' H Hpos.
  - cbn in H. injection H as <-. split; [reflexivity|].
    cbn. rewrite app_nil_r. reflexivity.
  - cbn [rename_children] in H. unfold append_rename_record in H.
    destruct (write_record ctx APPENDFS_RECORD_RENAME
                (rename_payload (inode_at ctx ci) np)) as [[[]|e] ctx1] eqn:E;
      [|discriminate H].
    destruct (write_record_Ok_inv _ _ _ _ E Hpos) as (Hc1 & Hd1 & Hp1).
    apply IH in H; [|exact Hp1].
    destruct H as [Hrows Hdata].
    assert (Hin : inodes ctx1 = inodes ctx) by (rewrite Hc1; reflexivity).
    split.
    + rewrite Hrows. cbn [inodes update_inode set_inodes apply_moves fold_left].
      rewrite Hin. reflexivity.
    + rewrite Hdata.
      rewrite (map_ext _ (fun '(i, q) => rename_record ctx i q)).
      * cbn [meta_fd update_inode set_inodes].
        rewrite Hd1. unfold encode_log. cbn [map concat].
        rewrite <- app_assoc. reflexivity.
      * intros [i q]. apply rename_record_ids.
        cbn [inodes update_inode set_inodes]. rewrite Hin.
        apply ids_alter. reflexivity.
Qed.

Lemma apply_moves_miss (moves : list (nat * string)) :
  forall rows j,
    ~ In j (map fst moves) -> apply_moves rows moves !! j = rows !! j.
Proof.
  induction moves as [|[i np] rest IH]; intros rows j Hj; [reflexivity|].
  cbn [apply_moves fold_left]. fold (apply_moves (alter (move_row np) i rows) rest).
  cbn [map fst In] in Hj.
  rewrite IH by tauto. apply list_lookup_alter_ne. tauto.
Qed.

Lemma apply_moves_hit (moves : list (nat * string)) :
  forall rows j np,
    NoDup (map fst moves) -> In (j, np) moves ->
    apply_moves rows moves !! j = move_row np <$> rows !! j.
Proof.
  induction moves as [|[i np0] rest IH]; intros rows j np Hnd Hin;
    [destruct Hin|].
  cbn [map fst] in Hnd. apply NoDup_cons in Hnd as [Hi Hrest].
  rewrite list_elem_of_In in Hi.
  cbn [apply_moves fold_left].
  fold (apply_moves (alter (move_row np0) i rows) rest).
  destruct Hin as [E|Hin].
  - injection E as -> ->. rewrite apply_moves_miss by exact Hi.
    apply list_lookup_alter_eq.
  - rewrite (IH _ j np Hrest Hin). rewrite list_lookup_alter_ne; [reflexivity|].
    intros ->. apply Hi. change j with (fst (j, np)). apply in_map. exact Hin.
Qed.

Lemma live_descendants_from (a : string) (rows : list appendfs_inode) :
  forall i j, In j (map fst (live_descendants a i rows)) -> (i <= j)%nat.
Proof.
  intros i j Hj. apply in_map_iff in Hj as [[j' q] [<- Hin]].
  apply live_descendants_spec in Hin as (x & Hle & _). exact Hle.
Qed.

Lemma live_descendants_NoDup (a : string) (rows : list appendfs_inode) :
  forall i, NoDup (map fst (live_descendants a i rows)).
Proof.
  induction rows as [|r rows IH]; intros i; cbn [live_descendants];
    [constructor|].
  destruct (negb (deleted r) && under a (path r)); [|apply IH].
  cbn [map fst]. apply NoDup_cons. split; [|apply IH].
  rewrite list_elem_of_In. intros Hin.
  apply live_descendants_from in Hin. lia.
Qed.

(** ** Rename: the outcome of a successful call *)

Lemma unlink_record_ids (c1 c2 : appendfs_context) (d : nat) :
  map inode_id (inodes c1) = map inode_id (inodes c2) ->
  unlink_payload (inode_at c1 d) = unlink_payload (inode_at c2 d).
Proof.
  intros H. unfold unlink_payload. rewrite !inode_id_at, H. reflexivity.
Qed.

Lemma rename_Ok_shape (ctx ctx' : appendfs_context)
    (from_path to_path : string) (now : Z) (idx : nat) :
  find_inode_by_path ctx from_path = Some idx ->
  String.eqb (normalize_path_copy from_path) (normalize_path_copy to_path)
  = false ->
  f_pos (meta_fd ctx) = file_size (meta_fd ctx) ->
  appendfs_rename ctx from_path to_path now = (Ok tt, ctx') ->
  exists rows1 unlinked,
    ((rows1 = inodes ctx /\ unlinked = [])
     \/ exists d,
          find_inode_by_path ctx to_path = Some d
          /\ deleted (inode_at ctx d) = false
          /\ rows1 = alter (fun i => set_mtime now (set_deleted true i)) d
                           (inodes ctx)
          /\ unlinked = [record_of APPENDFS_RECORD_UNLINK
                           (unlink_payload (inode_at ctx d))])
    /\ let children :=
         if S_ISDIR (mode (nth idx rows1 zero_inode))
         then collect_children idx (normalize_path_copy from_path)
                (normalize_path_copy to_path) 0 rows1
         else [] in
       inodes ctx'
       = apply_moves
           (alter (fun i => set_mtime now
                              (set_deleted false
                                 (set_path (normalize_path_copy to_path) i)))
                  idx rows1) children
       /\ f_data (meta_fd ctx')
          = f_data (meta_fd ctx)
            ++ encode_log
                 (unlinked
                  ++ rename_record ctx idx (normalize_path_copy to_path)
                  :: map (fun '(i, np) => rename_record ctx i np) children).
Proof.
  intros Hfind Hne Hpos H. unfold appendfs_rename in H.
  rewrite find_inode_by_path_normalized, Hfind, Hne in H.
  destruct (split_path (normalize_path_copy to_path)) as [to_parent|e];
    [|discriminate H].
  destruct (negb (String.eqb to_parent "/")
            && negb (parent_is_live_dir ctx to_parent)); [discriminate H|].
  rewrite find_inode_by_path_normalized in H.
  (* the destination *)
  assert (Hdest : exists ctx1 rows1 unlinked,
    ((rows1 = inodes ctx /\ unlinked = [])
     \/ exists d,
          find_inode_by_path ctx to_path = Some d
          /\ deleted (inode_at ctx d) = false
          /\ rows1 = alter (fun i => set_mtime now (set_deleted true i)) d
                           (inodes ctx)
          /\ unlinked = [record_of APPENDFS_RECORD_UNLINK
                           (unlink_payload (inode_at ctx d))])
    /\ inodes ctx1 = rows1
    /\ f_data (meta_fd ctx1) = f_data (meta_fd ctx) ++ encode_log unlinked
    /\ f_pos (meta_fd ctx1) = file_size (meta_fd ctx1)
    /\ match append_rename_record ctx1 (inode_at ctx1 idx)
               (normalize_path_copy to_path) with
       | (Err e, ctx2) => (Err e, ctx2)
       | (Ok _, ctx2) =>
           rename_children
             (update_inode idx
                (fun i => set_mtime now
                            (set_deleted false
                               (set_path (normalize_path_copy to_path) i)))
                ctx2)
             (if S_ISDIR (mode (inode_at ctx1 idx))
              then collect_children idx (normalize_path_copy from_path)
                     (normalize_path_copy to_path) 0 (inodes ctx1)
              else [])
       end = (Ok tt, ctx')).
  { destruct (find_inode_by_path ctx to_path) as [d|] eqn:Ed.
    - destruct (deleted (inode_at ctx d)) eqn:Edel.
      + exists ctx, (inodes ctx), []. split; [left; split; reflexivity|].
        repeat split; try assumption.
        cbn. rewrite app_nil_r. reflexivity.
      + destruct (S_ISDIR (mode (inode_at ctx idx))
                  && negb (S_ISDIR (mode (inode_at ctx d))));
          [discriminate H|].
        destruct (S_ISDIR (mode (inode_at ctx idx))
                  && negb (appendfs_is_directory_empty ctx
                             (normalize_path_copy to_path)));
          [discriminate H|].
        destruct (negb (S_ISDIR (mode (inode_at ctx idx)))
                  && S_ISDIR (mode (inode_at ctx d)));
          [discriminate H|].
        unfold append_unlink_record in H.
        match type of H with
        | context [write_record ?c ?t ?p] =>
            destruct (write_record c t p) as [[[]|e] ctx1] eqn:E;
              [|discriminate H]
        end.
        destruct (write_record_Ok_inv _ _ _ _ E Hpos) as (Hc1 & Hd1 & Hp1).
        exists ctx1, (alter (fun i => set_mtime now (set_deleted true i)) d
                            (inodes ctx)),
          [record_of APPENDFS_RECORD_UNLINK (unlink_payload (inode_at ctx d))].
        split.
        { right. exists d. repeat split; [exact Edel]. }
        split; [rewrite Hc1; reflexivity|].
        split.
        { rewrite Hd1. cbn [meta_fd update_inode set_inodes].
          unfold encode_log. cbn [map concat]. rewrite app_nil_r.
          f_equal. f_equal. f_equal. apply unlink_record_ids.
          cbn [inodes update_inode set_inodes]. apply ids_alter. reflexivity. }
        split; [exact Hp1|exact H].
    - exists ctx, (inodes ctx), []. split; [left; split; reflexivity|].
      repeat split; try assumption.
      cbn. rewrite app_nil_r. reflexivity. }
  clear H. destruct Hdest as (ctx1 & rows1 & unlinked & Hcase & Hrows1 & Hdata1
                              & Hpos1 & H).
  exists rows1, unlinked. split; [exact Hcase|].
  unfold append_rename_record in H.
  destruct (write_record ctx1 APPENDFS_RECORD_RENAME
              (rename_payload (inode_at ctx1 idx)
                 (normalize_path_copy to_path))) as [[[]|e] ctx2] eqn:E;
    [|discriminate H].
  destruct (write_record_Ok_inv _ _ _ _ E Hpos1) as (Hc2 & Hd2 & Hp2).
  apply rename_children_Ok in H; [|exact Hp2].
  destruct H as [Hrows Hdata].
  assert (Hids : map inode_id (inodes ctx1) = map inode_id (inodes ctx)).
  { rewrite Hrows1. destruct Hcase as [[-> _]|(d & _ & _ & -> & _)];
      [reflexivity|]. apply ids_alter. reflexivity. }
  assert (Hin2 : inodes ctx2 = rows1) by (rewrite Hc2; exact Hrows1).
  unfold inode_at in Hrows, Hdata. rewrite Hrows1 in Hrows, Hdata.
  cbv zeta. split.
  - rewrite Hrows. cbn [inodes update_inode set_inodes]. rewrite Hin2.
    reflexivity.
  - rewrite Hdata. cbn [meta_fd update_inode set_inodes]. rewrite Hd2, Hdata1.
    unfold encode_log. rewrite map_app, concat_app. cbn [map concat].
    rewrite <- !app_assoc. f_equal. f_equal.
    fold (rename_record ctx1 idx (normalize_path_copy to_path)).
    rewrite (rename_record_ids ctx1 ctx) by exact Hids.
    f_equal. f_equal. f_equal. apply map_ext. intros [i q].
    apply rename_record_ids. cbn [inodes update_inode set_inodes].
    rewrite Hin2, <- Hrows1, <- Hids. apply ids_alter. reflexivity.
Qed.

Lemma under_self (a : string) : under a a = false.
Proof.
  apply not_true_iff_false. intros H. apply under_spec in H as [r Hr].
  apply (f_equal String.length) in Hr. rewrite length_append in Hr.
  cbn in Hr. lia.
Qed.

Lemma path_within_spec (a b : string) :
  path_within a b = true
  <-> exists r, String.append b "/"
                = String.append (String.append a "/") r.
Proof. unfold path_within, under. apply strncmp_eq_prefix. Qed.

Lemma under_within (a b : string) :
  under a b = true -> path_within a b = true.
Proof.
  intros H. apply under_spec in H as [r ->]. apply path_within_spec.
  exists (String.append r "/"). rewrite !append_assoc. reflexivity.
Qed.

(** A row found under a normalized name does not lie under [a] unless the
    name does. *)
Lemma path_matches_under (a n : string) (x : appendfs_inode) :
  char_at a 0 = slash -> char_at n 0 = slash ->
  path_matches n x = true -> under a (path x) = true -> under a n = true.
Proof.
  intros Ha Hn Hm Hu. unfold path_matches in Hm.
  apply andb_true_iff in Hm as [_ Hm].
  apply orb_true_iff in Hm as [Hm|Hm];
    [apply orb_true_iff in Hm as [Hm|Hm]|].
  - apply String.eqb_eq in Hm. rewrite <- Hm. exact Hu.
  - apply andb_true_iff in Hm as [Hm _]. apply andb_true_iff in Hm as [Hm _].
    apply under_spec in Hu as [r Hr]. rewrite Hr in Hm.
    destruct a as [|c a]; [cbn in Ha; discriminate Ha|].
    cbn in Ha, Hm. subst c. cbn in Hm. discriminate Hm.
  - apply andb_true_iff in Hm as [Hm _]. apply andb_true_iff in Hm as [_ Hm].
    rewrite Hn, Ascii.eqb_refl in Hm. discriminate Hm.
Qed.

Lemma find_inode_by_path_matches (ctx : appendfs_context) (p : string)
    (i : nat) :
  find_inode_by_path ctx p = Some i ->
  exists x, inodes ctx !! i = Some x
            /\ path_matches (normalize_path_copy p) x = true.
Proof.
  intros H. destruct (find_index_Some _ _ _ H) as (x & Hx & Hp & _).
  exists x. split; assumption.
Qed.

Lemma moved_path_under (a b r : string) :
  moved_path a b (String.append a (String slash r))
  = String.append b (String slash r).
Proof. unfold moved_path. rewrite str_drop_append. reflexivity. Qed.

Lemma moved_path_not_under (a b q : string) :
  path_within a b = false -> path_within b a = false ->
  under a q = true -> under a (moved_path a b q) = false.
Proof.
  intros Hab Hba Hq. apply under_spec in Hq as [r ->].
  rewrite moved_path_under. apply not_true_iff_false. intros H.
  apply under_spec in H as [r' Hr'].
  change (String slash r) with (String.append "/" r) in Hr'.
  change (String slash r') with (String.append "/" r') in Hr'.
  rewrite <- !append_assoc in Hr'.
  destruct (append_eq_comparable _ _ _ _ Hr') as [[t Ht]|[t Ht]].
  - apply not_true_iff_false in Hab. apply Hab.
    apply path_within_spec. exists t. exact Ht.
  - apply not_true_iff_false in Hba. apply Hba.
    apply path_within_spec. exists t. exact Ht.
Qed.

(** C7, as the code has it.  [rename(A, B)] succeeds, [A] is a live
    directory, and neither of the two normalized paths is the other or lies
    in the other's subtree.  Then
    - every row that was live under [A/rest] is live under [B/rest];
    - no live row has a path that begins with [A/];
    - the log has grown by the UNLINK record of a replaced destination, if
      there was one, then the RENAME record of the moved directory, then
      one RENAME record per live descendant, in the order of the inode
      array. *)
Theorem rename_moves_the_subtree_of_a_directory :
  forall (ctx ctx' : appendfs_context) (from_path to_path : string)
         (now : Z) (idx : nat),
    find_inode_by_path ctx from_path = Some idx ->
    S_ISDIR (mode (inode_at ctx idx)) = true ->
    path_within (normalize_path_copy from_path) (normalize_path_copy to_path)
    = false ->
    path_within (normalize_path_copy to_path) (normalize_path_copy from_path)
    = false ->
    f_pos (meta_fd ctx) = file_size (meta_fd ctx) ->
    appendfs_rename ctx from_path to_path now = (Ok tt, ctx') ->
    (forall i x rest,
        inodes ctx !! i = Some x -> deleted x = false ->
        path x = String.append (normalize_path_copy from_path)
                               (String slash rest) ->
        exists y, inodes ctx' !! i = Some y /\ deleted y = false
                  /\ path y = String.append (normalize_path_copy to_path)
                                            (String slash rest))
    /\ (forall i y,
          inodes ctx' !! i = Some y -> deleted y = false ->
          under (normalize_path_copy from_path) (path y) = false)
    /\ exists unlinked,
         (unlinked = []
          \/ exists d, unlinked = [record_of APPENDFS_RECORD_UNLINK
                                     (unlink_payload (inode_at ctx d))])
         /\ f_data (meta_fd ctx')
            = f_data (meta_fd ctx)
              ++ encode_log
                   (unlinked
                    ++ rename_record ctx idx (normalize_path_copy to_path)
                    :: map (fun '(i, q) =>
                              rename_record ctx i
                                (moved_path (normalize_path_copy from_path)
                                   (normalize_path_copy to_path) q))
                         (live_descendants (normalize_path_copy from_path) 0
                            (inodes ctx))).
Proof.
  intros ctx ctx' from_path to_path now idx Hfind Hdir Hab Hba Hpos Hren.
  set (A := normalize_path_copy from_path) in *.
  set (B := normalize_path_copy to_path) in *.
  assert (HA : char_at A 0 = slash) by apply normalize_path_copy_slash.
  assert (HB : char_at B 0 = slash) by apply normalize_path_copy_slash.
  assert (Hne : String.eqb A B = false).
  { apply String.eqb_neq. intros E. rewrite <- E in Hab.
    apply not_true_iff_false in Hab. apply Hab.
    apply path_within_spec. exists EmptyString.
    clear. induction (String.append A "/") as [|c s IH]; cbn;
      [|rewrite <- IH]; reflexivity. }
  pose proof (find_inode_by_path_lt _ _ _ Hfind) as Hlt.
  destruct (find_inode_by_path_matches _ _ _ Hfind) as (x0 & Hx0 & Hm0).
  fold A in Hm0.
  assert (Hu0 : under A (path x0) = false).
  { apply not_true_iff_false. intros Hu.
    pose proof (path_matches_under A A x0 HA HA Hm0 Hu) as Hc.
    rewrite under_self in Hc. discriminate Hc. }
  destruct (rename_Ok_shape ctx ctx' from_path to_path now idx
              Hfind Hne Hpos Hren)
    as (rows1 & unlinked & Hcase & Hrows & Hdata).
  fold A B in Hrows, Hdata. cbv zeta in Hrows, Hdata.
  (* the rows after the destination is tombstoned *)
  assert (H1 : forall i,
             (i = idx -> rows1 !! i = inodes ctx !! i
                         \/ exists x, rows1 !! i = Some x /\ deleted x = true)
             /\ (rows1 !! i = inodes ctx !! i
                 \/ exists x, rows1 !! i = Some x /\ deleted x = true)).
  { intros i. destruct Hcase as [[-> _]|(d & _ & _ & -> & _)];
      [split; [intros _|]; left; reflexivity|].
    assert (Hi : alter (fun r => set_mtime now (set_deleted true r)) d
                   (inodes ctx) !! i = inodes ctx !! i
                 \/ exists x, alter (fun r => set_mtime now (set_deleted true r))
                                d (inodes ctx) !! i = Some x
                              /\ deleted x = true).
    { destruct (decide (d = i)) as [->|Hd].
      - rewrite list_lookup_alter_eq.
        destruct (inodes ctx !! i) as [x|]; [right|left; reflexivity].
        eexists. split; reflexivity.
      - left. apply list_lookup_alter_ne. exact Hd. }
    split; [intros _|]; exact Hi. }
  assert (Hlive1 : live_descendants A 0 rows1
                   = live_descendants A 0 (inodes ctx)).
  { destruct Hcase as [[-> _]|(d & Hd & Hdl & -> & _)]; [reflexivity|].
    apply live_descendants_alter. intros x Hx.
    destruct (find_inode_by_path_matches _ _ _ Hd) as (xd & Hxd & Hmd).
    fold B in Hmd. rewrite Hx in Hxd. injection Hxd as <-.
    cbn [deleted set_mtime set_deleted negb andb]. split; [|reflexivity].
    apply andb_false_iff. right.
    apply not_true_iff_false. intros Hu.
    pose proof (path_matches_under A B x HA HB Hmd Hu) as Hc.
    apply under_within in Hc. congruence. }
  assert (Hmode1 : S_ISDIR (mode (nth idx rows1 zero_inode)) = true).
  { destruct Hcase as [[-> _]|(d & _ & _ & -> & _)]; [exact Hdir|].
    rewrite nth_lookup. fold (inode_at ctx idx) in Hdir.
    destruct (decide (d = idx)) as [->|Hd].
    - rewrite list_lookup_alter_eq, Hx0. cbn.
      unfold inode_at in Hdir. rewrite (nth_lookup_Some _ _ _ _ Hx0) in Hdir.
      exact Hdir.
    - rewrite list_lookup_alter_ne by exact Hd.
      unfold inode_at in Hdir. rewrite nth_lookup in Hdir. exact Hdir. }
  rewrite Hmode1 in Hrows, Hdata.
  assert (Hchildren : collect_children idx A B 0 rows1
                      = map (fun '(j, q) => (j, moved_path A B q))
                            (live_descendants A 0 (inodes ctx))).
  { rewrite <- Hlive1. apply collect_children_spec.
    intros k x Hk Hik. cbn in Hik. subst k.
    destruct (proj2 (H1 idx)) as [E|(x' & E & Hdel)].
    - rewrite E, Hx0 in Hk. injection Hk as <-. rewrite Hu0.
      apply andb_false_r.
    - rewrite E in Hk. injection Hk as <-. rewrite Hdel. reflexivity. }
  rewrite Hchildren in Hrows, Hdata.
  set (moves := map (fun '(j, q) => (j, moved_path A B q))
                    (live_descendants A 0 (inodes ctx))) in *.
  assert (Hfst : map fst moves
                 = map fst (live_descendants A 0 (inodes ctx))).
  { unfold moves. rewrite map_map. apply map_ext. intros [j q]. reflexivity. }
  assert (Hnd : NoDup (map fst moves))
    by (rewrite Hfst; apply live_descendants_NoDup).
  set (rows2 := alter (fun r => set_mtime now (set_deleted false (set_path B r)))
                      idx rows1) in *.
  assert (Hlen1 : List.length rows1 = List.length (inodes ctx)).
  { destruct Hcase as [[-> _]|(d & _ & _ & -> & _)];
      [reflexivity|apply length_alter]. }
  split; [|split].
  - (* descendants are moved *)
    intros i x rest Hx Hlive Hpath.
    assert (Hu : under A (path x) = true)
      by (apply under_spec; exists rest; exact Hpath).
    assert (Hin : In (i, moved_path A B (path x)) moves).
    { unfold moves.
      apply (in_map (fun '(j, q) => (j, moved_path A B q)) _ (i, path x)).
      apply live_descendants_spec. exists x.
      rewrite Nat.sub_0_r. repeat split; try assumption. lia. }
    rewrite Hrows, (apply_moves_hit _ _ _ _ Hnd Hin).
    assert (Hi : (i < List.length rows2)%nat).
    { unfold rows2. rewrite length_alter, Hlen1.
      apply lookup_lt_Some in Hx. exact Hx. }
    destruct (lookup_lt_is_Some_2 _ _ Hi) as [z ->].
    eexists. split; [reflexivity|]. split; [reflexivity|].
    cbn [move_row path set_deleted set_path].
    rewrite Hpath. apply moved_path_under.
  - (* nothing live is left under A *)
    intros i y Hy Hlive. rewrite Hrows in Hy.
    destruct (in_dec Nat.eq_dec i (map fst moves)) as [Hin|Hout].
    + apply in_map_iff in Hin as [[j np] [Hj Hin]]. cbn in Hj. subst j.
      rewrite (apply_moves_hit _ _ _ _ Hnd Hin) in Hy.
      destruct (rows2 !! i) as [z|]; [|discriminate Hy].
      cbn in Hy. injection Hy as <-.
      cbn [move_row path set_deleted set_path].
      unfold moves in Hin. apply in_map_iff in Hin as [[j q] [E Hq]].
      injection E as -> <-.
      apply live_descendants_spec in Hq as (x & _ & _ & _ & Hu & ->).
      apply moved_path_not_under; assumption.
    + rewrite (apply_moves_miss _ _ _ Hout) in Hy. unfold rows2 in Hy.
      destruct (decide (idx = i)) as [<-|Hi].
      * rewrite list_lookup_alter_eq in Hy.
        destruct (rows1 !! idx) as [z|]; [|discriminate Hy].
        cbn in Hy. injection Hy as <-.
        cbn [path set_mtime set_deleted set_path].
        apply not_true_iff_false. intros Hu. apply under_within in Hu.
        congruence.
      * rewrite list_lookup_alter_ne in Hy by exact Hi.
        destruct (proj2 (H1 i)) as [E|(x' & E & Hdel)].
        -- rewrite E in Hy. apply not_true_iff_false. intros Hu.
           apply Hout. rewrite Hfst.
           change i with (fst (i, path y)). apply in_map.
           apply live_descendants_spec. exists y.
           rewrite Nat.sub_0_r. repeat split; try assumption. lia.
        -- rewrite E in Hy. injection Hy as <-. congruence.
  - (* the records, the moved directory first *)
    exists unlinked. split.
    + destruct Hcase as [[_ ->]|(d & _ & _ & _ & ->)];
        [left; reflexivity|right; exists d; reflexivity].
    + rewrite Hdata. unfold moves. rewrite map_map.
      do 4 f_equal. apply map_ext. intros [j q]. reflexivity.
Qed.

Lemma rename_moves_the_subtree_of_a_directory_witness :
  let ctx' := snd (appendfs_rename rename_store "/a" "/z" 5) in
  (exists y, inodes ctx' !! 1%nat = Some y /\ deleted y = false
             /\ path y = "/z/b"%string)
  /\ (forall i y, inodes ctx' !! i = Some y -> deleted y = false ->
                  under "/a" (path y) = false)
  /\ file_size (meta_fd ctx') = file_size (meta_fd rename_store) + 23 + 25.
Proof.
  destruct (rename_moves_the_subtree_of_a_directory
              rename_store (snd (appendfs_rename rename_store "/a" "/z" 5))
              "/a" "/z" 5 0%nat) as (Hmoved & Hnone & unlinked & _ & Hlog).
  - vm_compute. reflexivity.
  - vm_compute. reflexivity.
  - vm_compute. reflexivity.
  - vm_compute. reflexivity.
  - vm_compute. reflexivity.
  - vm_compute. reflexivity.
  - split; [|split].
    + apply (Hmoved 1%nat (inode_at rename_store 1) "b"%string);
        vm_compute; reflexivity.
    + exact Hnone.
    + vm_compute. reflexivity.
Defined.

(** C7, the claim refuted.  On a store with the directory [/a] and the
    file [/a/b], [rename("/a", "/a/c")] succeeds and leaves the live rows
    [/a/c] and [/a/c/b], both under [/a/]; [rename("/a", "/a")] succeeds
    and leaves [/a/b] where it was. *)
Lemma rename_can_leave_live_rows_under_the_old_path :
  (let '(r, ctx') := appendfs_rename rename_store "/a" "/a/c" 5 in
   r = Ok tt
   /\ exists i y, inodes ctx' !! i = Some y /\ deleted y = false
                  /\ under "/a" (path y) = true)
  /\ (let '(r, ctx') := appendfs_rename rename_store "/a" "/a" 5 in
      r = Ok tt
      /\ exists i y, inodes ctx' !! i = Some y /\ deleted y = false
                     /\ under "/a" (path y) = true).
Proof.
  split.
  - vm_compute. split; [reflexivity|].
    exists 0%nat. eexists. repeat split.
  - vm_compute. split; [reflexivity|].
    exists 1%nat. eexists. repeat split.
Qed.

(** ** The changes that stay after a failed append, in general

    The evaluations for C3 and C8 are instances of the lemmas below. *)

Lemma inode_at_update_same (ctx c : appendfs_context) (idx : nat)
    (f : appendfs_inode -> appendfs_inode) :
  (idx < List.length (inodes ctx))%nat ->
  inodes c = alter f idx (inodes ctx) ->
  inode_at c idx = f (inode_at ctx idx).
Proof.
  intros Hlt Hc. unfold inode_at. rewrite Hc, !nth_lookup.
  rewrite list_lookup_alter_eq.
  destruct (lookup_lt_is_Some_2 (inodes ctx) idx Hlt) as [x ->].
  reflexivity.
Qed.

(** [unlink] that fails in the record append leaves the row tombstoned. *)
Lemma unlink_failure_keeps_the_tombstone (ctx ctx2 : appendfs_context)
    (p : string) (idx : nat) (e : errno) :
  find_inode_by_path ctx p = Some idx ->
  S_ISDIR (mode (inode_at ctx idx)) = false ->
  append_unlink_record (update_inode idx (set_deleted true) ctx)
    (inode_at (update_inode idx (set_deleted true) ctx) idx) = (Err e, ctx2) ->
  appendfs_unlink ctx p = (Err e, ctx2)
  /\ deleted (inode_at ctx2 idx) = true.
Proof.
  intros Hfind Hdir Happ. split.
  - unfold appendfs_unlink. rewrite Hfind, Hdir, Happ. reflexivity.
  - apply write_record_inodes in Happ.
    rewrite (inode_at_update_same ctx ctx2 idx (set_deleted true));
      [reflexivity| |exact Happ].
    apply (find_inode_by_path_lt _ _ _ Hfind).
Qed.

(** [truncate] that fails in the record append leaves the new size. *)
Lemma truncate_failure_keeps_the_size (ctx ctx2 : appendfs_context)
    (p : string) (size now : Z) (idx : nat) (e : errno) :
  find_inode_by_path ctx p = Some idx ->
  S_ISREG (mode (inode_at ctx idx)) || S_ISLNK (mode (inode_at ctx idx))
  = true ->
  append_truncate_record (update_inode idx (set_isize size) ctx)
    (inode_at (update_inode idx (set_isize size) ctx) idx) = (Err e, ctx2) ->
  appendfs_truncate ctx p size now = (Err e, ctx2)
  /\ isize (inode_at ctx2 idx) = size.
Proof.
  intros Hfind Hmode Happ. split.
  - unfold appendfs_truncate. rewrite Hfind.
    apply orb_true_iff in Hmode.
    replace (negb (S_ISREG (mode (inode_at ctx idx)))
             && negb (S_ISLNK (mode (inode_at ctx idx)))) with false
      by (destruct Hmode as [-> | ->]; cbn; rewrite ?andb_false_r;
          reflexivity).
    rewrite Happ. reflexivity.
  - apply write_record_inodes in Happ.
    rewrite (inode_at_update_same ctx ctx2 idx (set_isize size));
      [reflexivity| |exact Happ].
    apply (find_inode_by_path_lt _ _ _ Hfind).
Qed.

(** A successful [create_file] adds one row, whose mode is the argument
    or-ed with S_IFREG, all bits of the argument kept. *)
Lemma create_file_stores_the_mode_unmasked (ctx ctx' : appendfs_context)
    (p : string) (m now : Z) :
  appendfs_create_file ctx p m now = (Ok tt, ctx') ->
  inodes ctx'
  = inodes ctx
    ++ [mkInode (next_inode_id ctx) (normalize_path_copy p) (Z.lor S_IFREG m)
                0 now now now false [] None []].
Proof.
  unfold appendfs_create_file. intros H.
  rewrite find_inode_by_path_normalized in H.
  destruct (find_inode_by_path ctx p) as [e|] eqn:Ef.
  - (* a row that is found is live *)
    destruct (find_inode_by_path_matches _ _ _ Ef) as (x & Hx & Hm).
    unfold path_matches in Hm. apply andb_true_iff in Hm as [Hlive _].
    apply negb_true_iff in Hlive.
    unfold inode_at in H. rewrite (nth_lookup_Some _ _ _ _ Hx), Hlive in H.
    discriminate H.
  - destruct (split_path (normalize_path_copy p)) as [parent|e];
      [|discriminate H].
    destruct (negb (String.eqb parent "/")
              && negb (parent_is_live_dir ctx parent)); [discriminate H|].
    unfold create_inode in H. rewrite normalize_path_copy_idem in H.
    unfold append_create_record in H.
    match type of H with
    | context [write_record ?c ?t ?pl] =>
        destruct (write_record c t pl) as [[[]|e] ctx3] eqn:E;
          [|discriminate H]
    end.
    injection H as <-. apply write_record_inodes in E. rewrite E.
    cbn [inodes update_inode set_inodes set_next_inode_id].
    rewrite alter_app_r_alt by lia. rewrite Nat.sub_diag. reflexivity.
Qed.

(** * Further properties *)

(** ** CRC32 stays within 32 bits *)

Lemma lxor_below_pow2 (n a b : Z) :
  0 <= n -> 0 <= a < 2 ^ n -> 0 <= b < 2 ^ n -> 0 <= Z.lxor a b < 2 ^ n.
Proof.
  intros Hn Ha Hb.
  assert (Hnn : 0 <= Z.lxor a b) by (apply Z.lxor_nonneg; lia).
  split; [exact Hnn|].
  destruct (Z.eq_dec (Z.lxor a b) 0) as [E|E];
    [rewrite E; apply Z.pow_pos_nonneg; lia|].
  assert (Hpos : 0 < n).
  { destruct (Z.eq_dec n 0) as [->|]; [|lia].
    change (2 ^ 0) with 1 in Ha, Hb.
    assert (a = 0) as -> by lia. assert (b = 0) as -> by lia.
    exfalso. apply E. reflexivity. }
  apply Z.log2_lt_pow2; [lia|].
  eapply Z.le_lt_trans; [apply Z.log2_lxor; lia|].
  apply Z.max_lub_lt.
  - destruct (Z.eq_dec a 0) as [->|]; [cbn; lia|].
    apply Z.log2_lt_pow2; lia.
  - destruct (Z.eq_dec b 0) as [->|]; [cbn; lia|].
    apply Z.log2_lt_pow2; lia.
Qed.

Lemma shiftr_below (c k : Z) :
  0 <= k -> 0 <= c < 2 ^ 32 -> 0 <= Z.shiftr c k < 2 ^ 32.
Proof.
  intros Hk Hc. rewrite Z.shiftr_div_pow2 by lia.
  assert (0 < 2 ^ k) by (apply Z.pow_pos_nonneg; lia).
  split; [apply Z.div_pos; lia|].
  eapply Z.le_lt_trans; [apply Z.div_le_upper_bound with (q := c); nia|lia].
Qed.

Lemma crc_round_below (j : nat) :
  forall c, 0 <= c < 2 ^ 32 -> 0 <= crc_round j c < 2 ^ 32.
Proof.
  induction j as [|j IH]; intros c Hc; [exact Hc|].
  cbn [crc_round]. apply IH.
  destruct (Z.testbit c 0).
  - apply lxor_below_pow2; [lia|lia|apply shiftr_below; lia].
  - apply shiftr_below; lia.
Qed.

Lemma crc_fold_below (data : list byte) :
  forall c,
    0 <= c < 2 ^ 32 ->
    0 <= fold_left
           (fun c b =>
              Z.lxor (crc_table (Z.land (Z.lxor c (Z_of_byte b)) 255))
                     (Z.shiftr c 8)) data c < 2 ^ 32.
Proof.
  induction data as [|b data IH]; intros c Hc; [exact Hc|].
  cbn [fold_left]. apply IH.
  pose proof (Z_of_byte_range b) as Hb.
  apply lxor_below_pow2; [lia| |apply shiftr_below; lia].
  apply crc_round_below.
  change 255 with (Z.ones 8). rewrite Z.land_ones by lia.
  pose proof (Z.mod_pos_bound (Z.lxor c (Z_of_byte b)) (2 ^ 8)). lia.
Qed.

(** X1.  The checksum of any byte string is a 32-bit value, so it always
    fits the four header bytes [write_record] stores it in. *)
Theorem crc32_fits_32_bits :
  forall data : list byte, 0 <= appendfs_crc32 data < 2 ^ 32.
Proof.
  intros data. unfold appendfs_crc32.
  apply lxor_below_pow2; [lia| |lia].
  apply crc_fold_below. lia.
Qed.

(** ** Fields of a payload *)

Lemma length_bytes_of_string (s : string) :
  List.length (bytes_of_string s) = String.length s.
Proof.
  unfold bytes_of_string, list_byte_of_string.
  rewrite length_map. induction s as [|c s IH]; cbn; [|rewrite IH];
    reflexivity.
Qed.

Lemma zlen_bytes_of_string (s : string) : zlen (bytes_of_string s) = strlen s.
Proof. unfold zlen, strlen. rewrite length_bytes_of_string. reflexivity. Qed.

Lemma zlen_le_encode (n : nat) (x : Z) : zlen (le_encode n x) = Z.of_nat n.
Proof. unfold zlen. rewrite length_le_encode. reflexivity. Qed.

Lemma slice_skip (a r : list byte) (off n : Z) :
  zlen a <= off -> slice (a ++ r) off n = slice r (off - zlen a) n.
Proof.
  intros H. unfold slice, zlen in *. f_equal.
  rewrite drop_app_ge by lia. f_equal. lia.
Qed.

Lemma slice_here (a r : list byte) (off n : Z) :
  off = 0 -> n = zlen a -> slice (a ++ r) off n = a.
Proof.
  intros -> ->. unfold slice, zlen. cbn [Z.to_nat drop].
  rewrite Nat2Z.id. apply take_app_length.
Qed.

Lemma field_skip (a r : list byte) (off n : Z) :
  zlen a <= off -> field (a ++ r) off n = field r (off - zlen a) n.
Proof. intros H. unfold field. rewrite slice_skip by exact H. reflexivity. Qed.

Lemma field_here (k : nat) (x : Z) (r : list byte) (off n : Z) :
  off = 0 -> n = Z.of_nat k ->
  field (le_encode k x ++ r) off n = x mod 2 ^ (8 * Z.of_nat k).
Proof.
  intros Ho Hn. unfold field.
  rewrite slice_here by (rewrite ?zlen_le_encode; assumption).
  apply le_decode_encode.
Qed.

Lemma s64_of_mod (x : Z) : - 2 ^ 63 <= x < 2 ^ 63 -> s64 (x mod 2 ^ 64) = x.
Proof.
  intros H. unfold s64.
  rewrite Zplus_mod_idemp_l. rewrite Z.mod_small; lia.
Qed.

Lemma byte_of_ascii_nul (c : ascii) :
  Byte.eqb (byte_of_ascii c) x00 = true -> c = Ascii.zero.
Proof.
  intros H. apply Byte.byte_dec_bl in H.
  rewrite <- (ascii_of_byte_of_ascii c), H. reflexivity.
Qed.

Lemma until_nul_c_string (s : string) :
  c_string s = true -> until_nul (bytes_of_string s) = bytes_of_string s.
Proof.
  unfold bytes_of_string, list_byte_of_string.
  induction s as [|c s IH]; intros H; [reflexivity|].
  cbn [c_string] in H. apply andb_true_iff in H as [Hc Hs].
  cbn [list_ascii_of_string map until_nul].
  destruct (Byte.eqb (byte_of_ascii c) x00) eqn:E.
  - apply byte_of_ascii_nul in E. subst c. discriminate Hc.
  - rewrite IH by exact Hs. reflexivity.
Qed.

Lemma strndup_here (s : string) (r : list byte) (off n : Z) :
  c_string s = true -> off = 0 -> n = strlen s ->
  strndup (bytes_of_string s ++ r) off n = s.
Proof.
  intros Hs Ho Hn. unfold strndup.
  rewrite slice_here by (rewrite ?zlen_bytes_of_string; assumption).
  rewrite until_nul_c_string by exact Hs.
  apply string_of_list_byte_of_string.
Qed.

Lemma strndup_skip (a r : list byte) (off n : Z) :
  zlen a <= off -> strndup (a ++ r) off n = strndup r (off - zlen a) n.
Proof. intros H. unfold strndup. rewrite slice_skip by exact H. reflexivity. Qed.

(** ** Replay reads rows only through what is durable *)

Lemma record_of_well_framed (type : Z) (payload : list byte) :
  well_framed (record_of type payload).
Proof.
  unfold well_framed, record_of. cbn [rec_payload rec_checksum]. split.
  - rewrite zlen_record_body. unfold u32.
    pose proof (Z.mod_pos_bound (zlen payload) (2 ^ 32)). lia.
  - unfold appendfs_crc32. apply lxor_below_pow2; [lia| |lia].
    apply crc_fold_below. lia.
Qed.

Lemma record_of_checksum_ok (type : Z) (payload : list byte) :
  checksum_ok (record_of type payload) = true.
Proof. unfold checksum_ok, record_of. cbn. apply Z.eqb_refl. Qed.

Lemma cons_eq_inv {A} (x y : A) (l l' : list A) :
  x :: l = y :: l' -> x = y /\ l = l'.
Proof. intros H. injection H as H1 H2. split; assumption. Qed.

Lemma without_times_alter (f : appendfs_inode -> appendfs_inode) :
  time_blind f ->
  forall (k : nat) (l1 l2 : list appendfs_inode),
    map without_times l1 = map without_times l2 ->
    map without_times (alter f k l1) = map without_times (alter f k l2).
Proof.
  intros Hf k l1. revert k.
  induction l1 as [|a l1 IH]; intros k [|b l2] H; try discriminate H;
    [reflexivity|].
  cbn [map] in H. apply cons_eq_inv in H as [Hab Hl].
  destruct k as [|k]; cbn [alter list_alter map].
  - rewrite Hl. f_equal. rewrite (Hf a), (Hf b), Hab. reflexivity.
  - rewrite Hab. f_equal. apply IH. exact Hl.
Qed.

Lemma find_by_id_without_times (id : Z) (l1 : list appendfs_inode) :
  forall l2,
    map without_times l1 = map without_times l2 ->
    find_index (fun i => inode_id i =? id) l1
    = find_index (fun i => inode_id i =? id) l2.
Proof.
  induction l1 as [|a l1 IH]; intros [|b l2] H; try discriminate H;
    [reflexivity|].
  cbn [map] in H. apply cons_eq_inv in H as [Hab Hl]. cbn [find_index].
  assert (E : inode_id a = inode_id b)
    by (change (inode_id (without_times a) = inode_id (without_times b));
        rewrite Hab; reflexivity).
  rewrite E, (IH l2 Hl). reflexivity.
Qed.

Lemma durable_inv (c1 c2 : appendfs_context) :
  durable c1 = durable c2 ->
  map without_times (inodes c1) = map without_times (inodes c2)
  /\ next_inode_id c1 = next_inode_id c2.
Proof. unfold durable. intros H. injection H as H1 H2. split; assumption. Qed.

Lemma find_inode_by_id_durable (c1 c2 : appendfs_context) (id : Z) :
  durable c1 = durable c2 -> find_inode_by_id c1 id = find_inode_by_id c2 id.
Proof.
  intros H. apply durable_inv in H as [H _].
  apply find_by_id_without_times. exact H.
Qed.

Lemma update_inode_durable (c1 c2 : appendfs_context) (k : nat)
    (f : appendfs_inode -> appendfs_inode) :
  time_blind f -> durable c1 = durable c2 ->
  durable (update_inode k f c1) = durable (update_inode k f c2).
Proof.
  intros Hf H. apply durable_inv in H as [H1 H2].
  unfold durable, update_inode. cbn. rewrite H2. f_equal.
  apply without_times_alter; assumption.
Qed.

Lemma durable_set_meta_fd (f : file) (c : appendfs_context) :
  durable (set_meta_fd f c) = durable c.
Proof. reflexivity. Qed.

Lemma durable_next_cond (a b : appendfs_context) (id v : Z) :
  durable a = durable b ->
  durable (if next_inode_id a <=? id then set_next_inode_id v a else a)
  = durable (if next_inode_id b <=? id then set_next_inode_id v b else b).
Proof.
  intros H. pose proof (durable_inv _ _ H) as [H1 H2]. rewrite H2.
  destruct (next_inode_id b <=? id); [|exact H].
  unfold durable. cbn. rewrite H1. reflexivity.
Qed.

Lemma durable_append_row (a b : appendfs_context) (z : appendfs_inode) :
  durable a = durable b ->
  durable (set_inodes (inodes a ++ [z]) a)
  = durable (set_inodes (inodes b ++ [z]) b).
Proof.
  intros H. apply durable_inv in H as [H1 H2].
  unfold durable. cbn. rewrite !map_app, H1, H2. reflexivity.
Qed.

Lemma durable_length (a b : appendfs_context) :
  durable a = durable b ->
  List.length (inodes a) = List.length (inodes b).
Proof.
  intros H. apply durable_inv in H as [H1 _].
  rewrite <- (length_map without_times (inodes a)), H1.
  apply length_map.
Qed.

Lemma apply_create_durable (c1 c2 : appendfs_context) (p : list byte) :
  durable c1 = durable c2 ->
  durable (apply_create c1 p) = durable (apply_create c2 p).
Proof.
  intros H. unfold apply_create.
  destruct (zlen p <? 28); [exact H|].
  destruct (32 + field p 28 4 >? zlen p); [exact H|].
  rewrite (find_inode_by_id_durable c1 c2 _ H).
  destruct (find_inode_by_id c2 (field p 0 8)) as [i|].
  - apply durable_next_cond. apply update_inode_durable.
    + intros x. destruct x. cbn.
      destruct (S_ISLNK _ && _); [|reflexivity].
      destruct (_ <=? _); reflexivity.
    + apply update_inode_durable; [|exact H].
      intros x. destruct x. reflexivity.
  - rewrite (durable_length _ _ H).
    apply durable_next_cond. apply update_inode_durable.
    + intros x. destruct x. cbn.
      destruct (S_ISLNK _ && _); [|reflexivity].
      destruct (_ <=? _); reflexivity.
    + apply durable_append_row. exact H.
Qed.

Ltac by_id_durable H :=
  rewrite (find_inode_by_id_durable _ _ _ H);
  match goal with
  | |- context [find_inode_by_id ?c ?id] =>
      destruct (find_inode_by_id c id); [|exact H]
  end;
  apply update_inode_durable; [|exact H].

Lemma apply_extent_durable (c1 c2 : appendfs_context) (p : list byte) :
  durable c1 = durable c2 ->
  durable (apply_extent c1 p) = durable (apply_extent c2 p).
Proof.
  intros H. unfold apply_extent.
  destruct (zlen p <? 36); [exact H|]. by_id_durable H.
  intros x. destruct x. cbn. destruct (_ >? _); reflexivity.
Qed.

Lemma apply_truncate_durable (c1 c2 : appendfs_context) (p : list byte) :
  durable c1 = durable c2 ->
  durable (apply_truncate c1 p) = durable (apply_truncate c2 p).
Proof.
  intros H. unfold apply_truncate.
  destruct (zlen p <? 16); [exact H|]. by_id_durable H.
  intros x. destruct x. reflexivity.
Qed.

Lemma apply_unlink_durable (c1 c2 : appendfs_context) (p : list byte) :
  durable c1 = durable c2 ->
  durable (apply_unlink c1 p) = durable (apply_unlink c2 p).
Proof.
  intros H. unfold apply_unlink.
  destruct (zlen p <? 8); [exact H|]. by_id_durable H.
  intros x. destruct x. reflexivity.
Qed.

Lemma apply_rename_durable (c1 c2 : appendfs_context) (p : list byte) :
  durable c1 = durable c2 ->
  durable (apply_rename c1 p) = durable (apply_rename c2 p).
Proof.
  intros H. unfold apply_rename.
  destruct (zlen p <? 12); [exact H|].
  destruct (12 + field p 8 4 >? zlen p); [exact H|]. by_id_durable H.
  intros x. destruct x. reflexivity.
Qed.

Lemma apply_setxattr_durable (c1 c2 : appendfs_context) (p : list byte) :
  durable c1 = durable c2 ->
  durable (apply_setxattr c1 p) = durable (apply_setxattr c2 p).
Proof.
  intros H. unfold apply_setxattr.
  destruct (zlen p <? 16); [exact H|].
  destruct (_ >? zlen p); [exact H|]. by_id_durable H.
  intros x. destruct x. unfold set_xattr_internal, find_xattr. cbn.
  destruct (find_index _ _); reflexivity.
Qed.

Lemma apply_removexattr_durable (c1 c2 : appendfs_context) (p : list byte) :
  durable c1 = durable c2 ->
  durable (apply_removexattr c1 p) = durable (apply_removexattr c2 p).
Proof.
  intros H. unfold apply_removexattr.
  destruct (zlen p <? 12); [exact H|].
  destruct (_ >? zlen p); [exact H|]. by_id_durable H.
  intros x. destruct x. unfold remove_xattr_internal, find_xattr. cbn.
  destruct (find_index _ _); reflexivity.
Qed.

Lemma apply_times_durable (c1 c2 : appendfs_context) (p : list byte) :
  durable c1 = durable c2 ->
  durable (apply_times c1 p) = durable (apply_times c2 p).
Proof.
  intros H. unfold apply_times.
  destruct (zlen p <? 24); [exact H|]. by_id_durable H.
  intros x. destruct x. reflexivity.
Qed.

Lemma apply_record_durable (c1 c2 : appendfs_context) (type : Z)
    (p : list byte) :
  durable c1 = durable c2 ->
  durable (apply_record c1 type p) = durable (apply_record c2 type p).
Proof.
  intros H. unfold apply_record.
  repeat match goal with
         | |- context [if ?b then _ else _] => destruct b
         end;
    auto using apply_create_durable, apply_extent_durable,
      apply_truncate_durable, apply_unlink_durable, apply_rename_durable,
      apply_setxattr_durable, apply_removexattr_durable, apply_times_durable.
Qed.

Lemma fold_apply_if_valid_durable (rs : list log_record) :
  forall c1 c2,
    durable c1 = durable c2 ->
    durable (fold_left apply_if_valid rs c1)
    = durable (fold_left apply_if_valid rs c2).
Proof.
  induction rs as [|r rs IH]; intros c1 c2 H; [exact H|].
  cbn [fold_left]. apply IH. unfold apply_if_valid.
  destruct (checksum_ok r); [|exact H].
  apply apply_record_durable. exact H.
Qed.

Lemma encode_log_snoc (rs : list log_record) (r : log_record) :
  encode_log (rs ++ [r]) = encode_log rs ++ frame r.
Proof.
  unfold encode_log. rewrite map_app, concat_app. cbn.
  rewrite app_nil_r. reflexivity.
Qed.

(** Reopening replays the records of an intact log over an empty table. *)
Lemma reopen_frames (c : appendfs_context) (rs : list log_record) :
  Forall well_framed rs ->
  f_data (meta_fd c) = encode_log rs ->
  durable (reopen c)
  = durable (fold_left apply_if_valid rs (unopened [] 0)).
Proof.
  intros Hrs Hlog. unfold reopen, appendfs_open.
  rewrite (replay_metadata_frames rs) by (try exact Hrs; exact Hlog).
  rewrite durable_set_meta_fd.
  apply fold_apply_if_valid_durable. reflexivity.
Qed.

(** One more record at the end of the log is one more record applied. *)
Lemma reopen_after_record (c c1 c2 : appendfs_context) (type : Z)
    (payload : list byte) :
  consistent c ->
  meta_fd c1 = meta_fd c ->
  write_record c1 type payload = (Ok tt, c2) ->
  zlen payload < 2 ^ 32 -> 0 <= type < 256 ->
  log_intact c2
  /\ durable (reopen c2) = durable (apply_record c type payload).
Proof.
  intros [[Hpos (rs & Hrs & Hlog)] Hc] Hfd Hw Hlen Hty.
  rewrite <- Hfd in Hpos, Hlog.
  destruct (write_record_Ok_inv _ _ _ _ Hw Hpos) as (_ & Hdata & Hpos2).
  assert (Hlog2 : f_data (meta_fd c2)
                  = encode_log (rs ++ [record_of type payload]))
    by (rewrite encode_log_snoc, <- Hlog; exact Hdata).
  assert (Hrs2 : Forall well_framed (rs ++ [record_of type payload])).
  { apply Forall_app. split; [exact Hrs|].
    constructor; [apply record_of_well_framed|constructor]. }
  split.
  - split; [exact Hpos2|]. eexists. split; [exact Hrs2|exact Hlog2].
  - rewrite (reopen_frames c2 _ Hrs2 Hlog2).
    rewrite fold_left_app. cbn [fold_left]. unfold apply_if_valid at 1.
    rewrite record_of_checksum_ok.
    unfold record_of at 1 2. cbn [rec_type rec_payload].
    rewrite Z_of_byte_of_Z, (Z.mod_small type) by lia.
    unfold u32.
    rewrite (Z.mod_small (zlen payload))
      by (pose proof (zlen_nonneg payload); lia).
    unfold zlen. rewrite Nat2Z.id, firstn_all.
    apply apply_record_durable.
    rewrite <- Hc. symmetry. apply reopen_frames; [exact Hrs|].
    rewrite <- Hfd. exact Hlog.
Qed.

(** ** What replay makes of the records the operations append *)

Lemma field_whole (k : nat) (x : Z) (n : Z) :
  n = Z.of_nat k -> field (le_encode k x) 0 n = x mod 2 ^ (8 * Z.of_nat k).
Proof.
  intros Hn. rewrite <- (app_nil_r (le_encode k x)).
  apply field_here; [reflexivity|exact Hn].
Qed.

Ltac zlen_simpl :=
  rewrite ?zlen_app, ?zlen_le_encode, ?zlen_bytes_of_string;
  change (Z.of_nat 8) with 8; change (Z.of_nat 4) with 4.

Ltac decode_at :=
  repeat first
    [ rewrite field_skip by (zlen_simpl; lia)
    | rewrite strndup_skip by (zlen_simpl; lia)
    | rewrite slice_skip by (zlen_simpl; lia) ];
  zlen_simpl.

Lemma u32_small (x : Z) : 0 <= x < 2 ^ 32 -> u32 x = x.
Proof. intros H. unfold u32. apply Z.mod_small. exact H. Qed.

Lemma strlen_nonneg (s : string) : 0 <= strlen s.
Proof. unfold strlen. lia. Qed.

Lemma take_zlen {A} (l : list A) : take (Z.to_nat (zlen l)) l = l.
Proof. unfold zlen. rewrite Nat2Z.id. apply firstn_all. Qed.

Lemma mod64_s64 (x : Z) : - 2 ^ 63 <= x < 2 ^ 63 -> s64 (u64 x mod 2 ^ 64) = x.
Proof.
  intros H. unfold u64. rewrite Z.mod_mod by lia. apply s64_of_mod. exact H.
Qed.

Lemma apply_create_payload (ctx : appendfs_context) (row : appendfs_inode) :
  0 <= inode_id row < 2 ^ 64 ->
  0 <= mode row < 2 ^ 32 ->
  - 2 ^ 63 <= isize row < 2 ^ 63 ->
  - 2 ^ 63 <= mtime row < 2 ^ 63 ->
  c_string (path row) = true ->
  strlen (path row) < 2 ^ 32 ->
  match symlink_target row with
  | Some t => c_string t = true /\ strlen t < 2 ^ 32
  | None => True
  end ->
  find_inode_by_id ctx (inode_id row) = None ->
  apply_create ctx (create_payload row)
  = let c' :=
      set_inodes
        (inodes ctx
         ++ [mkInode (inode_id row) (path row) (mode row) (isize row)
               (mtime row) (mtime row) (mtime row) false []
               (if S_ISLNK (mode row) then symlink_target row else None) []])
        ctx in
    if next_inode_id ctx <=? inode_id row
    then set_next_inode_id (u64 (inode_id row + 1)) c' else c'.
Proof.
  intros Hid Hm Hsz Hts Hp Hpl Ht Hfresh.
  pose proof (strlen_nonneg (path row)) as Hpl0.
  pose (tail := match symlink_target row with
                | Some t =>
                    if S_ISLNK (mode row)
                    then le_encode 4 (strlen t) ++ bytes_of_string t else []
                | None => []
                end).
  assert (EP : create_payload row
               = le_encode 8 (inode_id row) ++ le_encode 4 (mode row)
                 ++ le_encode 8 (u64 (isize row))
                 ++ le_encode 8 (u64 (mtime row))
                 ++ le_encode 4 (strlen (path row))
                 ++ bytes_of_string (path row) ++ tail).
  { unfold create_payload, tail.
    rewrite (u32_small (mode row)), (u32_small (strlen (path row))) by lia.
    destruct (symlink_target row) as [t|]; [|reflexivity].
    destruct (S_ISLNK (mode row)); [|reflexivity].
    destruct Ht as [_ Ht]. pose proof (strlen_nonneg t).
    rewrite (u32_small (strlen t)) by lia.
    rewrite <- (zlen_bytes_of_string t), take_zlen. reflexivity. }
  assert (EL : zlen (create_payload row)
               = 32 + strlen (path row) + zlen tail)
    by (rewrite EP; zlen_simpl; lia).
  pose proof (zlen_nonneg tail) as Htl.
  assert (F0 : field (create_payload row) 0 8 = inode_id row)
    by (rewrite EP, field_here by reflexivity; apply Z.mod_small; exact Hid).
  assert (F8 : field (create_payload row) 8 4 = mode row)
    by (rewrite EP; decode_at; rewrite field_here by lia;
        apply Z.mod_small; exact Hm).
  assert (F12 : s64 (field (create_payload row) 12 8) = isize row)
    by (rewrite EP; decode_at; rewrite field_here by lia;
        apply mod64_s64; exact Hsz).
  assert (F20 : s64 (field (create_payload row) 20 8) = mtime row)
    by (rewrite EP; decode_at; rewrite field_here by lia;
        apply mod64_s64; exact Hts).
  assert (F28 : field (create_payload row) 28 4 = strlen (path row))
    by (rewrite EP; decode_at; rewrite field_here by lia;
        apply Z.mod_small; lia).
  assert (FP : strndup (create_payload row) 32 (strlen (path row))
               = path row)
    by (rewrite EP; decode_at; apply strndup_here; [exact Hp|lia|lia]).
  assert (FT : (if S_ISLNK (mode row)
                   && (32 + strlen (path row) + 4
                       <=? zlen (create_payload row))
                then
                  if 32 + strlen (path row) + 4
                     + field (create_payload row)
                         (32 + strlen (path row)) 4
                     <=? zlen (create_payload row)
                  then Some (strndup (create_payload row)
                               (32 + strlen (path row) + 4)
                               (field (create_payload row)
                                  (32 + strlen (path row)) 4))
                  else None
                else None)
               = if S_ISLNK (mode row) then symlink_target row else None).
  { destruct (S_ISLNK (mode row)) eqn:EL'; [|reflexivity].
    cbn [andb]. destruct (symlink_target row) as [t|] eqn:ET.
    - destruct Ht as [Hc Ht]. pose proof (strlen_nonneg t).
      assert (Etail : tail = le_encode 4 (strlen t) ++ bytes_of_string t)
        by (unfold tail; rewrite ?ET, ?EL'; reflexivity).
      assert (Eztail : zlen tail = 4 + strlen t)
        by (rewrite Etail; zlen_simpl; lia).
      assert (FL : field (create_payload row) (32 + strlen (path row)) 4
                   = strlen t)
        by (rewrite EP, Etail; decode_at; rewrite field_here by lia;
            apply Z.mod_small; lia).
      rewrite FL.
      replace (32 + strlen (path row) + 4 <=? zlen (create_payload row))
        with true by (symmetry; apply Z.leb_le; lia).
      replace (32 + strlen (path row) + 4 + strlen t
               <=? zlen (create_payload row))
        with true by (symmetry; apply Z.leb_le; lia).
      f_equal. rewrite EP, Etail. decode_at.
      rewrite <- (app_nil_r (bytes_of_string t)).
      apply strndup_here; [exact Hc|lia|lia].
    - assert (Eztail : zlen tail = 0)
        by (unfold tail; rewrite ?ET; reflexivity).
      replace (32 + strlen (path row) + 4 <=? zlen (create_payload row))
        with false by (symmetry; apply Z.leb_gt; lia).
      reflexivity. }
  unfold apply_create.
  rewrite F0, F8, F12, F20, F28, FP, FT, Hfresh.
  replace (zlen (create_payload row) <? 28) with false
    by (symmetry; apply Z.ltb_ge; lia).
  replace (32 + strlen (path row) >? zlen (create_payload row)) with false
    by (symmetry; apply gtb_false; lia).
  unfold update_inode. cbn [inodes set_inodes next_inode_id].
  rewrite alter_app_r_alt by lia. rewrite Nat.sub_diag.
  cbn [alter list_alter].
  destruct (S_ISLNK (mode row)); [destruct (symlink_target row)|];
    reflexivity.
Qed.

(** ** Fresh ids *)

Lemma ids_fresh_find_next (c : appendfs_context) :
  ids_fresh c -> find_inode_by_id c (next_inode_id c) = None.
Proof.
  intros (_ & Hb & _). apply find_index_None_intro. intros x Hx.
  rewrite List.Forall_forall in Hb.
  specialize (Hb (inode_id x) (in_map inode_id _ _ Hx)).
  apply Z.eqb_neq. lia.
Qed.

Lemma find_index_NoDup_key {A} (key : A -> Z) (l : list A) :
  NoDup (map key l) ->
  forall i x, l !! i = Some x ->
    find_index (fun y => key y =? key x) l = Some i.
Proof.
  induction l as [|a l IH]; intros Hnd i x Hx; [discriminate Hx|].
  cbn [map] in Hnd. apply NoDup_cons in Hnd as [Hnotin Hnd].
  destruct i as [|i]; cbn in Hx.
  - injection Hx as ->. cbn [find_index]. rewrite Z.eqb_refl. reflexivity.
  - cbn [find_index]. destruct (key a =? key x) eqn:E.
    + apply Z.eqb_eq in E. exfalso. apply Hnotin. rewrite E.
      apply list_elem_of_In, in_map, list_elem_of_In.
      eapply list_elem_of_lookup_2. exact Hx.
    + rewrite (IH Hnd i x Hx). reflexivity.
Qed.

Lemma ids_fresh_find_row (c : appendfs_context) (idx : nat) :
  ids_fresh c -> (idx < List.length (inodes c))%nat ->
  find_inode_by_id c (inode_id (inode_at c idx)) = Some idx.
Proof.
  intros (Hnd & _) Hlt. unfold find_inode_by_id.
  apply (find_index_NoDup_key inode_id); [exact Hnd|].
  apply lookup_nth_inode. exact Hlt.
Qed.

Lemma ids_fresh_row_range (c : appendfs_context) (idx : nat) :
  ids_fresh c -> (idx < List.length (inodes c))%nat ->
  0 <= inode_id (inode_at c idx) < 2 ^ 64.
Proof.
  intros (_ & Hb & Hn) Hlt. rewrite List.Forall_forall in Hb.
  assert (Hin : In (inode_id (inode_at c idx)) (map inode_id (inodes c))).
  { apply in_map. unfold inode_at. apply nth_In. exact Hlt. }
  specialize (Hb _ Hin). lia.
Qed.

Lemma ids_fresh_ext (c c' : appendfs_context) :
  map inode_id (inodes c') = map inode_id (inodes c) ->
  next_inode_id c' = next_inode_id c ->
  ids_fresh c -> ids_fresh c'.
Proof. unfold ids_fresh. intros -> ->. exact (fun H => H). Qed.

Lemma ids_fresh_append (c : appendfs_context) (row : appendfs_inode) :
  ids_fresh c -> next_inode_id c + 1 < 2 ^ 64 ->
  inode_id row = next_inode_id c ->
  ids_fresh (set_next_inode_id (u64 (next_inode_id c + 1))
               (set_inodes (inodes c ++ [row]) c)).
Proof.
  intros (Hnd & Hb & Hn) Hw Hid. unfold ids_fresh.
  cbn [inodes next_inode_id set_next_inode_id set_inodes].
  rewrite u64_small by lia. rewrite map_app. cbn [map].
  rewrite List.Forall_forall in Hb. split; [|split].
  - apply NoDup_app. split; [exact Hnd|]. split.
    + intros x Hx Hx'. apply list_elem_of_singleton in Hx'. subst x.
      apply list_elem_of_In in Hx. specialize (Hb _ Hx). lia.
    + apply NoDup_singleton.
  - apply Forall_app. split.
    + rewrite List.Forall_forall. intros x Hx.
      specialize (Hb _ Hx). lia.
    + constructor; [lia|constructor].
  - lia.
Qed.

Lemma ids_fresh_write_record (c c' : appendfs_context) (type : Z)
    (payload : list byte) (r : result unit) :
  write_record c type payload = (r, c') -> ids_fresh c -> ids_fresh c'.
Proof.
  intros H. apply write_record_frame in H. rewrite H.
  apply ids_fresh_ext; reflexivity.
Qed.

Lemma durable_write_record (c c' : appendfs_context) (type : Z)
    (payload : list byte) (r : result unit) :
  write_record c type payload = (r, c') -> durable c' = durable c.
Proof. intros H. apply write_record_frame in H. rewrite H. reflexivity. Qed.

(** ** Paths and modes that fit their fields *)

Lemma c_string_normalize (p : string) :
  c_string p = true -> c_string (normalize_path_copy p) = true.
Proof.
  intros H. unfold normalize_path_copy.
  destruct (Ascii.eqb (char_at p 0) slash); [exact H|].
  cbn [c_string]. rewrite H. reflexivity.
Qed.

Lemma strlen_normalize (p : string) :
  strlen p <= strlen (normalize_path_copy p) <= strlen p + 1.
Proof.
  unfold normalize_path_copy, strlen.
  destruct (Ascii.eqb (char_at p 0) slash); cbn [String.length]; lia.
Qed.

Lemma lor_below_pow2 (n a b : Z) :
  0 <= n -> 0 <= a < 2 ^ n -> 0 <= b < 2 ^ n -> 0 <= Z.lor a b < 2 ^ n.
Proof.
  intros Hn Ha Hb.
  assert (H0 : 0 <= Z.lor a b) by (apply Z.lor_nonneg; lia).
  split; [exact H0|].
  destruct (Z.eq_dec (Z.lor a b) 0) as [E|E]; [rewrite E; lia|].
  assert (Hpos : 0 < n).
  { destruct (Z.eq_dec n 0) as [->|]; [|lia].
    assert (a = 0) by (change (2 ^ 0) with 1 in Ha; lia).
    assert (b = 0) by (change (2 ^ 0) with 1 in Hb; lia).
    subst. exfalso. apply E. reflexivity. }
  apply Z.log2_lt_pow2; [lia|]. rewrite Z.log2_lor by lia.
  destruct (Z.eq_dec a 0) as [->|]; destruct (Z.eq_dec b 0) as [->|].
  - cbn. lia.
  - rewrite Z.max_r by (cbn; apply Z.log2_nonneg).
    apply Z.log2_lt_pow2; lia.
  - rewrite Z.max_l by (cbn; apply Z.log2_nonneg).
    apply Z.log2_lt_pow2; lia.
  - apply Z.max_lub_lt; apply Z.log2_lt_pow2; lia.
Qed.

(** ** Creation survives a reopen *)

Lemma apply_record_create (c : appendfs_context) (b : bool)
    (payload : list byte) :
  apply_record c
    (if b then APPENDFS_RECORD_MKDIR else APPENDFS_RECORD_CREATE) payload
  = apply_create c payload.
Proof. destruct b; reflexivity. Qed.

Lemma sound_after_create (c c2 : appendfs_context) (row : appendfs_inode) :
  sound c ->
  next_inode_id c + 1 < 2 ^ 64 ->
  inode_id row = next_inode_id c ->
  0 <= mode row < 2 ^ 32 ->
  - 2 ^ 63 <= isize row < 2 ^ 63 ->
  - 2 ^ 63 <= mtime row < 2 ^ 63 ->
  c_string (path row) = true ->
  match symlink_target row with
  | Some t => c_string t = true /\ S_ISLNK (mode row) = true
              /\ strlen (path row) + strlen t + 36 < 2 ^ 32
  | None => strlen (path row) + 32 < 2 ^ 32
  end ->
  deleted row = false -> extents row = [] -> xattrs row = [] ->
  append_create_record
    (set_next_inode_id (u64 (next_inode_id c + 1))
       (set_inodes (inodes c ++ [row]) c)) row = (Ok tt, c2) ->
  sound c2.
Proof.
  intros [Hc Hi] Hw Hid Hm Hsz Hts Hp Ht Hd He Hx Happ.
  unfold append_create_record in Happ.
  pose proof (strlen_nonneg (path row)) as Hp0.
  assert (Hlen : zlen (create_payload row) < 2 ^ 32).
  { assert (Hnil : zlen (@nil byte) = 0) by reflexivity.
    unfold create_payload. zlen_simpl.
    destruct (symlink_target row) as [t|].
    - destruct Ht as (_ & _ & Ht). pose proof (strlen_nonneg t).
      destruct (S_ISLNK (mode row)); [|rewrite Hnil; lia].
      zlen_simpl. rewrite u32_small by lia.
      rewrite <- (zlen_bytes_of_string t), take_zlen.
      rewrite zlen_bytes_of_string. lia.
    - rewrite Hnil. lia. }
  split.
  - match type of Happ with
    | write_record ?c1 ?ty ?pl = _ =>
        destruct (reopen_after_record c c1 c2 ty pl Hc eq_refl Happ Hlen)
          as [Hlog Hre]
    end.
    { destruct (S_ISDIR (mode row)); cbv; split; congruence. }
    split; [exact Hlog|].
    rewrite Hre, (durable_write_record _ _ _ _ _ Happ).
    rewrite apply_record_create.
    pose proof Hi as (_ & _ & Hn).
    assert (Ht' : match symlink_target row with
                  | Some t => c_string t = true /\ strlen t < 2 ^ 32
                  | None => True
                  end).
    { destruct (symlink_target row) as [t|]; [|exact I].
      destruct Ht as (Hct & _ & Ht). pose proof (strlen_nonneg t).
      split; [exact Hct|lia]. }
    assert (Hpl : strlen (path row) < 2 ^ 32).
    { destruct (symlink_target row) as [t|]; [|lia].
      destruct Ht as (Hct & _ & Ht). pose proof (strlen_nonneg t). lia. }
    assert (Hfresh : find_inode_by_id c (inode_id row) = None)
      by (rewrite Hid; apply ids_fresh_find_next; exact Hi).
    rewrite apply_create_payload by (assumption || lia).
    rewrite Hid, Z.leb_refl. unfold durable.
    cbn [inodes next_inode_id set_next_inode_id set_inodes].
    rewrite !map_app. cbn [map]. do 3 f_equal.
    destruct row as [i p m s ct mt at' d e tg xs]. cbn in *. subst.
    destruct tg as [t|]; [|destruct (S_ISLNK m); reflexivity].
    destruct Ht as (_ & -> & _). reflexivity.
  - eapply ids_fresh_write_record; [exact Happ|].
    apply ids_fresh_append; assumption.
Qed.

Lemma create_inode_row (ctx : appendfs_context) (p : string) (m now : Z)
    (f : appendfs_inode -> appendfs_inode) :
  let row := mkInode (next_inode_id ctx) (normalize_path_copy p) m 0
                     now now now false [] None [] in
  let c1 := update_inode (fst (create_inode ctx p m now)) f
              (snd (create_inode ctx p m now)) in
  c1 = set_next_inode_id (u64 (next_inode_id ctx + 1))
         (set_inodes (inodes ctx ++ [f row]) ctx)
  /\ inode_at c1 (fst (create_inode ctx p m now)) = f row.
Proof.
  cbn zeta. unfold create_inode, update_inode, inode_at.
  cbn [fst snd inodes set_inodes set_next_inode_id next_inode_id data_fd
       meta_fd write_buffer_size].
  rewrite alter_app_r_alt by lia. rewrite Nat.sub_diag.
  cbn [alter list_alter]. split; [reflexivity|].
  apply nth_middle.
Qed.

(** X2.  A successful [appendfs_create_file] keeps the store sound: the
    log still ends in a whole record, reopening the store replays it to
    the rows now in memory (timestamps aside) with the same next inode
    id, and the ids stay distinct and below the next one.  The path must
    be a C string that fits the record, the mode and the time their
    fields, and the id counter must not wrap. *)
Theorem create_file_survives_reopen (ctx ctx' : appendfs_context)
    (p : string) (m now : Z) :
  sound ctx ->
  next_inode_id ctx + 1 < 2 ^ 64 ->
  c_string p = true -> strlen p + 33 < 2 ^ 32 ->
  0 <= m < 2 ^ 32 -> - 2 ^ 63 <= now < 2 ^ 63 ->
  appendfs_create_file ctx p m now = (Ok tt, ctx') ->
  sound ctx'.
Proof.
  intros Hs Hw Hp Hpl Hm Hnow H.
  unfold appendfs_create_file in H.
  rewrite find_inode_by_path_normalized in H.
  destruct (find_inode_by_path ctx p) as [e|] eqn:Ef.
  - destruct (find_inode_by_path_matches _ _ _ Ef) as (x & Hx & Hmm).
    unfold path_matches in Hmm. apply andb_true_iff in Hmm as [Hlive _].
    apply negb_true_iff in Hlive.
    unfold inode_at in H. rewrite (nth_lookup_Some _ _ _ _ Hx), Hlive in H.
    discriminate H.
  - destruct (split_path (normalize_path_copy p)) as [parent|e];
      [|discriminate H].
    destruct (negb (String.eqb parent "/")
              && negb (parent_is_live_dir ctx parent)); [discriminate H|].
    rewrite (surjective_pairing (create_inode ctx _ _ _)) in H.
    match type of H with
    | context [update_inode _ ?f _] =>
        destruct (create_inode_row ctx (normalize_path_copy p)
                    (Z.lor S_IFREG m) now f) as [E1 E2]
    end.
    cbn zeta in E1, E2. rewrite E2, E1 in H.
    match type of H with
    | context [append_create_record ?c ?r] =>
        destruct (append_create_record c r) as [[[]|e] ctx3] eqn:E;
          [|discriminate H]
    end.
    injection H as <-.
    pose proof (strlen_normalize (normalize_path_copy p)) as Hn.
    pose proof (strlen_normalize p) as Hn'.
    rewrite normalize_path_copy_idem in *.
    refine (sound_after_create ctx ctx3 _ Hs Hw _ _ _ _ _ _ _ _ _ E);
      cbn; try reflexivity; try lia.
    + apply lor_below_pow2; [lia|cbv; split; congruence|exact Hm].
    + apply c_string_normalize. exact Hp.
Qed.

Ltac ids_fresh_by_evaluation :=
  unfold ids_fresh; apply (bool_decide_unpack _); vm_compute; exact I.

Ltac sound_by_log rs :=
  split;
  [ split;
    [ split;
      [ vm_compute; reflexivity
      | exists rs; split;
        [ repeat constructor; apply record_of_well_framed
        | vm_compute; reflexivity ] ]
    | vm_compute; reflexivity ]
  | ids_fresh_by_evaluation ].

Lemma create_file_survives_reopen_witness :
  sound (snd (appendfs_create_file (fresh_store 4096) "/f" 420 1)).
Proof.
  apply (create_file_survives_reopen (fresh_store 4096) _ "/f" 420 1).
  - sound_by_log (@nil log_record).
  - vm_compute; reflexivity.
  - vm_compute; reflexivity.
  - vm_compute; reflexivity.
  - lia.
  - lia.
  - vm_compute; reflexivity.
Defined.

Lemma found_is_live (ctx : appendfs_context) (p : string) (e : nat) :
  find_inode_by_path ctx p = Some e -> deleted (inode_at ctx e) = false.
Proof.
  intros Ef.
  destruct (find_inode_by_path_matches _ _ _ Ef) as (x & Hx & Hmm).
  unfold path_matches in Hmm. apply andb_true_iff in Hmm as [Hlive _].
  apply negb_true_iff in Hlive.
  unfold inode_at. rewrite (nth_lookup_Some _ _ _ _ Hx). exact Hlive.
Qed.

Lemma s64_range (x : Z) : - 2 ^ 63 <= s64 x < 2 ^ 63.
Proof.
  unfold s64. pose proof (Z.mod_pos_bound (x + 2 ^ 63) (2 ^ 64)). lia.
Qed.

(** X3.  A successful [appendfs_mkdir] keeps the store sound: the new
    directory row, with its mode masked to the permission bits, is what a
    reopen rebuilds from the MKDIR record. *)
Theorem mkdir_survives_reopen (ctx ctx' : appendfs_context)
    (p : string) (m now : Z) :
  sound ctx ->
  next_inode_id ctx + 1 < 2 ^ 64 ->
  c_string p = true -> strlen p + 33 < 2 ^ 32 ->
  - 2 ^ 63 <= now < 2 ^ 63 ->
  appendfs_mkdir ctx p m now = (Ok tt, ctx') ->
  sound ctx'.
Proof.
  intros Hs Hw Hp Hpl Hnow H.
  unfold appendfs_mkdir in H.
  destruct (Ascii.eqb (char_at p 0) Ascii.zero); [discriminate H|].
  destruct (String.eqb p "/"); [discriminate H|].
  rewrite find_inode_by_path_normalized in H.
  destruct (find_inode_by_path ctx p) as [e|] eqn:Ef.
  - rewrite (found_is_live _ _ _ Ef) in H. discriminate H.
  - destruct (split_path (normalize_path_copy p)) as [parent|e];
      [|discriminate H].
    destruct (negb (String.eqb parent "/")
              && negb (parent_is_live_dir ctx parent)); [discriminate H|].
    rewrite (surjective_pairing (create_inode ctx _ _ _)) in H.
    destruct (create_inode_row ctx (normalize_path_copy p)
                (Z.lor S_IFDIR (Z.land m 511)) now (fun i => i))
      as [E1 E2].
    cbn zeta in E1, E2.
    assert (Eu : forall k c, update_inode k (fun i => i) c = c).
    { intros k c. unfold update_inode. destruct c as [d mf n l w].
      unfold set_inodes. cbn. f_equal. apply alter_fixed. reflexivity. }
    rewrite Eu in E1, E2. rewrite E2, E1 in H.
    match type of H with
    | context [append_create_record ?c ?r] =>
        destruct (append_create_record c r) as [[[]|e] ctx3] eqn:E;
          [|discriminate H]
    end.
    injection H as <-.
    pose proof (strlen_normalize (normalize_path_copy p)) as Hn.
    pose proof (strlen_normalize p) as Hn'.
    rewrite normalize_path_copy_idem in *.
    refine (sound_after_create ctx ctx3 _ Hs Hw _ _ _ _ _ _ _ _ _ E);
      cbn; try reflexivity; try lia.
    + apply lor_below_pow2; [lia|cbv; split; congruence|].
      change 511 with (Z.ones 9). rewrite Z.land_ones by lia.
      pose proof (Z.mod_pos_bound m (2 ^ 9)). lia.
    + apply c_string_normalize. exact Hp.
Qed.

Lemma mkdir_survives_reopen_witness :
  sound (snd (appendfs_mkdir (fresh_store 4096) "/d" 493 1)).
Proof.
  apply (mkdir_survives_reopen (fresh_store 4096) _ "/d" 493 1).
  - sound_by_log (@nil log_record).
  - vm_compute; reflexivity.
  - vm_compute; reflexivity.
  - vm_compute; reflexivity.
  - lia.
  - vm_compute; reflexivity.
Defined.

(** X4.  A successful [appendfs_symlink] keeps the store sound: the row
    a reopen rebuilds from the CREATE record carries the same link target
    and the same size. *)
Theorem symlink_survives_reopen (ctx ctx' : appendfs_context)
    (target linkpath : string) (now : Z) :
  sound ctx ->
  next_inode_id ctx + 1 < 2 ^ 64 ->
  c_string linkpath = true -> c_string target = true ->
  strlen linkpath + strlen target + 37 < 2 ^ 32 ->
  - 2 ^ 63 <= now < 2 ^ 63 ->
  appendfs_symlink ctx target linkpath now = (Ok tt, ctx') ->
  sound ctx'.
Proof.
  intros Hs Hw Hp Ht Hpl Hnow H.
  unfold appendfs_symlink in H.
  rewrite find_inode_by_path_normalized in H.
  destruct (find_inode_by_path ctx linkpath) as [e|] eqn:Ef.
  - rewrite (found_is_live _ _ _ Ef) in H. discriminate H.
  - destruct (split_path (normalize_path_copy linkpath)) as [parent|e];
      [|discriminate H].
    destruct (negb (String.eqb parent "/")
              && negb (parent_is_live_dir ctx parent)); [discriminate H|].
    rewrite (surjective_pairing (create_inode ctx _ _ _)) in H.
    match type of H with
    | context [update_inode _ ?f _] =>
        destruct (create_inode_row ctx (normalize_path_copy linkpath)
                    (Z.lor S_IFLNK 511) now f) as [E1 E2]
    end.
    cbn zeta in E1, E2. rewrite E2, E1 in H.
    match type of H with
    | context [append_create_record ?c ?r] =>
        destruct (append_create_record c r) as [[[]|e] ctx3] eqn:E;
          [|discriminate H]
    end.
    injection H as <-.
    pose proof (strlen_normalize (normalize_path_copy linkpath)) as Hn.
    pose proof (strlen_normalize linkpath) as Hn'.
    pose proof (strlen_nonneg target) as Ht0.
    rewrite normalize_path_copy_idem in *.
    refine (sound_after_create ctx ctx3 _ Hs Hw _ _ _ _ _ _ _ _ _ E);
      cbn; try reflexivity; try lia.
    + cbv. split; congruence.
    + apply s64_range.
    + apply c_string_normalize. exact Hp.
    + split; [exact Ht|]. split; [reflexivity|]. lia.
Qed.

Lemma symlink_survives_reopen_witness :
  sound (snd (appendfs_symlink (fresh_store 4096) "/t" "/l" 1)).
Proof.
  apply (symlink_survives_reopen (fresh_store 4096) _ "/t" "/l" 1).
  - sound_by_log (@nil log_record).
  - vm_compute; reflexivity.
  - vm_compute; reflexivity.
  - vm_compute; reflexivity.
  - vm_compute; reflexivity.
  - lia.
  - vm_compute; reflexivity.
Defined.

(** ** Records that change a row in place *)

Lemma reopen_same_log (c c' : appendfs_context) :
  meta_fd c' = meta_fd c -> log_intact c ->
  log_intact c' /\ durable (reopen c') = durable (reopen c).
Proof.
  intros Hfd [Hpos (rs & Hrs & Hlog)]. split.
  - unfold log_intact. rewrite Hfd. split; [exact Hpos|].
    exists rs. split; assumption.
  - rewrite (reopen_frames c rs Hrs Hlog).
    apply reopen_frames; [exact Hrs|]. rewrite Hfd. exact Hlog.
Qed.

(** The step shared by the operations below: [c1] is the context handed
    to [write_record], [c'] the one the operation returns. *)
Lemma sound_after_record (c c1 c2 c' : appendfs_context) (type : Z)
    (payload : list byte) :
  sound c ->
  meta_fd c1 = meta_fd c ->
  write_record c1 type payload = (Ok tt, c2) ->
  meta_fd c' = meta_fd c2 ->
  zlen payload < 2 ^ 32 -> 0 <= type < 256 ->
  map inode_id (inodes c') = map inode_id (inodes c) ->
  next_inode_id c' = next_inode_id c ->
  durable (apply_record c type payload) = durable c' ->
  sound c'.
Proof.
  intros [Hc Hi] Hfd Hw Hfd' Hlen Hty Hids Hnext Hd.
  destruct (reopen_after_record c c1 c2 type payload Hc Hfd Hw Hlen Hty)
    as [Hlog Hre].
  destruct (reopen_same_log c2 c' Hfd' Hlog) as [Hlog' Hre'].
  split.
  - split; [exact Hlog'|]. rewrite Hre', Hre. exact Hd.
  - exact (ids_fresh_ext c c' Hids Hnext Hi).
Qed.

Lemma durable_update_ext (c : appendfs_context) (k : nat)
    (f g : appendfs_inode -> appendfs_inode) :
  (forall x, inodes c !! k = Some x ->
             without_times (f x) = without_times (g x)) ->
  durable (update_inode k f c) = durable (update_inode k g c).
Proof.
  intros H. unfold durable, update_inode. cbn. f_equal.
  generalize dependent k.
  induction (inodes c) as [|a l IH]; intros k H; [reflexivity|].
  destruct k as [|k]; cbn [alter list_alter map].
  - rewrite (H a eq_refl). reflexivity.
  - f_equal. apply IH. intros x Hx. apply H. exact Hx.
Qed.

Lemma update_inode_twice (c : appendfs_context) (k : nat)
    (f g : appendfs_inode -> appendfs_inode) :
  update_inode k f (update_inode k g c)
  = update_inode k (fun x => f (g x)) c.
Proof.
  unfold update_inode. cbn. unfold set_inodes. cbn.
  rewrite list_alter_alter_eq. reflexivity.
Qed.

Lemma apply_unlink_payload (c : appendfs_context) (row : appendfs_inode) :
  0 <= inode_id row < 2 ^ 64 ->
  apply_record c APPENDFS_RECORD_UNLINK (unlink_payload row)
  = match find_inode_by_id c (inode_id row) with
    | None => c
    | Some i => update_inode i (set_deleted true) c
    end.
Proof.
  intros Hid.
  change (apply_record c APPENDFS_RECORD_UNLINK (unlink_payload row))
    with (apply_unlink c (unlink_payload row)).
  unfold apply_unlink, unlink_payload.
  rewrite zlen_le_encode, field_whole by reflexivity.
  change (Z.of_nat 8 <? 8) with false. cbv iota.
  rewrite Z.mod_small by exact Hid. reflexivity.
Qed.

Lemma apply_truncate_payload (c : appendfs_context) (row : appendfs_inode) :
  0 <= inode_id row < 2 ^ 64 ->
  - 2 ^ 63 <= isize row < 2 ^ 63 ->
  apply_record c APPENDFS_RECORD_TRUNCATE (truncate_payload row)
  = match find_inode_by_id c (inode_id row) with
    | None => c
    | Some i =>
        update_inode i
          (fun r => set_extents (trim_extents (isize row) (extents r))
                      (set_isize (isize row) r)) c
    end.
Proof.
  intros Hid Hsz.
  change (apply_record c APPENDFS_RECORD_TRUNCATE (truncate_payload row))
    with (apply_truncate c (truncate_payload row)).
  unfold apply_truncate, truncate_payload.
  rewrite field_here by reflexivity. decode_at.
  rewrite field_whole by lia.
  change (8 + 8 <? 16) with false. cbv iota.
  rewrite Z.mod_small by exact Hid.
  rewrite s64_of_mod by exact Hsz. reflexivity.
Qed.

Lemma apply_extent_payload (c : appendfs_context) (row : appendfs_inode)
    (logical data_off len : Z) :
  0 <= inode_id row < 2 ^ 64 ->
  - 2 ^ 63 <= isize row < 2 ^ 63 ->
  - 2 ^ 63 <= logical < 2 ^ 63 ->
  - 2 ^ 63 <= data_off < 2 ^ 63 ->
  0 <= len < 2 ^ 32 ->
  apply_record c APPENDFS_RECORD_EXTENT
    (extent_payload row logical data_off len)
  = match find_inode_by_id c (inode_id row) with
    | None => c
    | Some i =>
        update_inode i
          (fun r =>
             let r1 := add_extent logical data_off len r in
             if isize row >? isize r1 then set_isize (isize row) r1 else r1)
          c
    end.
Proof.
  intros Hid Hsz Hlo Hdo Hlen.
  change (apply_record c APPENDFS_RECORD_EXTENT
            (extent_payload row logical data_off len))
    with (apply_extent c (extent_payload row logical data_off len)).
  unfold apply_extent, extent_payload.
  rewrite (field_here 8 (inode_id row) _ 0 8) by reflexivity.
  assert (F8 : forall r, s64 (field (le_encode 8 (inode_id row)
                                     ++ le_encode 8 logical ++ r) 8 8)
                         = logical)
    by (intros r; decode_at; rewrite field_here by lia;
        apply s64_of_mod; exact Hlo).
  rewrite F8.
  assert (F16 : forall r, s64 (field (le_encode 8 (inode_id row)
                                      ++ le_encode 8 logical
                                      ++ le_encode 8 data_off ++ r) 16 8)
                          = data_off)
    by (intros r; decode_at; rewrite field_here by lia;
        apply s64_of_mod; exact Hdo).
  rewrite F16.
  assert (F24 : forall r, field (le_encode 8 (inode_id row)
                                 ++ le_encode 8 logical
                                 ++ le_encode 8 data_off
                                 ++ le_encode 4 len ++ r) 24 4
                          = len)
    by (intros r; decode_at; rewrite field_here by lia;
        apply Z.mod_small; exact Hlen).
  rewrite F24.
  assert (F28 : s64 (field (le_encode 8 (inode_id row)
                            ++ le_encode 8 logical
                            ++ le_encode 8 data_off
                            ++ le_encode 4 len
                            ++ le_encode 8 (isize row)) 28 8)
                = isize row)
    by (decode_at; rewrite field_whole by lia;
        apply s64_of_mod; exact Hsz).
  rewrite F28. zlen_simpl.
  change (8 + (8 + (8 + (4 + 8))) <? 36) with false. cbv iota.
  rewrite Z.mod_small by exact Hid. reflexivity.
Qed.

Lemma apply_setxattr_payload (c : appendfs_context) (row : appendfs_inode)
    (name : string) (value : list byte) :
  0 <= inode_id row < 2 ^ 64 ->
  c_string name = true ->
  strlen name + zlen value + 16 < 2 ^ 32 ->
  apply_record c APPENDFS_RECORD_SETXATTR (setxattr_payload row name value)
  = match find_inode_by_id c (inode_id row) with
    | None => c
    | Some i =>
        update_inode i (fun r => snd (set_xattr_internal r name value 0)) c
    end.
Proof.
  intros Hid Hn Hlen.
  pose proof (strlen_nonneg name) as Hn0.
  pose proof (zlen_nonneg value) as Hv0.
  change (apply_record c APPENDFS_RECORD_SETXATTR
            (setxattr_payload row name value))
    with (apply_setxattr c (setxattr_payload row name value)).
  unfold apply_setxattr, setxattr_payload.
  rewrite !u32_small by lia.
  rewrite (field_here 8 (inode_id row) _ 0 8) by reflexivity.
  assert (F8 : forall r, field (le_encode 8 (inode_id row)
                                ++ le_encode 4 (strlen name) ++ r) 8 4
                         = strlen name)
    by (intros r; decode_at; rewrite field_here by lia;
        apply Z.mod_small; lia).
  rewrite F8.
  assert (F12 : forall r, field (le_encode 8 (inode_id row)
                                 ++ le_encode 4 (strlen name)
                                 ++ le_encode 4 (zlen value) ++ r) 12 4
                          = zlen value)
    by (intros r; decode_at; rewrite field_here by lia;
        apply Z.mod_small; lia).
  rewrite F12.
  assert (FN : strndup (le_encode 8 (inode_id row)
                        ++ le_encode 4 (strlen name)
                        ++ le_encode 4 (zlen value)
                        ++ bytes_of_string name ++ value) 16 (strlen name)
               = name)
    by (decode_at; apply strndup_here; [exact Hn|lia|lia]).
  rewrite FN.
  assert (FV : slice (le_encode 8 (inode_id row)
                      ++ le_encode 4 (strlen name)
                      ++ le_encode 4 (zlen value)
                      ++ bytes_of_string name ++ value)
                 (16 + strlen name) (zlen value)
               = value).
  { decode_at. rewrite <- (app_nil_r value) at 1.
    apply slice_here; lia. }
  rewrite FV. zlen_simpl.
  replace (8 + (4 + (4 + (strlen name + zlen value))) <? 16) with false
    by (symmetry; apply Z.ltb_ge; lia).
  replace (16 + strlen name + zlen value
           >? 8 + (4 + (4 + (strlen name + zlen value)))) with false
    by (symmetry; apply gtb_false; lia).
  rewrite Z.mod_small by exact Hid. reflexivity.
Qed.

Lemma apply_removexattr_payload (c : appendfs_context)
    (row : appendfs_inode) (name : string) :
  0 <= inode_id row < 2 ^ 64 ->
  c_string name = true ->
  strlen name + 12 < 2 ^ 32 ->
  apply_record c APPENDFS_RECORD_REMOVEXATTR (removexattr_payload row name)
  = match find_inode_by_id c (inode_id row) with
    | None => c
    | Some i =>
        update_inode i (fun r => snd (remove_xattr_internal r name)) c
    end.
Proof.
  intros Hid Hn Hlen.
  pose proof (strlen_nonneg name) as Hn0.
  change (apply_record c APPENDFS_RECORD_REMOVEXATTR
            (removexattr_payload row name))
    with (apply_removexattr c (removexattr_payload row name)).
  unfold apply_removexattr, removexattr_payload.
  rewrite !u32_small by lia.
  rewrite (field_here 8 (inode_id row) _ 0 8) by reflexivity.
  assert (F8 : forall r, field (le_encode 8 (inode_id row)
                                ++ le_encode 4 (strlen name) ++ r) 8 4
                         = strlen name)
    by (intros r; decode_at; rewrite field_here by lia;
        apply Z.mod_small; lia).
  rewrite F8.
  assert (FN : strndup (le_encode 8 (inode_id row)
                        ++ le_encode 4 (strlen name)
                        ++ bytes_of_string name) 12 (strlen name)
               = name).
  { decode_at. rewrite <- (app_nil_r (bytes_of_string name)).
    apply strndup_here; [exact Hn|lia|lia]. }
  rewrite FN. zlen_simpl.
  replace (8 + (4 + strlen name) <? 12) with false
    by (symmetry; apply Z.ltb_ge; lia).
  replace (12 + strlen name >? 8 + (4 + strlen name)) with false
    by (symmetry; apply gtb_false; lia).
  rewrite Z.mod_small by exact Hid. reflexivity.
Qed.

Lemma apply_rename_payload (c : appendfs_context) (row : appendfs_inode)
    (new_path : string) :
  0 <= inode_id row < 2 ^ 64 ->
  c_string new_path = true ->
  strlen new_path + 12 < 2 ^ 32 ->
  apply_record c APPENDFS_RECORD_RENAME (rename_payload row new_path)
  = match find_inode_by_id c (inode_id row) with
    | None => c
    | Some i =>
        update_inode i (fun r => set_deleted false (set_path new_path r)) c
    end.
Proof.
  intros Hid Hn Hlen.
  pose proof (strlen_nonneg new_path) as Hn0.
  change (apply_record c APPENDFS_RECORD_RENAME
            (rename_payload row new_path))
    with (apply_rename c (rename_payload row new_path)).
  unfold apply_rename, rename_payload.
  rewrite !u32_small by lia.
  rewrite (field_here 8 (inode_id row) _ 0 8) by reflexivity.
  assert (F8 : forall r, field (le_encode 8 (inode_id row)
                                ++ le_encode 4 (strlen new_path) ++ r) 8 4
                         = strlen new_path)
    by (intros r; decode_at; rewrite field_here by lia;
        apply Z.mod_small; lia).
  rewrite F8.
  assert (FN : strndup (le_encode 8 (inode_id row)
                        ++ le_encode 4 (strlen new_path)
                        ++ bytes_of_string new_path) 12 (strlen new_path)
               = new_path).
  { decode_at. rewrite <- (app_nil_r (bytes_of_string new_path)).
    apply strndup_here; [exact Hn|lia|lia]. }
  rewrite FN. zlen_simpl.
  replace (8 + (4 + strlen new_path) <? 12) with false
    by (symmetry; apply Z.ltb_ge; lia).
  replace (12 + strlen new_path >? 8 + (4 + strlen new_path)) with false
    by (symmetry; apply gtb_false; lia).
  rewrite Z.mod_small by exact Hid. reflexivity.
Qed.

Lemma apply_times_payload (c : appendfs_context) (row : appendfs_inode) :
  0 <= inode_id row < 2 ^ 64 ->
  - 2 ^ 63 <= atime row < 2 ^ 63 ->
  - 2 ^ 63 <= mtime row < 2 ^ 63 ->
  apply_record c APPENDFS_RECORD_TIMES (times_payload row)
  = match find_inode_by_id c (inode_id row) with
    | None => c
    | Some i =>
        update_inode i
          (fun r => set_mtime (mtime row) (set_atime (atime row) r)) c
    end.
Proof.
  intros Hid Ha Hm.
  change (apply_record c APPENDFS_RECORD_TIMES (times_payload row))
    with (apply_times c (times_payload row)).
  unfold apply_times, times_payload.
  rewrite (field_here 8 (inode_id row) _ 0 8) by reflexivity.
  assert (F8 : forall r, s64 (field (le_encode 8 (inode_id row)
                                     ++ le_encode 8 (atime row) ++ r) 8 8)
                         = atime row)
    by (intros r; decode_at; rewrite field_here by lia;
        apply s64_of_mod; exact Ha).
  rewrite F8.
  assert (F16 : s64 (field (le_encode 8 (inode_id row)
                            ++ le_encode 8 (atime row)
                            ++ le_encode 8 (mtime row)) 16 8)
                = mtime row)
    by (decode_at; rewrite field_whole by lia;
        apply s64_of_mod; exact Hm).
  rewrite F16. zlen_simpl.
  change (8 + (8 + 8) <? 24) with false. cbv iota.
  rewrite Z.mod_small by exact Hid. reflexivity.
Qed.

(** ** Removal survives a reopen *)

Lemma write_record_next (c c' : appendfs_context) (type : Z)
    (payload : list byte) (r : result unit) :
  write_record c type payload = (r, c') ->
  next_inode_id c' = next_inode_id c.
Proof. intros H. apply write_record_frame in H. rewrite H. reflexivity. Qed.

Lemma inode_id_updated (c : appendfs_context) (idx : nat)
    (f : appendfs_inode -> appendfs_inode) :
  (forall x, inode_id (f x) = inode_id x) ->
  (idx < List.length (inodes c))%nat ->
  inode_id (inode_at (update_inode idx f c) idx) = inode_id (inode_at c idx).
Proof.
  intros Hf Hlt.
  rewrite (inode_at_update_same c (update_inode idx f c) idx f Hlt eq_refl).
  apply Hf.
Qed.

Ltac after_record Hs E c' :=
  match type of E with
  | write_record ?c1 ?ty ?pl = (Ok tt, ?c2) =>
      refine (sound_after_record _ c1 c2 c' ty pl Hs eq_refl E eq_refl
                _ _ _ _ _)
  end.

(** X5.  A successful [appendfs_unlink] keeps the store sound: after a
    reopen the row is tombstoned as it is in memory. *)
Theorem unlink_survives_reopen (ctx ctx' : appendfs_context) (p : string) :
  sound ctx ->
  appendfs_unlink ctx p = (Ok tt, ctx') ->
  sound ctx'.
Proof.
  intros Hs H. unfold appendfs_unlink in H.
  destruct (find_inode_by_path ctx p) as [idx|] eqn:Ef; [|discriminate H].
  destruct (S_ISDIR (mode (inode_at ctx idx))); [discriminate H|].
  unfold append_unlink_record in H.
  match type of H with
  | context [write_record ?c ?t ?pl] =>
      destruct (write_record c t pl) as [[[]|e] c2] eqn:E; [|discriminate H]
  end.
  injection H as <-.
  pose proof (find_inode_by_path_lt _ _ _ Ef) as Hlt.
  pose proof Hs as [_ Hi].
  assert (Eid : inode_id (inode_at (update_inode idx (set_deleted true) ctx)
                            idx)
                = inode_id (inode_at ctx idx))
    by (apply inode_id_updated; [reflexivity|exact Hlt]).
  after_record Hs E c2.
  - unfold unlink_payload. zlen_simpl. lia.
  - unfold APPENDFS_RECORD_UNLINK. lia.
  - rewrite (write_record_inodes _ _ _ _ _ E). apply ids_alter. reflexivity.
  - rewrite (write_record_next _ _ _ _ _ E). reflexivity.
  - rewrite apply_unlink_payload
      by (rewrite Eid; apply ids_fresh_row_range; assumption).
    rewrite Eid, (ids_fresh_find_row ctx idx Hi Hlt).
    rewrite (durable_write_record _ _ _ _ _ E). reflexivity.
Qed.

(** X6.  A successful [appendfs_rmdir] keeps the store sound: after a
    reopen the directory row is tombstoned as it is in memory (its new
    mtime is not in the record). *)
Theorem rmdir_survives_reopen (ctx ctx' : appendfs_context) (p : string)
    (now : Z) :
  sound ctx ->
  appendfs_rmdir ctx p now = (Ok tt, ctx') ->
  sound ctx'.
Proof.
  intros Hs H. unfold appendfs_rmdir in H.
  destruct (String.eqb p "/"); [discriminate H|].
  destruct (find_inode_by_path ctx p) as [idx|] eqn:Ef; [|discriminate H].
  destruct (deleted (inode_at ctx idx)); [discriminate H|].
  destruct (negb (S_ISDIR (mode (inode_at ctx idx)))); [discriminate H|].
  destruct (negb (appendfs_is_directory_empty ctx p)); [discriminate H|].
  unfold append_unlink_record in H.
  match type of H with
  | context [write_record ?c ?t ?pl] =>
      destruct (write_record c t pl) as [[[]|e] c2] eqn:E; [|discriminate H]
  end.
  injection H as <-.
  pose proof (find_inode_by_path_lt _ _ _ Ef) as Hlt.
  pose proof Hs as [_ Hi].
  match type of E with
  | context [update_inode idx ?f ctx] =>
      assert (Eid : inode_id (inode_at (update_inode idx f ctx) idx)
                    = inode_id (inode_at ctx idx))
        by (apply inode_id_updated; [reflexivity|exact Hlt])
  end.
  after_record Hs E c2.
  - unfold unlink_payload. zlen_simpl. lia.
  - unfold APPENDFS_RECORD_UNLINK. lia.
  - rewrite (write_record_inodes _ _ _ _ _ E). apply ids_alter. reflexivity.
  - rewrite (write_record_next _ _ _ _ _ E). reflexivity.
  - rewrite apply_unlink_payload
      by (rewrite Eid; apply ids_fresh_row_range; assumption).
    rewrite Eid, (ids_fresh_find_row ctx idx Hi Hlt).
    rewrite (durable_write_record _ _ _ _ _ E).
    apply durable_update_ext. intros x _. destruct x. reflexivity.
Qed.

(** ** Truncation, attributes and extents survive a reopen *)

Ltac split_write_record H E c2 :=
  match type of H with
  | context [write_record ?c ?t ?pl] =>
      destruct (write_record c t pl) as [[[]|?] c2] eqn:E; [|discriminate H]
  end.

(** X7.  A successful [appendfs_truncate] keeps the store sound: a
    reopen rebuilds the new size and the same trimmed extent array from
    the TRUNCATE record. *)
Theorem truncate_survives_reopen (ctx ctx' : appendfs_context) (p : string)
    (size now : Z) :
  sound ctx ->
  - 2 ^ 63 <= size < 2 ^ 63 ->
  appendfs_truncate ctx p size now = (Ok tt, ctx') ->
  sound ctx'.
Proof.
  intros Hs Hsz H. unfold appendfs_truncate in H.
  destruct (find_inode_by_path ctx p) as [idx|] eqn:Ef; [|discriminate H].
  destruct (negb (S_ISREG (mode (inode_at ctx idx)))
            && negb (S_ISLNK (mode (inode_at ctx idx))));
    [discriminate H|].
  unfold append_truncate_record in H.
  split_write_record H E c2. injection H as <-.
  pose proof (find_inode_by_path_lt _ _ _ Ef) as Hlt.
  pose proof Hs as [_ Hi].
  assert (Erow : inode_at (update_inode idx (set_isize size) ctx) idx
                 = set_isize size (inode_at ctx idx))
    by (apply (inode_at_update_same ctx); [exact Hlt|reflexivity]).
  rewrite Erow in E.
  match goal with
  | |- sound ?c' => after_record Hs E c'
  end.
  - unfold truncate_payload. zlen_simpl. lia.
  - unfold APPENDFS_RECORD_TRUNCATE. lia.
  - cbn [inodes update_inode set_inodes].
    rewrite ids_alter by reflexivity.
    rewrite (write_record_inodes _ _ _ _ _ E). apply ids_alter. reflexivity.
  - cbn [next_inode_id update_inode set_inodes].
    rewrite (write_record_next _ _ _ _ _ E). reflexivity.
  - rewrite apply_truncate_payload
      by (cbn; try apply ids_fresh_row_range; assumption).
    cbn [inode_id isize set_isize].
    rewrite (ids_fresh_find_row ctx idx Hi Hlt).
    rewrite (write_record_frame _ _ _ _ _ E).
    match goal with
    | |- _ = durable (update_inode idx ?h (set_meta_fd ?m ?c1)) =>
        change (durable (update_inode idx h (set_meta_fd m c1)))
          with (durable (update_inode idx h c1))
    end.
    rewrite update_inode_twice.
    apply durable_update_ext. intros x _. destruct x. reflexivity.
Qed.

Lemma set_xattr_internal_id (i i1 : appendfs_inode) (name : string)
    (value : list byte) (flags : Z) (r : result unit) :
  set_xattr_internal i name value flags = (r, i1) ->
  inode_id i1 = inode_id i.
Proof.
  unfold set_xattr_internal. intros H.
  repeat match type of H with
         | context [if ?b then _ else _] => destruct b
         | context [match ?o with Some _ => _ | None => _ end] => destruct o
         end; injection H as _ <-; reflexivity.
Qed.

Lemma set_xattr_internal_flags (i i1 : appendfs_inode) (name : string)
    (value : list byte) (flags : Z) :
  set_xattr_internal i name value flags = (Ok tt, i1) ->
  snd (set_xattr_internal i name value 0) = i1.
Proof.
  unfold set_xattr_internal. intros H.
  change (flag_set 0 XATTR_CREATE) with false.
  change (flag_set 0 XATTR_REPLACE) with false. cbn [andb].
  repeat match type of H with
         | context [if ?b then _ else _] => destruct b; try discriminate H
         end.
  destruct (find_xattr i name); injection H as <-; reflexivity.
Qed.

Lemma remove_xattr_internal_id (i i1 : appendfs_inode) (name : string)
    (r : result unit) :
  remove_xattr_internal i name = (r, i1) -> inode_id i1 = inode_id i.
Proof.
  unfold remove_xattr_internal. intros H.
  destruct (find_xattr i name); injection H as _ <-; reflexivity.
Qed.

Lemma ids_alter_at (f : appendfs_inode -> appendfs_inode) (k : nat)
    (l : list appendfs_inode) :
  (forall x, l !! k = Some x -> inode_id (f x) = inode_id x) ->
  map inode_id (alter f k l) = map inode_id l.
Proof.
  revert k. induction l as [|a l IH]; intros k H; [reflexivity|].
  destruct k as [|k]; cbn [alter list_alter map].
  - rewrite (H a eq_refl). reflexivity.
  - f_equal. apply IH. intros x Hx. apply H. exact Hx.
Qed.

Lemma lookup_inode_at (ctx : appendfs_context) (idx : nat)
    (x : appendfs_inode) :
  inodes ctx !! idx = Some x -> x = inode_at ctx idx.
Proof.
  intros Hx. unfold inode_at. rewrite (nth_lookup_Some _ _ _ _ Hx).
  reflexivity.
Qed.

(** X8.  A successful [appendfs_setxattr] keeps the store sound,
    whatever the flags: a reopen rebuilds the same attribute array from
    the SETXATTR record.  The name must be a C string and name and value
    must fit the record. *)
Theorem setxattr_survives_reopen (ctx ctx' : appendfs_context)
    (p name : string) (value : list byte) (flags : Z) :
  sound ctx ->
  c_string name = true ->
  strlen name + zlen value + 16 < 2 ^ 32 ->
  appendfs_setxattr ctx p name value flags = (Ok tt, ctx') ->
  sound ctx'.
Proof.
  intros Hs Hn Hlen H. unfold appendfs_setxattr in H.
  destruct (find_inode_by_path ctx p) as [idx|] eqn:Ef; [|discriminate H].
  destruct (deleted (inode_at ctx idx)); [discriminate H|].
  destruct (set_xattr_internal (inode_at ctx idx) name value flags)
    as [[[]|e] inode1] eqn:Es; [|discriminate H].
  unfold append_setxattr_record in H.
  split_write_record H E c2. injection H as <-.
  pose proof (find_inode_by_path_lt _ _ _ Ef) as Hlt.
  pose proof Hs as [_ Hi].
  pose proof (set_xattr_internal_id _ _ _ _ _ _ Es) as Eid.
  after_record Hs E c2.
  - unfold setxattr_payload. zlen_simpl. lia.
  - unfold APPENDFS_RECORD_SETXATTR. lia.
  - rewrite (write_record_inodes _ _ _ _ _ E).
    apply ids_alter_at. intros x Hx.
    rewrite (lookup_inode_at _ _ _ Hx). exact Eid.
  - rewrite (write_record_next _ _ _ _ _ E). reflexivity.
  - rewrite apply_setxattr_payload
      by (try rewrite Eid; try apply ids_fresh_row_range; assumption).
    rewrite Eid, (ids_fresh_find_row ctx idx Hi Hlt).
    rewrite (durable_write_record _ _ _ _ _ E).
    apply durable_update_ext. intros x Hx.
    rewrite (lookup_inode_at _ _ _ Hx).
    rewrite (set_xattr_internal_flags _ _ _ _ _ Es). reflexivity.
Qed.

(** X9.  A successful [appendfs_removexattr] keeps the store sound: a
    reopen rebuilds the attribute array without the removed name. *)
Theorem removexattr_survives_reopen (ctx ctx' : appendfs_context)
    (p name : string) :
  sound ctx ->
  c_string name = true ->
  strlen name + 12 < 2 ^ 32 ->
  appendfs_removexattr ctx p name = (Ok tt, ctx') ->
  sound ctx'.
Proof.
  intros Hs Hn Hlen H. unfold appendfs_removexattr in H.
  destruct (find_inode_by_path ctx p) as [idx|] eqn:Ef; [|discriminate H].
  destruct (deleted (inode_at ctx idx)); [discriminate H|].
  destruct (find_xattr (inode_at ctx idx) name) as [k|]; [|discriminate H].
  destruct (remove_xattr_internal (inode_at ctx idx) name)
    as [[[]|e] inode1] eqn:Es; [|discriminate H].
  unfold append_removexattr_record in H.
  split_write_record H E c2. injection H as <-.
  pose proof (find_inode_by_path_lt _ _ _ Ef) as Hlt.
  pose proof Hs as [_ Hi].
  pose proof (remove_xattr_internal_id _ _ _ _ Es) as Eid.
  after_record Hs E c2.
  - unfold removexattr_payload. zlen_simpl. lia.
  - unfold APPENDFS_RECORD_REMOVEXATTR. lia.
  - rewrite (write_record_inodes _ _ _ _ _ E).
    apply ids_alter_at. intros x Hx.
    rewrite (lookup_inode_at _ _ _ Hx). exact Eid.
  - rewrite (write_record_next _ _ _ _ _ E). reflexivity.
  - rewrite apply_removexattr_payload
      by (try rewrite Eid; try apply ids_fresh_row_range; assumption).
    rewrite Eid, (ids_fresh_find_row ctx idx Hi Hlt).
    rewrite (durable_write_record _ _ _ _ _ E).
    apply durable_update_ext. intros x Hx.
    rewrite (lookup_inode_at _ _ _ Hx), Es. reflexivity.
Qed.

(** X10.  A successful [appendfs_flush] keeps the store sound: a reopen
    rebuilds the new extent and the new file size from the EXTENT record.
    The buffer offset, the file size and the size of the data file must
    be in the range of [off_t]. *)
Theorem flush_survives_reopen (ctx ctx' : appendfs_context)
    (f f' : appendfs_file) (now : Z) :
  sound ctx ->
  (of_inode f < List.length (inodes ctx))%nat ->
  - 2 ^ 63 <= isize (inode_at ctx (of_inode f)) < 2 ^ 63 ->
  - 2 ^ 63 <= buffer_offset f < 2 ^ 63 ->
  file_size (data_fd ctx) < 2 ^ 63 ->
  appendfs_flush ctx f now = (Ok tt, ctx', f') ->
  sound ctx'.
Proof.
  intros Hs Hlt Hsz Hbo Hds H. unfold appendfs_flush, flush_buffer in H.
  destruct (buffer_used f =? 0); [injection H as <- _; exact Hs|].
  destruct (write_all (lseek_end (data_fd ctx)) _) as [[[]|e] fd1];
    [|discriminate H].
  unfold append_extent_record in H.
  match type of H with
  | context [update_inode (of_inode f) ?g (set_data_fd fd1 ctx)] =>
      assert (Erow : inode_at (update_inode (of_inode f) g
                                 (set_data_fd fd1 ctx)) (of_inode f)
                     = g (inode_at ctx (of_inode f)))
        by exact (inode_at_update_same ctx
                    (update_inode (of_inode f) g (set_data_fd fd1 ctx))
                    (of_inode f) g Hlt eq_refl)
  end.
  rewrite Erow in H.
  split_write_record H E c2. injection H as <- _.
  pose proof Hs as [_ Hi].
  pose proof (zlen_nonneg (f_data (data_fd ctx))) as Hd0.
  after_record Hs E c2.
  - unfold extent_payload. zlen_simpl. lia.
  - unfold APPENDFS_RECORD_EXTENT. lia.
  - rewrite (write_record_inodes _ _ _ _ _ E).
    cbn [inodes update_inode set_inodes set_data_fd].
    apply ids_alter. intros x.
    match goal with
    | |- context [if ?b then _ else _] => destruct b
    end; reflexivity.
  - rewrite (write_record_next _ _ _ _ _ E). reflexivity.
  - rewrite (durable_write_record _ _ _ _ _ E).
    assert (Eid : forall b : bool,
              inode_id (if b then set_isize (s64 (buffer_offset f
                                                  + buffer_used f))
                                    (add_extent (buffer_offset f)
                                       (f_pos (lseek_end (data_fd ctx)))
                                       (u32 (buffer_used f))
                                       (inode_at ctx (of_inode f)))
                        else add_extent (buffer_offset f)
                               (f_pos (lseek_end (data_fd ctx)))
                               (u32 (buffer_used f))
                               (inode_at ctx (of_inode f)))
              = inode_id (inode_at ctx (of_inode f)))
      by (intros []; reflexivity).
    rewrite apply_extent_payload.
    + cbn [inode_id set_mtime]. rewrite Eid.
      rewrite (ids_fresh_find_row ctx _ Hi Hlt).
      change (durable (update_inode (of_inode f) ?g (set_data_fd fd1 ctx)))
        with (durable (update_inode (of_inode f) g ctx)).
      apply durable_update_ext. intros x Hx.
      rewrite <- (lookup_inode_at _ _ _ Hx).
      destruct x as [i pth m s ct mt at' d e tg xs].
      cbn. destruct (s64 (buffer_offset f + buffer_used f) >? s) eqn:Eg.
      * cbn. rewrite Eg. reflexivity.
      * cbn. rewrite Z.gtb_ltb, Z.ltb_irrefl. reflexivity.
    + cbn [inode_id set_mtime]. rewrite Eid.
      apply ids_fresh_row_range; assumption.
    + cbn [isize set_mtime].
      match goal with
      | |- context [if ?b then _ else _] => destruct b
      end; cbn; [apply s64_range|exact Hsz].
    + exact Hbo.
    + cbn [f_pos lseek_end]. unfold file_size in *. lia.
    + unfold u32. pose proof (Z.mod_pos_bound (buffer_used f) (2 ^ 32)). lia.
Qed.

Lemma unlink_survives_reopen_witness :
  sound (snd (appendfs_unlink store_f "/f")).
Proof.
  apply (unlink_survives_reopen store_f _ "/f").
  - sound_by_log [record_f].
  - vm_compute; reflexivity.
Defined.

Lemma rmdir_survives_reopen_witness :
  sound (snd (appendfs_rmdir store_d "/d" 2)).
Proof.
  apply (rmdir_survives_reopen store_d _ "/d" 2).
  - sound_by_log [record_d].
  - vm_compute; reflexivity.
Defined.

Lemma truncate_survives_reopen_witness :
  sound (snd (appendfs_truncate store_f "/f" 5 2)).
Proof.
  apply (truncate_survives_reopen store_f _ "/f" 5 2).
  - sound_by_log [record_f].
  - lia.
  - vm_compute; reflexivity.
Defined.

Lemma setxattr_survives_reopen_witness :
  sound store_f_xattr.
Proof.
  apply (setxattr_survives_reopen store_f _ "/f" "user.k" [x76] 0).
  - sound_by_log [record_f].
  - vm_compute; reflexivity.
  - vm_compute; reflexivity.
  - vm_compute; reflexivity.
Defined.

Lemma removexattr_survives_reopen_witness :
  sound (snd (appendfs_removexattr store_f_xattr "/f" "user.k")).
Proof.
  apply (removexattr_survives_reopen store_f_xattr _ "/f" "user.k").
  - sound_by_log [record_f; record_f_xattr].
  - vm_compute; reflexivity.
  - vm_compute; reflexivity.
  - vm_compute; reflexivity.
Defined.

Lemma flush_survives_reopen_witness :
  sound (snd (fst (appendfs_flush (fst store_f_written)
                     (snd store_f_written) 4))).
Proof.
  apply (flush_survives_reopen (fst store_f_written) _ (snd store_f_written)
           (snd (appendfs_flush (fst store_f_written)
                   (snd store_f_written) 4)) 4).
  - sound_by_log [record_f].
  - vm_compute; lia.
  - vm_compute; split; congruence.
  - vm_compute; split; congruence.
  - vm_compute; reflexivity.
  - vm_compute; reflexivity.
Defined.

(** ** Timestamps set by [set_times] survive a reopen *)

Lemma apply_record_rows (c1 c2 : appendfs_context) (type : Z)
    (payload : list byte) :
  inodes c1 = inodes c2 -> next_inode_id c1 = next_inode_id c2 ->
  inodes (apply_record c1 type payload)
  = inodes (apply_record c2 type payload)
  /\ next_inode_id (apply_record c1 type payload)
     = next_inode_id (apply_record c2 type payload).
Proof.
  destruct c1 as [d1 m1 n1 rows1 w1], c2 as [d2 m2 n2 rows2 w2].
  cbn [inodes next_inode_id]. intros -> ->.
  unfold apply_record, apply_create, apply_extent, apply_truncate,
    apply_unlink, apply_rename, apply_setxattr, apply_removexattr,
    apply_times, find_inode_by_id, update_inode, set_meta_fd, set_inodes,
    set_next_inode_id.
  cbn [inodes data_fd meta_fd next_inode_id write_buffer_size].
  repeat case_match; simplify_eq/=; split; try reflexivity; congruence.
Qed.

Lemma fold_apply_if_valid_rows (rs : list log_record) :
  forall c1 c2,
    inodes c1 = inodes c2 -> next_inode_id c1 = next_inode_id c2 ->
    inodes (fold_left apply_if_valid rs c1)
    = inodes (fold_left apply_if_valid rs c2)
    /\ next_inode_id (fold_left apply_if_valid rs c1)
       = next_inode_id (fold_left apply_if_valid rs c2).
Proof.
  induction rs as [|r rs IH]; intros c1 c2 H1 H2; [split; assumption|].
  cbn [fold_left].
  destruct (apply_record_rows c1 c2 (Z_of_byte (rec_type r)) (rec_payload r)
              H1 H2) as [E1 E2].
  apply IH; unfold apply_if_valid; destruct (checksum_ok r); assumption.
Qed.

Lemma reopen_rows (c : appendfs_context) (rs : list log_record) :
  Forall well_framed rs ->
  f_data (meta_fd c) = encode_log rs ->
  inodes (reopen c) = inodes (fold_left apply_if_valid rs (unopened [] 0))
  /\ next_inode_id (reopen c)
     = next_inode_id (fold_left apply_if_valid rs (unopened [] 0)).
Proof.
  intros Hrs Hlog. unfold reopen, appendfs_open.
  rewrite (replay_metadata_frames rs) by (try exact Hrs; exact Hlog).
  change (inodes (set_meta_fd ?f ?x)) with (inodes x).
  change (next_inode_id (set_meta_fd ?f ?x)) with (next_inode_id x).
  apply fold_apply_if_valid_rows; reflexivity.
Qed.

(** The rows after one more record, exactly. *)
Lemma reopen_rows_after_record (c c1 c2 : appendfs_context) (type : Z)
    (payload : list byte) :
  log_intact c ->
  meta_fd c1 = meta_fd c ->
  write_record c1 type payload = (Ok tt, c2) ->
  zlen payload < 2 ^ 32 -> 0 <= type < 256 ->
  inodes (reopen c2) = inodes (apply_record (reopen c) type payload).
Proof.
  intros [Hpos (rs & Hrs & Hlog)] Hfd Hw Hlen Hty.
  rewrite <- Hfd in Hpos, Hlog.
  destruct (write_record_Ok_inv _ _ _ _ Hw Hpos) as (_ & Hdata & _).
  assert (Hlog2 : f_data (meta_fd c2)
                  = encode_log (rs ++ [record_of type payload]))
    by (rewrite encode_log_snoc, <- Hlog; exact Hdata).
  assert (Hrs2 : Forall well_framed (rs ++ [record_of type payload])).
  { apply Forall_app. split; [exact Hrs|].
    constructor; [apply record_of_well_framed|constructor]. }
  destruct (reopen_rows c2 _ Hrs2 Hlog2) as [-> _].
  rewrite Hfd in Hlog.
  destruct (reopen_rows c rs Hrs Hlog) as [E1 E2].
  rewrite fold_left_app. cbn [fold_left]. unfold apply_if_valid at 1.
  rewrite record_of_checksum_ok.
  unfold record_of at 1 2. cbn [rec_type rec_payload].
  rewrite Z_of_byte_of_Z, (Z.mod_small type) by lia.
  unfold u32.
  rewrite (Z.mod_small (zlen payload))
    by (pose proof (zlen_nonneg payload); lia).
  unfold zlen. rewrite Nat2Z.id, firstn_all.
  symmetry. apply apply_record_rows; assumption.
Qed.

(** X11.  A successful [appendfs_set_times] keeps the store sound, and
    after a reopen the row has the atime and the mtime it has in memory
    (the TIMES record carries both; the ctime is not in it). *)
Theorem set_times_survives_reopen (ctx ctx' : appendfs_context)
    (p : string) (times_0 times_1 : timespec) (now : Z) (idx : nat) :
  sound ctx ->
  find_inode_by_path ctx p = Some idx ->
  - 2 ^ 63 <= atime (inode_at ctx' idx) < 2 ^ 63 ->
  - 2 ^ 63 <= mtime (inode_at ctx' idx) < 2 ^ 63 ->
  appendfs_set_times ctx p times_0 times_1 now = (Ok tt, ctx') ->
  sound ctx'
  /\ atime (inode_at (reopen ctx') idx) = atime (inode_at ctx' idx)
  /\ mtime (inode_at (reopen ctx') idx) = mtime (inode_at ctx' idx).
Proof.
  intros Hs Ef Ha Hm H. unfold appendfs_set_times in H.
  rewrite Ef in H.
  destruct (deleted (inode_at ctx idx)); [discriminate H|].
  unfold append_times_record in H.
  split_write_record H E c2. injection H as <-.
  pose proof (find_inode_by_path_lt _ _ _ Ef) as Hlt.
  pose proof Hs as [[Hlog Hre] Hi].
  match type of E with
  | write_record (update_inode idx ?g ctx) _ _ = _ =>
      set (F := g) in *;
      assert (HF : forall x, inode_id (F x) = inode_id x)
        by (intros x; subst F; cbn;
            repeat match goal with
                   | |- context [if ?b then _ else _] => destruct b
                   end; reflexivity)
  end.
  assert (Erow : inode_at c2 idx = inode_at (update_inode idx F ctx) idx)
    by (apply inode_at_eq; apply (write_record_inodes _ _ _ _ _ E)).
  rewrite Erow in Ha, Hm.
  assert (Eid : inode_id (inode_at (update_inode idx F ctx) idx)
                = inode_id (inode_at ctx idx))
    by (apply inode_id_updated; assumption).
  assert (Hidr : 0 <= inode_id (inode_at (update_inode idx F ctx) idx)
                 < 2 ^ 64)
    by (rewrite Eid; apply ids_fresh_row_range; assumption).
  assert (Hty : 0 <= APPENDFS_RECORD_TIMES < 256)
    by (unfold APPENDFS_RECORD_TIMES; lia).
  assert (Hlen : zlen (times_payload
                         (inode_at (update_inode idx F ctx) idx)) < 2 ^ 32)
    by (unfold times_payload; zlen_simpl; lia).
  split; [|].
  - after_record Hs E c2.
    + exact Hlen.
    + exact Hty.
    + rewrite (write_record_inodes _ _ _ _ _ E). apply ids_alter. exact HF.
    + rewrite (write_record_next _ _ _ _ _ E). reflexivity.
    + rewrite apply_times_payload by assumption.
      rewrite Eid, (ids_fresh_find_row ctx idx Hi Hlt).
      rewrite (durable_write_record _ _ _ _ _ E).
      apply durable_update_ext. intros x _. subst F. destruct x. cbn.
      repeat match goal with
             | |- context [if ?b then _ else _] => destruct b
             end; reflexivity.
  - pose proof (reopen_rows_after_record ctx (update_inode idx F ctx) c2 _ _
                  Hlog eq_refl E Hlen Hty) as Hrows.
    rewrite apply_times_payload in Hrows by assumption.
    rewrite Eid in Hrows.
    rewrite (find_inode_by_id_durable _ _ _ Hre) in Hrows.
    rewrite (ids_fresh_find_row ctx idx Hi Hlt) in Hrows.
    assert (Hlt' : (idx < List.length (inodes (reopen ctx)))%nat)
      by (rewrite (durable_length _ _ Hre); exact Hlt).
    rewrite (inode_at_update_same (reopen ctx) (reopen c2) idx _ Hlt' Hrows).
    rewrite Erow. split; reflexivity.
Qed.

Lemma set_times_survives_reopen_witness :
  sound (snd (appendfs_set_times store_f "/f" (mkTimespec 7 0)
                  (mkTimespec 8 0) 9))
  /\ atime (inode_at (reopen (snd (appendfs_set_times store_f "/f" (mkTimespec 7 0)
                  (mkTimespec 8 0) 9))) 0)
     = atime (inode_at (snd (appendfs_set_times store_f "/f" (mkTimespec 7 0)
                  (mkTimespec 8 0) 9)) 0)
  /\ mtime (inode_at (reopen (snd (appendfs_set_times store_f "/f" (mkTimespec 7 0)
                  (mkTimespec 8 0) 9))) 0)
     = mtime (inode_at (snd (appendfs_set_times store_f "/f" (mkTimespec 7 0)
                  (mkTimespec 8 0) 9)) 0).
Proof.
  apply (set_times_survives_reopen store_f _ "/f"
           (mkTimespec 7 0) (mkTimespec 8 0) 9 0).
  - sound_by_log [record_f].
  - vm_compute; reflexivity.
  - vm_compute; split; congruence.
  - vm_compute; split; congruence.
  - vm_compute; reflexivity.
Defined.

(** ** Rename survives a reopen *)

Lemma c_string_append (a b : string) :
  c_string a = true -> c_string b = true ->
  c_string (String.append a b) = true.
Proof.
  intros Ha Hb. induction a as [|c a IH]; [exact Hb|].
  cbn [c_string String.append] in *.
  apply andb_true_iff in Ha as [Hc Ha]. rewrite Hc, (IH Ha). reflexivity.
Qed.

Lemma c_string_str_drop (n : nat) :
  forall s, c_string s = true -> c_string (str_drop n s) = true.
Proof.
  induction n as [|n IH]; intros s Hs; [exact Hs|].
  destruct s as [|c s]; [reflexivity|].
  cbn [str_drop c_string] in *. apply andb_true_iff in Hs as [_ Hs].
  apply IH. exact Hs.
Qed.

Lemma length_str_drop (n : nat) :
  forall s, (String.length (str_drop n s) <= String.length s)%nat.
Proof.
  induction n as [|n IH]; intros s; [reflexivity|].
  destruct s as [|c s]; [reflexivity|].
  cbn [str_drop String.length]. specialize (IH s). lia.
Qed.

Lemma strlen_moved (b q : string) (n : nat) :
  strlen (String.append b (str_drop n q)) <= strlen b + strlen q.
Proof.
  unfold strlen. rewrite length_append.
  pose proof (length_str_drop n q). lia.
Qed.

Lemma collect_children_In (moved : nat) (a b : string)
    (rows : list appendfs_inode) :
  forall i j np,
    In (j, np) (collect_children moved a b i rows) ->
    exists x, (i <= j)%nat /\ rows !! (j - i)%nat = Some x
              /\ np = String.append b (str_drop (String.length a) (path x)).
Proof.
  induction rows as [|r rows IH]; intros i j np H; [destruct H|].
  cbn [collect_children] in H.
  assert (Hrest : In (j, np) (collect_children moved a b (S i) rows) ->
                  exists x, (i <= j)%nat /\ (r :: rows) !! (j - i)%nat = Some x
                            /\ np = String.append b
                                      (str_drop (String.length a) (path x))).
  { intros H'. destruct (IH _ _ _ H') as (x & Hle & Hx & Hnp).
    exists x. split; [lia|]. split; [|exact Hnp].
    replace (j - i)%nat with (S (j - S i)) by lia. exact Hx. }
  destruct (Nat.eqb i moved || deleted r); [exact (Hrest H)|].
  destruct (negb (path_is_prefix (path r) a)); [exact (Hrest H)|].
  destruct ((strlen (path r) <=? Z.of_nat (String.length a))
            || negb (Ascii.eqb (char_at (path r) (String.length a)) slash));
    [exact (Hrest H)|].
  destruct H as [E|H]; [|exact (Hrest H)].
  injection E as <- <-. exists r. rewrite Nat.sub_diag.
  split; [lia|]. split; reflexivity.
Qed.

(** One RENAME record and the row update that goes with it. *)
Lemma rename_step_sound (c c2 : appendfs_context) (ci : nat) (np : string)
    (f : appendfs_inode -> appendfs_inode) :
  sound c ->
  (ci < List.length (inodes c))%nat ->
  c_string np = true -> strlen np + 12 < 2 ^ 32 ->
  (forall x, inode_id (f x) = inode_id x) ->
  (forall x, without_times (f x)
             = without_times (set_deleted false (set_path np x))) ->
  write_record c APPENDFS_RECORD_RENAME (rename_payload (inode_at c ci) np)
  = (Ok tt, c2) ->
  sound (update_inode ci f c2).
Proof.
  intros Hs Hlt Hnp Hlen Hid Hf E.
  pose proof Hs as [_ Hi]. pose proof (strlen_nonneg np) as Hn0.
  after_record Hs E (update_inode ci f c2).
  - unfold rename_payload. zlen_simpl. lia.
  - unfold APPENDFS_RECORD_RENAME. lia.
  - cbn [inodes update_inode set_inodes].
    rewrite ids_alter by exact Hid.
    rewrite (write_record_inodes _ _ _ _ _ E). reflexivity.
  - cbn [next_inode_id update_inode set_inodes].
    apply (write_record_next _ _ _ _ _ E).
  - rewrite apply_rename_payload
      by (try apply ids_fresh_row_range; assumption).
    rewrite (ids_fresh_find_row c ci Hi Hlt).
    rewrite (write_record_frame _ _ _ _ _ E).
    change (durable (update_inode ci f (set_meta_fd ?m c)))
      with (durable (update_inode ci f c)).
    apply durable_update_ext. intros x _. symmetry. apply Hf.
Qed.

Lemma rename_children_sound (children : list (nat * string)) :
  forall c c',
    sound c ->
    Forall (fun '(ci, np) =>
              (ci < List.length (inodes c))%nat
              /\ c_string np = true /\ strlen np + 12 < 2 ^ 32) children ->
    rename_children c children = (Ok tt, c') ->
    sound c'.
Proof.
  induction children as [|[ci np] rest IH]; intros c c' Hs Hall H.
  - cbn in H. injection H as <-. exact Hs.
  - cbn [rename_children] in H. unfold append_rename_record in H.
    destruct (write_record c APPENDFS_RECORD_RENAME
                (rename_payload (inode_at c ci) np)) as [[[]|e] c1] eqn:E;
      [|discriminate H].
    apply Forall_cons in Hall as [(Hlt & Hnp & Hlen) Hall].
    refine (IH _ c' _ _ H).
    + apply (rename_step_sound c c1 ci np); try assumption; reflexivity.
    + cbn [inodes update_inode set_inodes]. rewrite length_alter.
      rewrite (write_record_inodes _ _ _ _ _ E). exact Hall.
Qed.

(** One UNLINK record for a row tombstoned in memory. *)
Lemma tombstone_step_sound (c c2 : appendfs_context) (d : nat)
    (f : appendfs_inode -> appendfs_inode) :
  sound c ->
  (d < List.length (inodes c))%nat ->
  (forall x, inode_id (f x) = inode_id x) ->
  (forall x, without_times (f x) = without_times (set_deleted true x)) ->
  write_record (update_inode d f c) APPENDFS_RECORD_UNLINK
    (unlink_payload (inode_at (update_inode d f c) d)) = (Ok tt, c2) ->
  sound c2.
Proof.
  intros Hs Hlt Hid Hf E. pose proof Hs as [_ Hi].
  assert (Eid : inode_id (inode_at (update_inode d f c) d)
                = inode_id (inode_at c d))
    by (apply inode_id_updated; assumption).
  after_record Hs E c2.
  - unfold unlink_payload. zlen_simpl. lia.
  - unfold APPENDFS_RECORD_UNLINK. lia.
  - rewrite (write_record_inodes _ _ _ _ _ E). apply ids_alter. exact Hid.
  - rewrite (write_record_next _ _ _ _ _ E). reflexivity.
  - rewrite apply_unlink_payload
      by (rewrite Eid; apply ids_fresh_row_range; assumption).
    rewrite Eid, (ids_fresh_find_row c d Hi Hlt).
    rewrite (durable_write_record _ _ _ _ _ E).
    apply durable_update_ext. intros x _. symmetry. apply Hf.
Qed.

(** X12.  A successful [appendfs_rename] keeps the store sound: the
    UNLINK record of a replaced destination and the RENAME records of the
    moved row and of every gathered descendant replay to the rows in
    memory.  All paths must be C strings that still fit a record after
    the move. *)
Theorem rename_survives_reopen (ctx ctx' : appendfs_context)
    (from_path to_path : string) (now : Z) :
  sound ctx ->
  c_string to_path = true ->
  Forall (fun r => c_string (path r) = true
                   /\ strlen (path r) + strlen to_path + 13 < 2 ^ 32)
         (inodes ctx) ->
  appendfs_rename ctx from_path to_path now = (Ok tt, ctx') ->
  sound ctx'.
Proof.
  intros Hs Hto Hrows H. unfold appendfs_rename in H.
  rewrite find_inode_by_path_normalized in H.
  destruct (find_inode_by_path ctx from_path) as [idx|] eqn:Ef;
    [|discriminate H].
  destruct (String.eqb (normalize_path_copy from_path)
                       (normalize_path_copy to_path));
    [injection H as <-; exact Hs|].
  destruct (split_path (normalize_path_copy to_path)) as [to_parent|e];
    [|discriminate H].
  destruct (negb (String.eqb to_parent "/")
            && negb (parent_is_live_dir ctx to_parent)); [discriminate H|].
  rewrite find_inode_by_path_normalized in H.
  pose proof (find_inode_by_path_lt _ _ _ Ef) as Hlt.
  (* the destination, tombstoned or left alone *)
  match type of H with
  | match ?rep with _ => _ end = _ =>
      assert (Hrep : forall c1, rep = (Ok tt, c1) ->
                sound c1
                /\ map path (inodes c1) = map path (inodes ctx));
        [|destruct rep as [[[]|e] c1]; [|discriminate H];
          destruct (Hrep c1 eq_refl) as [Hs1 Hpaths]; clear Hrep]
  end.
  { intros c1 Hc1.
    destruct (find_inode_by_path ctx to_path) as [d|] eqn:Ed;
      [|injection Hc1 as <-; split; [exact Hs|reflexivity]].
    destruct (deleted (inode_at ctx d));
      [injection Hc1 as <-; split; [exact Hs|reflexivity]|].
    repeat match type of Hc1 with
           | (if ?b then _ else _) = _ => destruct b; [discriminate Hc1|]
           end.
    unfold append_unlink_record in Hc1.
    pose proof (find_inode_by_path_lt _ _ _ Ed) as Hd.
    split.
    - apply (tombstone_step_sound ctx c1 d _ Hs Hd) in Hc1;
        [exact Hc1|reflexivity|intros x; destruct x; reflexivity].
    - rewrite (write_record_inodes _ _ _ _ _ Hc1).
      cbn [inodes update_inode set_inodes].
      clear. generalize d. induction (inodes ctx) as [|a l IH];
        intros [|k]; cbn [alter list_alter map]; try reflexivity.
      f_equal. apply IH. }
  unfold append_rename_record in H.
  match type of H with
  | context [write_record c1 ?t ?pl] =>
      destruct (write_record c1 t pl) as [[[]|e] c2] eqn:E; [|discriminate H]
  end.
  assert (Hlen1 : List.length (inodes c1) = List.length (inodes ctx))
    by (rewrite <- (length_map path (inodes c1)), Hpaths; apply length_map).
  assert (Hrows1 : Forall (fun r => c_string (path r) = true
                     /\ strlen (path r) + strlen to_path + 13 < 2 ^ 32)
                     (inodes c1)).
  { rewrite List.Forall_forall in *. intros r Hr.
    apply (in_map path) in Hr. rewrite Hpaths in Hr.
    apply in_map_iff in Hr as (r' & Er & Hr'). rewrite <- Er.
    apply Hrows. exact Hr'. }
  pose proof (strlen_normalize to_path) as Hnt.
  assert (Hbound : strlen to_path + 13 < 2 ^ 32).
  { rewrite List.Forall_forall in Hrows.
    assert (Hin : In (inode_at ctx idx) (inodes ctx))
      by (unfold inode_at; apply nth_In; exact Hlt).
    destruct (Hrows _ Hin) as [_ Hb].
    pose proof (strlen_nonneg (path (inode_at ctx idx))). lia. }
  refine (rename_children_sound _ _ ctx' _ _ H).
  - apply (rename_step_sound c1 c2 idx (normalize_path_copy to_path));
      try assumption.
    + lia.
    + apply c_string_normalize. exact Hto.
    + lia.
    + reflexivity.
    + intros x. destruct x. reflexivity.
  - cbn [inodes update_inode set_inodes]. rewrite length_alter.
    rewrite (write_record_inodes _ _ _ _ _ E).
    destruct (S_ISDIR (mode (inode_at c1 idx))); [|constructor].
    rewrite List.Forall_forall. intros [j np] Hin.
    apply collect_children_In in Hin as (x & _ & Hx & ->).
    rewrite Nat.sub_0_r in Hx.
    rewrite List.Forall_forall in Hrows1.
    assert (HxIn : In x (inodes c1))
      by (apply list_elem_of_In; eapply list_elem_of_lookup_2; exact Hx).
    destruct (Hrows1 x HxIn) as [Hcx Hbx].
    split; [eapply lookup_lt_Some; exact Hx|]. split.
    + apply c_string_append; [apply c_string_normalize; exact Hto|].
      apply c_string_str_drop. exact Hcx.
    + pose proof (strlen_moved (normalize_path_copy to_path) (path x)
                    (String.length (normalize_path_copy from_path))). lia.
Qed.

Lemma rename_survives_reopen_witness :
  sound (snd (appendfs_rename rename_store "/a" "/c" 3)).
Proof.
  apply (rename_survives_reopen rename_store _ "/a" "/c" 3).
  - sound_by_log
      [record_of APPENDFS_RECORD_MKDIR
         (create_payload
            (mkInode 1 "/a" (Z.lor S_IFDIR 493) 0 1 1 1 false [] None []));
       record_of APPENDFS_RECORD_CREATE
         (create_payload
            (mkInode 2 "/a/b" (Z.lor S_IFREG 420) 0 2 2 2 false [] None []))].
  - vm_compute; reflexivity.
  - apply (bool_decide_unpack _); vm_compute; exact I.
  - vm_compute; reflexivity.
Defined.

(** ** Writing, flushing and reading back *)

(** Extents that do not meet the requested range are passed over. *)
Lemma read_extents_skip_disjoint (data : file)
    (older rest : list appendfs_extent) (out : list byte) (size offset : Z) :
  0 <= offset -> 0 < size -> offset + size < 2 ^ 63 ->
  Forall (fun ext => 0 <= ext_length ext
                     /\ - 2 ^ 63 <= logical_offset ext
                     /\ logical_offset ext + ext_length ext < 2 ^ 63
                     /\ (logical_offset ext + ext_length ext <= offset
                         \/ offset + size <= logical_offset ext)) older ->
  read_extents data (older ++ rest) out size offset 0
  = read_extents data rest out size offset 0.
Proof.
  intros Ho Hs Hb Hall.
  induction Hall as [|ext exts (Hn & Hlo & Hr & Hdis) _ IH]; [reflexivity|].
  cbn [app read_extents].
  replace (0 <? size) with true by (symmetry; apply Z.ltb_lt; lia).
  rewrite Z.sub_0_r.
  rewrite (s64_small (logical_offset ext + ext_length ext)) by lia.
  destruct (offset >=? logical_offset ext + ext_length ext) eqn:E1;
    [exact IH|].
  rewrite Z.geb_leb in E1. apply Z.leb_gt in E1.
  assert (Hl : offset + size <= logical_offset ext) by lia.
  replace (offset >? logical_offset ext) with false
    by (symmetry; apply gtb_false; lia).
  rewrite (u64_small size) by lia.
  rewrite (s64_small size) by lia.
  rewrite (s64_small (offset + size)) by lia.
  destruct (logical_offset ext + ext_length ext >? offset + size) eqn:E.
  - replace (logical_offset ext >=? offset + size) with true
      by (symmetry; apply geb_true; lia).
    exact IH.
  - apply gtb_false_inv in E.
    replace (logical_offset ext >=? logical_offset ext + ext_length ext)
      with true by (symmetry; apply geb_true; lia).
    exact IH.
Qed.

Lemma slice_all (l : list byte) : slice l 0 (zlen l) = l.
Proof. unfold slice. cbn [Z.to_nat drop]. apply take_zlen. Qed.

Lemma memcpy_at_0 (dst src : list byte) :
  memcpy_at dst 0 src = src ++ skipn (List.length src) dst.
Proof. reflexivity. Qed.

Lemma write_loop_done (k : nat) (ctx : appendfs_context) (f : appendfs_file)
    (buf : list byte) (size offset now : Z) :
  write_loop k ctx f buf size offset 0 now = (Ok tt, ctx, f).
Proof. destruct k; reflexivity. Qed.

(** X13.  A write that fits the free part of the buffer, into an empty
    buffer or right behind the bytes it holds, is only buffered: it
    returns its size and leaves the store, with both backing files, as
    it was; the open file holds the bytes until a flush. *)
Theorem write_below_the_buffer_size_is_only_buffered
    (ctx : appendfs_context) (f : appendfs_file) (bytes : list byte)
    (offset now : Z) :
  0 <= buffer_used f ->
  buffer_used f = 0 \/ offset = s64 (buffer_offset f + buffer_used f) ->
  0 < zlen bytes ->
  buffer_used f + zlen bytes < buffer_size f ->
  buffer_size f < 2 ^ 64 ->
  appendfs_write ctx f (Some bytes) (zlen bytes) offset now
  = (Ok (zlen bytes), ctx,
     mkOpenFile (of_inode f)
       (memcpy_at (buffer f) (buffer_used f) bytes)
       (buffer_size f) (buffer_used f + zlen bytes)
       (if buffer_used f =? 0 then offset else buffer_offset f)
       (of_flags f) (s64 (offset + zlen bytes))).
Proof.
  intros Hu Hcont Hs Hfit Hbs. unfold appendfs_write.
  replace (zlen bytes =? 0) with false by (symmetry; apply Z.eqb_neq; lia).
  assert (Hpre : (buffer_used f >? 0)
                 && negb (offset =? s64 (buffer_offset f + buffer_used f))
                 = false).
  { destruct Hcont as [E|E].
    - rewrite E. reflexivity.
    - rewrite <- E, Z.eqb_refl. apply andb_false_r. }
  rewrite Hpre.
  set (f2 := if buffer_used f =? 0 then set_buffer_offset offset f else f).
  assert (Hf2 : buffer_used f2 = buffer_used f /\ buffer_size f2 = buffer_size f
                /\ buffer f2 = buffer f /\ of_inode f2 = of_inode f
                /\ of_flags f2 = of_flags f
                /\ buffer_offset f2
                   = (if buffer_used f =? 0 then offset else buffer_offset f))
    by (subst f2; destruct (buffer_used f =? 0); repeat split; reflexivity).
  destruct Hf2 as (E1 & E2 & E3 & E4 & E5 & E6).
  cbn [write_loop].
  replace (zlen bytes >? 0) with true
    by (symmetry; rewrite Z.gtb_ltb; apply Z.ltb_lt; lia).
  rewrite E1, E2.
  rewrite (u64_small (buffer_size f - buffer_used f)) by lia.
  replace (buffer_size f - buffer_used f =? 0) with false
    by (symmetry; apply Z.eqb_neq; lia).
  cbv beta iota zeta.
  replace (zlen bytes >? buffer_size f - buffer_used f) with false
    by (symmetry; apply gtb_false; lia).
  rewrite Z.sub_diag, slice_all.
  cbn [buffer_used buffer_size set_buffer_used set_buffer].
  rewrite E1, E2, E3.
  replace (buffer_used f + zlen bytes >=? buffer_size f) with false
    by (symmetry; apply geb_false; lia).
  rewrite andb_false_r, write_loop_done.
  unfold set_position, set_buffer_used, set_buffer. cbn.
  rewrite E2, E4, E5, E6. reflexivity.
Qed.

Lemma write_below_the_buffer_size_is_only_buffered_witness :
  appendfs_write store_f (mkOpenFile 0 (repeat x00 8) 8 0 0 0 0)
    (Some [x61; x62; x63]) (zlen [x61; x62; x63]) 5 2
  = (Ok (zlen [x61; x62; x63]), store_f,
     mkOpenFile 0 (memcpy_at (repeat x00 8) 0 [x61; x62; x63]) 8
                (0 + zlen [x61; x62; x63]) (if 0 =? 0 then 5 else 0) 0
                (s64 (5 + zlen [x61; x62; x63]))).
Proof.
  apply (write_below_the_buffer_size_is_only_buffered store_f
           (mkOpenFile 0 (repeat x00 8) 8 0 0 0 0) [x61; x62; x63] 5 2).
  - vm_compute; congruence.
  - left; vm_compute; reflexivity.
  - vm_compute; reflexivity.
  - vm_compute; reflexivity.
  - vm_compute; reflexivity.
Defined.

Lemma find_inode_by_path_alter (c c' : appendfs_context) (k : nat)
    (g : appendfs_inode -> appendfs_inode) (p : string) :
  inodes c' = alter g k (inodes c) ->
  (forall x, path (g x) = path x /\ deleted (g x) = deleted x) ->
  find_inode_by_path c' p = find_inode_by_path c p.
Proof.
  intros Hc Hg. unfold find_inode_by_path. rewrite Hc.
  apply find_index_ext_alter. intros x. destruct (Hg x) as [Ep Ed].
  unfold path_matches. rewrite Ep, Ed. reflexivity.
Qed.

(** X14.  What a flush stores can be read back: after a successful
    [appendfs_flush] of a buffer holding [bytes] for some offset, a read
    of that range returns exactly [bytes], provided no older extent of
    the file meets the range (an older extent would be served first). *)
Theorem flushed_bytes_read_back (ctx ctx2 : appendfs_context)
    (f f2 : appendfs_file) (p : string) (bytes out : list byte)
    (now now' : Z) :
  find_inode_by_path ctx p = Some (of_inode f) ->
  buffer_used f = zlen bytes ->
  firstn (List.length bytes) (buffer f) = bytes ->
  0 < zlen bytes < 2 ^ 32 ->
  0 <= buffer_offset f ->
  buffer_offset f + zlen bytes < 2 ^ 63 ->
  file_size (data_fd ctx) + zlen bytes < 2 ^ 63 ->
  - 2 ^ 63 <= isize (inode_at ctx (of_inode f)) ->
  zlen bytes <= zlen out ->
  Forall (fun ext =>
            0 <= ext_length ext
            /\ - 2 ^ 63 <= logical_offset ext
            /\ logical_offset ext + ext_length ext < 2 ^ 63
            /\ (logical_offset ext + ext_length ext <= buffer_offset f
                \/ buffer_offset f + zlen bytes <= logical_offset ext))
         (extents (inode_at ctx (of_inode f))) ->
  appendfs_flush ctx f now = (Ok tt, ctx2, f2) ->
  fst (appendfs_read ctx2 p out (zlen bytes) (buffer_offset f) now')
  = (Ok (zlen bytes), bytes ++ skipn (List.length bytes) out).
Proof.
  intros Ef Hu Hbuf Hs Ho Hend Hds Hsz Hout Hold H.
  pose proof (find_inode_by_path_lt _ _ _ Ef) as Hlt.
  pose proof (found_is_live _ _ _ Ef) as Hlive.
  pose proof (zlen_nonneg (f_data (data_fd ctx))) as Hd0.
  unfold appendfs_flush, flush_buffer in H. rewrite Hu in H.
  replace (zlen bytes =? 0) with false in H
    by (symmetry; apply Z.eqb_neq; lia).
  unfold zlen at 1 in H. rewrite Nat2Z.id, Hbuf in H.
  destruct (write_all (lseek_end (data_fd ctx)) bytes) as [[[]|e] fd1] eqn:Ew;
    [|discriminate H].
  apply write_all_Ok_inv in Ew; [|reflexivity].
  cbn [f_data f_pos f_room lseek_end] in Ew.
  unfold append_extent_record in H.
  match type of H with
  | context [update_inode (of_inode f) ?g (set_data_fd fd1 ctx)] =>
      set (G := g) in *;
      assert (Erow : inode_at (update_inode (of_inode f) G
                                 (set_data_fd fd1 ctx)) (of_inode f)
                     = G (inode_at ctx (of_inode f)))
        by exact (inode_at_update_same ctx
                    (update_inode (of_inode f) G (set_data_fd fd1 ctx))
                    (of_inode f) G Hlt eq_refl)
  end.
  split_write_record H E c2. injection H as <- _.
  pose proof (write_record_frame _ _ _ _ _ E) as Ec2.
  assert (Hin : inodes c2 = alter G (of_inode f) (inodes ctx))
    by (rewrite (write_record_inodes _ _ _ _ _ E); reflexivity).
  assert (Hdata : data_fd c2 = fd1) by (rewrite Ec2; reflexivity).
  assert (HG : forall x, path (G x) = path x /\ deleted (G x) = deleted x).
  { intros x. subst G. cbn.
    match goal with
    | |- context [if ?b then _ else _] => destruct b
    end; split; reflexivity. }
  unfold appendfs_read.
  rewrite (find_inode_by_path_alter ctx c2 _ G p Hin HG), Ef.
  rewrite (inode_at_update_same ctx c2 (of_inode f) G Hlt Hin).
  destruct (HG (inode_at ctx (of_inode f))) as [_ ->]. rewrite Hlive.
  assert (Hsize : buffer_offset f < isize (G (inode_at ctx (of_inode f)))).
  { subst G. cbn.
    rewrite (s64_small (buffer_offset f + zlen bytes)) by lia.
    destruct (buffer_offset f + zlen bytes
              >? isize (inode_at ctx (of_inode f))) eqn:Eg; cbn.
    - lia.
    - apply gtb_false_inv in Eg. lia. }
  replace (buffer_offset f >=? isize (G (inode_at ctx (of_inode f))))
    with false by (symmetry; apply geb_false; exact Hsize).
  assert (Hext : extents (G (inode_at ctx (of_inode f)))
                 = extents (inode_at ctx (of_inode f))
                   ++ [mkExtent (buffer_offset f) (zlen bytes)
                         (file_size (data_fd ctx))]).
  { subst G. cbn. rewrite (u32_small (zlen bytes)) by lia.
    match goal with
    | |- context [if ?b then _ else _] => destruct b
    end; reflexivity. }
  rewrite Hext, Hdata.
  rewrite read_extents_skip_disjoint by (assumption || lia).
  rewrite Ew.
  rewrite read_extents_first_extent_wins
    by (cbn [logical_offset ext_length data_offset];
        unfold file_size in *; cbn [f_data]; rewrite ?zlen_app; lia).
  cbn [fst logical_offset ext_length data_offset f_data]. f_equal.
  replace (file_size (data_fd ctx) + (buffer_offset f - buffer_offset f))
    with (zlen (f_data (data_fd ctx))) by (unfold file_size; lia).
  rewrite <- (app_nil_r bytes) at 1.
  rewrite slice_app_mid. apply memcpy_at_0.
Qed.

Lemma flushed_bytes_read_back_witness :
  fst (appendfs_read
         (snd (fst (appendfs_flush (fst store_f_written)
                      (snd store_f_written) 4)))
         "/f" (repeat x00 5) (zlen [x61; x62; x63])
         (buffer_offset (snd store_f_written)) 5)
  = (Ok (zlen [x61; x62; x63]),
     [x61; x62; x63] ++ skipn (List.length [x61; x62; x63]) (repeat x00 5)).
Proof.
  apply (flushed_bytes_read_back (fst store_f_written) _
           (snd store_f_written)
           (snd (appendfs_flush (fst store_f_written)
                   (snd store_f_written) 4))
           "/f" [x61; x62; x63] (repeat x00 5) 4 5).
  - vm_compute; reflexivity.
  - vm_compute; reflexivity.
  - vm_compute; reflexivity.
  - vm_compute; split; reflexivity.
  - vm_compute; congruence.
  - vm_compute; reflexivity.
  - vm_compute; reflexivity.
  - vm_compute; congruence.
  - vm_compute; congruence.
  - replace (extents (inode_at (fst store_f_written)
                        (of_inode (snd store_f_written))))
      with (@nil appendfs_extent) by (vm_compute; reflexivity).
    constructor.
  - vm_compute; reflexivity.
Defined.

(** ** The calls that add a row: what they leave behind *)

Lemma update_inode_id (k : nat) (c : appendfs_context) :
  update_inode k (fun i => i) c = c.
Proof.
  unfold update_inode. destruct c as [d mf n l w].
  unfold set_inodes. cbn. f_equal. apply alter_fixed. reflexivity.
Qed.

(** Every outcome of a creating call: refused before anything is
    touched, or a record appended for the new last row, or the append
    failed and the row was dropped again. *)
Lemma run_create_outcome (ctx : appendfs_context) (p : string)
    (call : create_call) (now : Z) (r : result unit)
    (ctx' : appendfs_context) :
  run_create ctx p call now = (r, ctx') ->
  (exists e, r = Err e /\ ctx' = ctx)
  \/ find_inode_by_path ctx p = None
     /\ exists c3 r3,
          append_create_record
            (set_next_inode_id (u64 (next_inode_id ctx + 1))
               (set_inodes (inodes ctx ++ [created_row ctx p call now]) ctx))
            (created_row ctx p call now) = (r3, c3)
          /\ ((r3 = Ok tt /\ r = Ok tt /\ ctx' = c3)
              \/ exists e, r3 = Err e /\ r = Err e
                           /\ ctx' = drop_last_inode c3).
Proof.
  intros H.
  assert (Hdead : forall e, find_inode_by_path ctx p = Some e ->
                    negb (deleted (inode_at ctx e)) = true)
    by (intros e Ef; rewrite (found_is_live _ _ _ Ef); reflexivity).
  destruct call as [m|m|target]; cbn [run_create created_row] in *.
  - unfold appendfs_create_file in H.
    rewrite find_inode_by_path_normalized in H.
    destruct (find_inode_by_path ctx p) as [e|] eqn:Ef.
    { rewrite (Hdead e eq_refl) in H. injection H as <- <-.
      left. eexists. split; reflexivity. }
    destruct (split_path (normalize_path_copy p)) as [parent|e];
      [|injection H as <- <-; left; eexists; split; reflexivity].
    destruct (negb (String.eqb parent "/")
              && negb (parent_is_live_dir ctx parent));
      [injection H as <- <-; left; eexists; split; reflexivity|].
    rewrite (surjective_pairing (create_inode ctx _ _ _)) in H.
    match type of H with
    | context [update_inode _ ?f _] =>
        destruct (create_inode_row ctx (normalize_path_copy p)
                    (Z.lor S_IFREG m) now f) as [E1 E2]
    end.
    cbn zeta in E1, E2. rewrite E2, E1 in H.
    rewrite normalize_path_copy_idem in H. cbn in H.
    right. split; [reflexivity|].
    match type of H with
    | context [append_create_record ?c ?row] =>
        destruct (append_create_record c row) as [[[]|e] c3] eqn:E
    end; injection H as <- <-.
    + exists c3, (Ok tt). split; [first [exact E|reflexivity]|].
      left. repeat split.
    + exists c3, (Err e). split; [first [exact E|reflexivity]|].
      right. eexists. repeat split.
  - unfold appendfs_mkdir in H.
    destruct (Ascii.eqb (char_at p 0) Ascii.zero);
      [injection H as <- <-; left; eexists; split; reflexivity|].
    destruct (String.eqb p "/");
      [injection H as <- <-; left; eexists; split; reflexivity|].
    rewrite find_inode_by_path_normalized in H.
    destruct (find_inode_by_path ctx p) as [e|] eqn:Ef.
    { rewrite (Hdead e eq_refl) in H. injection H as <- <-.
      left. eexists. split; reflexivity. }
    destruct (split_path (normalize_path_copy p)) as [parent|e];
      [|injection H as <- <-; left; eexists; split; reflexivity].
    destruct (negb (String.eqb parent "/")
              && negb (parent_is_live_dir ctx parent));
      [injection H as <- <-; left; eexists; split; reflexivity|].
    rewrite (surjective_pairing (create_inode ctx _ _ _)) in H.
    destruct (create_inode_row ctx (normalize_path_copy p)
                (Z.lor S_IFDIR (Z.land m 511)) now (fun i => i))
      as [E1 E2].
    cbn zeta in E1, E2. rewrite update_inode_id in E1, E2.
    rewrite E2, E1 in H. rewrite normalize_path_copy_idem in H.
    right. split; [reflexivity|].
    match type of H with
    | context [append_create_record ?c ?row] =>
        destruct (append_create_record c row) as [[[]|e] c3] eqn:E
    end; injection H as <- <-.
    + exists c3, (Ok tt). split; [first [exact E|reflexivity]|].
      left. repeat split.
    + exists c3, (Err e). split; [first [exact E|reflexivity]|].
      right. eexists. repeat split.
  - unfold appendfs_symlink in H.
    rewrite find_inode_by_path_normalized in H.
    destruct (find_inode_by_path ctx p) as [e|] eqn:Ef.
    { rewrite (Hdead e eq_refl) in H. injection H as <- <-.
      left. eexists. split; reflexivity. }
    destruct (split_path (normalize_path_copy p)) as [parent|e];
      [|injection H as <- <-; left; eexists; split; reflexivity].
    destruct (negb (String.eqb parent "/")
              && negb (parent_is_live_dir ctx parent));
      [injection H as <- <-; left; eexists; split; reflexivity|].
    rewrite (surjective_pairing (create_inode ctx _ _ _)) in H.
    match type of H with
    | context [update_inode _ ?f _] =>
        destruct (create_inode_row ctx (normalize_path_copy p)
                    (Z.lor S_IFLNK 511) now f) as [E1 E2]
    end.
    cbn zeta in E1, E2. rewrite E2, E1 in H.
    rewrite normalize_path_copy_idem in H. cbn in H.
    right. split; [reflexivity|].
    match type of H with
    | context [append_create_record ?c ?row] =>
        destruct (append_create_record c row) as [[[]|e] c3] eqn:E
    end; injection H as <- <-.
    + exists c3, (Ok tt). split; [first [exact E|reflexivity]|].
      left. repeat split.
    + exists c3, (Err e). split; [first [exact E|reflexivity]|].
      right. eexists. repeat split.
Qed.

Lemma append_create_record_frame (c c' : appendfs_context)
    (row : appendfs_inode) (r : result unit) :
  append_create_record c row = (r, c') ->
  c' = set_meta_fd (meta_fd c') c.
Proof. unfold append_create_record. apply write_record_frame. Qed.

(** X15.  After a successful [appendfs_create_file], [appendfs_mkdir] or
    [appendfs_symlink], [appendfs_stat] of the same path reports the new
    row: the inode id is the next id of the store before the call, the
    size is 0 (the length of the target for a link), and the three
    timestamps are the time of the call. *)
Theorem stat_reports_the_created_row (ctx ctx' : appendfs_context)
    (p : string) (call : create_call) (now : Z) :
  run_create ctx p call now = (Ok tt, ctx') ->
  appendfs_stat ctx' p = Ok (info_of (created_row ctx p call now)).
Proof.
  intros H. apply run_create_outcome in H.
  destruct H as [(e & He & _)|(Hfree & c3 & r3 & E & Hcase)];
    [discriminate He|].
  destruct Hcase as [(_ & _ & ->)|(e & _ & He & _)]; [|discriminate He].
  apply append_create_record_frame in E.
  assert (Hin : inodes c3
                = inodes ctx ++ [created_row ctx p call now])
    by (rewrite E; reflexivity).
  assert (Hrow : deleted (created_row ctx p call now) = false
                 /\ path (created_row ctx p call now)
                    = normalize_path_copy p)
    by (destruct call; split; reflexivity).
  destruct Hrow as [Hd Hp].
  unfold appendfs_stat, find_inode_by_path, inode_at. rewrite Hin.
  rewrite (find_index_app_last _ _ _ Hfree).
  - rewrite nth_middle, Hd. reflexivity.
  - unfold path_matches, normalize_path_view.
    rewrite Hd, Hp, String.eqb_refl. reflexivity.
Qed.

Lemma stat_reports_the_created_row_witness :
  appendfs_stat (snd (run_create (fresh_store 4096) "/l" (Symlink "/t") 7))
    "/l"
  = Ok (info_of (created_row (fresh_store 4096) "/l" (Symlink "/t") 7)).
Proof.
  apply (stat_reports_the_created_row (fresh_store 4096) _ "/l"
           (Symlink "/t") 7).
  vm_compute; reflexivity.
Defined.

(** X16.  A failed [appendfs_create_file], [appendfs_mkdir] or
    [appendfs_symlink] leaves the inode table and the data file as they
    were, also when it is the record append that fails: the row added in
    memory is dropped again.  Only the inode id it had taken is not
    given back. *)
Theorem failed_creation_restores_the_inode_table
    (ctx ctx' : appendfs_context) (p : string) (call : create_call)
    (now : Z) (e : errno) :
  run_create ctx p call now = (Err e, ctx') ->
  inodes ctx' = inodes ctx
  /\ data_fd ctx' = data_fd ctx
  /\ (next_inode_id ctx' = next_inode_id ctx
      \/ next_inode_id ctx' = u64 (next_inode_id ctx + 1)).
Proof.
  intros H. apply run_create_outcome in H.
  destruct H as [(e' & _ & ->)|(_ & c3 & r3 & E & Hcase)].
  - split; [reflexivity|]. split; [reflexivity|]. left. reflexivity.
  - destruct Hcase as [(_ & He & _)|(e' & _ & _ & ->)]; [discriminate He|].
    apply append_create_record_frame in E. rewrite E.
    unfold drop_last_inode.
    cbn [inodes data_fd next_inode_id set_inodes set_meta_fd
         set_next_inode_id].
    rewrite removelast_last. repeat split. right. reflexivity.
Qed.

Lemma failed_creation_restores_the_inode_table_witness :
  inodes (snd (run_create (meta_device_full store_f) "/g" (CreateFile 420) 2))
  = inodes (meta_device_full store_f)
  /\ data_fd (snd (run_create (meta_device_full store_f) "/g"
                     (CreateFile 420) 2))
     = data_fd (meta_device_full store_f)
  /\ (next_inode_id (snd (run_create (meta_device_full store_f) "/g"
                            (CreateFile 420) 2))
      = next_inode_id (meta_device_full store_f)
      \/ next_inode_id (snd (run_create (meta_device_full store_f) "/g"
                               (CreateFile 420) 2))
         = u64 (next_inode_id (meta_device_full store_f) + 1)).
Proof.
  apply (failed_creation_restores_the_inode_table
           (meta_device_full store_f) _ "/g" (CreateFile 420) 2 ENOSPC).
  vm_compute; reflexivity.
Defined.

(** ** Extended attributes: what the read calls see *)

Lemma find_index_alter_at {A} (p : A -> bool) (f : A -> A) (l : list A) :
  forall k x,
    l !! k = Some x -> p (f x) = p x ->
    find_index p (alter f k l) = find_index p l.
Proof.
  induction l as [|a l IH]; intros k x Hx Hp; [reflexivity|].
  destruct k as [|k]; cbn [alter list_alter find_index].
  - cbn in Hx. injection Hx as ->. rewrite Hp. reflexivity.
  - cbn in Hx. fold (alter f k l). rewrite (IH k x Hx Hp). reflexivity.
Qed.

Lemma find_inode_by_path_replaced (c c' : appendfs_context) (k : nat)
    (i1 : appendfs_inode) (p : string) :
  (k < List.length (inodes c))%nat ->
  inodes c' = alter (fun _ => i1) k (inodes c) ->
  path i1 = path (inode_at c k) -> deleted i1 = deleted (inode_at c k) ->
  find_inode_by_path c' p = find_inode_by_path c p
  /\ inode_at c' k = i1.
Proof.
  intros Hlt Hc Hp Hd. split.
  - unfold find_inode_by_path. rewrite Hc.
    apply (find_index_alter_at _ _ _ k (inode_at c k)).
    + apply lookup_nth_inode. exact Hlt.
    + unfold path_matches. rewrite Hp, Hd. reflexivity.
  - exact (inode_at_update_same c c' k (fun _ => i1) Hlt Hc).
Qed.

Lemma set_xattr_internal_Ok (i i1 : appendfs_inode) (name : string)
    (value : list byte) (flags : Z) :
  set_xattr_internal i name value flags = (Ok tt, i1) ->
  path i1 = path i /\ deleted i1 = deleted i
  /\ exists k, find_xattr i1 name = Some k
               /\ forall d, xa_value (nth k (xattrs i1) d) = value.
Proof.
  unfold set_xattr_internal. intros H.
  repeat match type of H with
         | (if ?b then _ else _) = _ => destruct b; [discriminate H|]
         end.
  destruct (find_xattr i name) as [k|] eqn:Ef; injection H as <-;
    (split; [reflexivity|]); (split; [reflexivity|]).
  - exists k. unfold find_xattr in *. cbn [xattrs set_xattrs].
    destruct (find_index_Some _ _ _ Ef) as (x & Hx & Hn & _).
    split.
    + rewrite (find_index_ext_alter _ _ k) by reflexivity. exact Ef.
    + intros d. rewrite nth_lookup, list_lookup_alter_eq, Hx. reflexivity.
  - exists (List.length (xattrs i)). unfold find_xattr in *.
    cbn [xattrs set_xattrs]. split.
    + apply find_index_app_last; [exact Ef|]. apply String.eqb_refl.
    + intros d. rewrite nth_middle. reflexivity.
Qed.

Lemma setxattr_Ok_shape (ctx ctx' : appendfs_context) (p name : string)
    (value : list byte) (flags : Z) :
  appendfs_setxattr ctx p name value flags = (Ok tt, ctx') ->
  exists idx inode1,
    find_inode_by_path ctx p = Some idx
    /\ deleted (inode_at ctx idx) = false
    /\ set_xattr_internal (inode_at ctx idx) name value flags
       = (Ok tt, inode1)
    /\ inodes ctx' = alter (fun _ => inode1) idx (inodes ctx).
Proof.
  intros H. unfold appendfs_setxattr in H.
  destruct (find_inode_by_path ctx p) as [idx|] eqn:Ef; [|discriminate H].
  destruct (deleted (inode_at ctx idx)) eqn:Ed; [discriminate H|].
  destruct (set_xattr_internal (inode_at ctx idx) name value flags)
    as [[[]|e] inode1] eqn:Es; [|discriminate H].
  unfold append_setxattr_record in H.
  split_write_record H E c2. injection H as <-.
  exists idx, inode1. repeat split; try assumption.
  rewrite (write_record_inodes _ _ _ _ _ E). reflexivity.
Qed.

(** X17.  After a successful [appendfs_setxattr], [appendfs_getxattr]
    of the same path and name finds the value: with a null buffer it
    returns the length; with a buffer of at least that size it returns
    the length and stores the value at the start of the buffer; with a
    smaller one it fails with ERANGE and leaves the buffer alone. *)
Theorem getxattr_returns_what_setxattr_stored (ctx ctx' : appendfs_context)
    (p name : string) (value buf : list byte) (flags size : Z) :
  appendfs_setxattr ctx p name value flags = (Ok tt, ctx') ->
  appendfs_getxattr ctx' p name None size = (Ok (zlen value), None)
  /\ (zlen value <= size -> size <= zlen buf ->
      appendfs_getxattr ctx' p name (Some buf) size
      = (Ok (zlen value), Some (value ++ skipn (List.length value) buf)))
  /\ (size < zlen value ->
      appendfs_getxattr ctx' p name (Some buf) size
      = (Err ERANGE, Some buf)).
Proof.
  intros H.
  destruct (setxattr_Ok_shape _ _ _ _ _ _ H)
    as (idx & inode1 & Ef & Ed & Es & Hin).
  pose proof (find_inode_by_path_lt _ _ _ Ef) as Hlt.
  destruct (set_xattr_internal_Ok _ _ _ _ _ Es)
    as (Hp & Hdel & k & Hk & Hv).
  destruct (find_inode_by_path_replaced ctx ctx' idx inode1 p Hlt Hin Hp Hdel)
    as [Ef' Erow].
  unfold appendfs_getxattr.
  rewrite Ef', Ef, Erow, Hdel, Ed, Hk, Hv.
  split; [reflexivity|]. split; [intros Hsz _|intros Hsz].
  - replace (size <? zlen value) with false
      by (symmetry; apply Z.ltb_ge; exact Hsz).
    reflexivity.
  - replace (size <? zlen value) with true
      by (symmetry; apply Z.ltb_lt; exact Hsz).
    reflexivity.
Qed.

Lemma getxattr_returns_what_setxattr_stored_witness :
  appendfs_getxattr store_f_xattr "/f" "user.k" None 4
  = (Ok (zlen [x76]), None)
  /\ (zlen [x76] <= 4 -> 4 <= zlen [x00; x00; x00; x00] ->
      appendfs_getxattr store_f_xattr "/f" "user.k"
        (Some [x00; x00; x00; x00]) 4
      = (Ok (zlen [x76]),
         Some ([x76] ++ skipn (List.length [x76]) [x00; x00; x00; x00])))
  /\ (4 < zlen [x76] ->
      appendfs_getxattr store_f_xattr "/f" "user.k"
        (Some [x00; x00; x00; x00]) 4
      = (Err ERANGE, Some [x00; x00; x00; x00])).
Proof.
  apply (getxattr_returns_what_setxattr_stored store_f store_f_xattr "/f"
           "user.k" [x76] [x00; x00; x00; x00] 0 4).
  vm_compute; reflexivity.
Defined.

Lemma find_index_delete_NoDup {A} (key : A -> string) (n : string)
    (l : list A) :
  forall k,
    NoDup (map key l) ->
    find_index (fun x => String.eqb (key x) n) l = Some k ->
    find_index (fun x => String.eqb (key x) n) (delete k l) = None.
Proof.
  induction l as [|a l IH]; intros k Hnd Hk; [discriminate Hk|].
  cbn [map] in Hnd. apply NoDup_cons in Hnd as [Hnotin Hnd].
  cbn [find_index] in Hk. destruct (String.eqb (key a) n) eqn:Ea.
  - injection Hk as <-. cbn [delete list_delete].
    apply String.eqb_eq in Ea. subst n.
    apply find_index_None_intro. intros x Hx.
    apply String.eqb_neq. intros Ex. apply Hnotin. rewrite <- Ex.
    apply list_elem_of_In, in_map. exact Hx.
  - destruct (find_index _ l) as [k'|] eqn:Ek; [|discriminate Hk].
    injection Hk as <-. pose proof (IH k' Hnd eq_refl) as IH'.
    unfold delete at 1. cbn [list_delete find_index].
    rewrite Ea, IH'. reflexivity.
Qed.

(** X18.  After a successful [appendfs_removexattr], [appendfs_getxattr]
    of that name fails with ENODATA and leaves the buffer alone, as long
    as the names of the row were distinct. *)
Theorem getxattr_fails_after_removexattr (ctx ctx' : appendfs_context)
    (p name : string) (idx : nat) (value : option (list byte)) (size : Z) :
  find_inode_by_path ctx p = Some idx ->
  NoDup (map xa_name (xattrs (inode_at ctx idx))) ->
  appendfs_removexattr ctx p name = (Ok tt, ctx') ->
  appendfs_getxattr ctx' p name value size = (Err ENODATA, value).
Proof.
  intros Ef Hnd H. unfold appendfs_removexattr in H. rewrite Ef in H.
  pose proof (find_inode_by_path_lt _ _ _ Ef) as Hlt.
  destruct (deleted (inode_at ctx idx)) eqn:Ed; [discriminate H|].
  destruct (find_xattr (inode_at ctx idx) name) as [k|] eqn:Ek;
    [|discriminate H].
  unfold remove_xattr_internal in H. rewrite Ek in H.
  unfold append_removexattr_record in H.
  split_write_record H E c2. injection H as <-.
  assert (Hin : inodes c2
                = alter (fun _ => set_xattrs
                                    (delete k (xattrs (inode_at ctx idx)))
                                    (inode_at ctx idx)) idx (inodes ctx))
    by (rewrite (write_record_inodes _ _ _ _ _ E); reflexivity).
  destruct (find_inode_by_path_replaced ctx c2 idx _ p Hlt Hin
              eq_refl eq_refl) as [Ef' Erow].
  unfold appendfs_getxattr. rewrite Ef', Ef, Erow.
  cbn [deleted set_xattrs]. rewrite Ed.
  unfold find_xattr in *. cbn [xattrs set_xattrs].
  rewrite (find_index_delete_NoDup xa_name name _ k Hnd Ek). reflexivity.
Qed.

Lemma getxattr_fails_after_removexattr_witness :
  appendfs_getxattr (snd (appendfs_removexattr store_f_xattr "/f" "user.k"))
    "/f" "user.k" (Some [x00]) 1
  = (Err ENODATA, Some [x00]).
Proof.
  apply (getxattr_fails_after_removexattr store_f_xattr _ "/f" "user.k" 0
           (Some [x00]) 1).
  - vm_compute; reflexivity.
  - replace (xattrs (inode_at store_f_xattr 0))
      with [mkXattr "user.k" [x76]] by (vm_compute; reflexivity).
    apply NoDup_singleton.
  - vm_compute; reflexivity.
Defined.

Lemma memcpy_at_app (pre rest src : list byte) (off : Z) :
  off = zlen pre ->
  memcpy_at (pre ++ rest) off src
  = pre ++ src ++ skipn (List.length src) rest.
Proof.
  intros ->. unfold memcpy_at, zlen. rewrite Nat2Z.id.
  rewrite take_app_length. do 2 f_equal.
  rewrite drop_app_ge by lia. f_equal. lia.
Qed.

Lemma listxattr_total_block (xs : list appendfs_xattr) :
  listxattr_total xs = zlen (names_block xs).
Proof.
  unfold listxattr_total.
  assert (H : forall a,
            fold_left (fun total x => total + (strlen (xa_name x) + 1)) xs a
            = a + zlen (names_block xs)).
  { induction xs as [|x xs IH]; intros a; cbn [fold_left].
    - unfold names_block. cbn. unfold zlen. cbn. lia.
    - rewrite IH. unfold names_block. cbn [map concat].
      rewrite !zlen_app, zlen_bytes_of_string.
      change (zlen [x00]) with 1. lia. }
  rewrite H. lia.
Qed.

Lemma listxattr_fill_block (xs : list appendfs_xattr) :
  forall pre rest off,
    off = zlen pre ->
    listxattr_fill xs (pre ++ rest) off
    = pre ++ names_block xs
      ++ skipn (List.length (names_block xs)) rest.
Proof.
  induction xs as [|x xs IH]; intros pre rest off Hoff.
  - reflexivity.
  - cbn [listxattr_fill]. unfold store_byte.
    rewrite (memcpy_at_app pre rest _ off Hoff).
    rewrite app_assoc.
    rewrite (memcpy_at_app (pre ++ bytes_of_string (xa_name x)) _ [x00])
      by (rewrite zlen_app, zlen_bytes_of_string; lia).
    rewrite app_assoc.
    rewrite (IH _ _ (off + strlen (xa_name x) + 1))
      by (rewrite !zlen_app, zlen_bytes_of_string;
          change (zlen [x00]) with 1; lia).
    unfold names_block. cbn [map concat].
    rewrite <- !app_assoc. do 3 f_equal.
    rewrite !drop_drop. f_equal.
    rewrite !length_app. cbn [List.length].
    first [reflexivity | f_equal; lia | lia].
Qed.

(** X19.  [appendfs_listxattr] reports the names of a live row in array
    order, each followed by its terminator: with a null buffer it
    returns the length of that block; with a buffer of at least that
    size it returns the length and stores the block at the start of the
    buffer; with a smaller one it fails with ERANGE and leaves the
    buffer alone. *)
Theorem listxattr_lays_out_the_names (ctx : appendfs_context) (p : string)
    (idx : nat) (buf : list byte) (size : Z) :
  find_inode_by_path ctx p = Some idx ->
  appendfs_listxattr ctx p None size
  = (Ok (zlen (names_block (xattrs (inode_at ctx idx)))), None)
  /\ (zlen (names_block (xattrs (inode_at ctx idx))) <= size ->
      size <= zlen buf ->
      appendfs_listxattr ctx p (Some buf) size
      = (Ok (zlen (names_block (xattrs (inode_at ctx idx)))),
         Some (names_block (xattrs (inode_at ctx idx))
               ++ skipn (List.length
                           (names_block (xattrs (inode_at ctx idx)))) buf)))
  /\ (size < zlen (names_block (xattrs (inode_at ctx idx))) ->
      appendfs_listxattr ctx p (Some buf) size = (Err ERANGE, Some buf)).
Proof.
  intros Ef. unfold appendfs_listxattr.
  rewrite Ef, (found_is_live _ _ _ Ef), listxattr_total_block.
  split; [reflexivity|]. split; [intros Hsz _|intros Hsz].
  - replace (size <? _) with false by (symmetry; apply Z.ltb_ge; exact Hsz).
    rewrite (listxattr_fill_block _ [] buf 0 eq_refl). reflexivity.
  - replace (size <? _) with true by (symmetry; apply Z.ltb_lt; exact Hsz).
    reflexivity.
Qed.

Lemma listxattr_lays_out_the_names_witness :
  appendfs_listxattr store_f_xattr "/f" None 8
  = (Ok (zlen (names_block (xattrs (inode_at store_f_xattr 0)))), None)
  /\ (zlen (names_block (xattrs (inode_at store_f_xattr 0))) <= 8 ->
      8 <= zlen (repeat xff 8) ->
      appendfs_listxattr store_f_xattr "/f" (Some (repeat xff 8)) 8
      = (Ok (zlen (names_block (xattrs (inode_at store_f_xattr 0)))),
         Some (names_block (xattrs (inode_at store_f_xattr 0))
               ++ skipn (List.length
                           (names_block (xattrs (inode_at store_f_xattr 0))))
                        (repeat xff 8))))
  /\ (8 < zlen (names_block (xattrs (inode_at store_f_xattr 0))) ->
      appendfs_listxattr store_f_xattr "/f" (Some (repeat xff 8)) 8
      = (Err ERANGE, Some (repeat xff 8))).
Proof.
  apply (listxattr_lays_out_the_names store_f_xattr "/f" 0 (repeat xff 8) 8).
  vm_compute; reflexivity.
Defined.

(** ** Reading a link back *)

Lemma created_row_found (ctx ctx' : appendfs_context) (p : string)
    (call : create_call) (now : Z) :
  run_create ctx p call now = (Ok tt, ctx') ->
  find_inode_by_path ctx' p = Some (List.length (inodes ctx))
  /\ inode_at ctx' (List.length (inodes ctx)) = created_row ctx p call now.
Proof.
  intros H. apply run_create_outcome in H.
  destruct H as [(e & He & _)|(Hfree & c3 & r3 & E & Hcase)];
    [discriminate He|].
  destruct Hcase as [(_ & _ & ->)|(e & _ & He & _)]; [|discriminate He].
  apply append_create_record_frame in E.
  assert (Hin : inodes c3
                = inodes ctx ++ [created_row ctx p call now])
    by (rewrite E; reflexivity).
  assert (Hrow : deleted (created_row ctx p call now) = false
                 /\ path (created_row ctx p call now)
                    = normalize_path_copy p)
    by (destruct call; split; reflexivity).
  destruct Hrow as [Hd Hp].
  unfold find_inode_by_path, inode_at. rewrite Hin. split.
  - apply find_index_app_last; [exact Hfree|].
    unfold path_matches, normalize_path_view.
    rewrite Hd, Hp, String.eqb_refl. reflexivity.
  - apply nth_middle.
Qed.

(** X20.  After a successful [appendfs_symlink], [appendfs_readlink] of
    the link with a buffer of at least two bytes stores the target, cut
    to [size - 1] bytes if it is longer, and a terminator behind it; the
    value returned is the full length of the target, also when it was
    cut. *)
Theorem readlink_returns_the_target_of_symlink
    (ctx ctx' : appendfs_context) (target linkpath : string)
    (buf : list byte) (size now now' : Z) :
  appendfs_symlink ctx target linkpath now = (Ok tt, ctx') ->
  2 <= size < 2 ^ 64 -> size <= zlen buf ->
  fst (appendfs_readlink ctx' linkpath buf size now')
  = (Ok (strlen target),
     firstn (Z.to_nat (Z.min (strlen target) (size - 1)))
            (bytes_of_string target)
     ++ [x00]
     ++ skipn (Z.to_nat (Z.min (strlen target) (size - 1)) + 1) buf).
Proof.
  intros H Hsize Hbuf.
  destruct (created_row_found ctx ctx' linkpath (Symlink target) now H)
    as [Ef Erow].
  pose proof (strlen_nonneg target) as Ht0.
  unfold appendfs_readlink. rewrite Ef, Erow.
  cbn [created_row deleted mode symlink_target].
  change (S_ISLNK (Z.lor S_IFLNK 511)) with true. cbn [negb].
  replace (size =? 0) with false by (symmetry; apply Z.eqb_neq; lia).
  replace (size =? 1) with false by (symmetry; apply Z.eqb_neq; lia).
  rewrite (u64_small (size - 1)) by lia.
  assert (Hcopy : (if strlen target <? size - 1 then strlen target
                   else size - 1) = Z.min (strlen target) (size - 1)).
  { destruct (strlen target <? size - 1) eqn:E.
    - apply Z.ltb_lt in E. lia.
    - apply Z.ltb_ge in E. lia. }
  rewrite Hcopy. cbn [fst]. f_equal.
  set (copy := Z.min (strlen target) (size - 1)).
  set (src := firstn (Z.to_nat copy) (bytes_of_string target)).
  assert (Hsrc : zlen src = copy).
  { subst src. unfold zlen. rewrite length_take.
    rewrite length_bytes_of_string. unfold strlen in *. subst copy. lia. }
  unfold store_byte.
  rewrite (memcpy_at_0 buf src).
  rewrite (memcpy_at_app src _ [x00] copy (eq_sym Hsrc)).
  do 2 f_equal. rewrite drop_drop. f_equal.
  cbn [List.length]. unfold zlen in Hsrc. lia.
Qed.

Lemma readlink_returns_the_target_of_symlink_witness :
  fst (appendfs_readlink
         (snd (appendfs_symlink (fresh_store 4096) "/long/target" "/l" 1))
         "/l" (repeat xff 6) 6 2)
  = (Ok (strlen "/long/target"),
     firstn (Z.to_nat (Z.min (strlen "/long/target") (6 - 1)))
            (bytes_of_string "/long/target")
     ++ [x00]
     ++ skipn (Z.to_nat (Z.min (strlen "/long/target") (6 - 1)) + 1)
              (repeat xff 6)).
Proof.
  apply (readlink_returns_the_target_of_symlink (fresh_store 4096) _
           "/long/target" "/l" (repeat xff 6) 6 1 2).
  - vm_compute; reflexivity.
  - lia.
  - vm_compute; congruence.
Defined.

(** ** Truncation trims the extents *)




(** ** Reading stays within the request *)

Lemma length_memcpy_at (dst src : list byte) (off : Z) :
  0 <= off -> off + zlen src <= zlen dst ->
  zlen (memcpy_at dst off src) = zlen dst.
Proof.
  intros Ho Hfit. unfold memcpy_at, zlen in *.
  rewrite !length_app, length_take, length_drop. lia.
Qed.

Lemma skipn_memcpy_at (dst src : list byte) (off : Z) (t : nat) :
  0 <= off -> off + zlen src <= zlen dst ->
  off + zlen src <= Z.of_nat t ->
  skipn t (memcpy_at dst off src) = skipn t dst.
Proof.
  intros Ho Hfit Ht. unfold memcpy_at, zlen in *.
  rewrite drop_app_ge by (rewrite length_take; lia).
  rewrite drop_app_ge by (rewrite length_take; lia).
  rewrite drop_drop. f_equal. rewrite length_take. lia.
Qed.

Lemma read_extents_bounded (data : file) (size offset : Z)
    (exts : list appendfs_extent) :
  0 <= offset -> offset + size < 2 ^ 63 ->
  Forall (fun e => - 2 ^ 63 <= logical_offset e + ext_length e < 2 ^ 63)
         exts ->
  forall out total t out',
    0 <= total <= size -> size <= zlen out ->
    read_extents data exts out size offset total = (Ok t, out') ->
    total <= t <= size
    /\ zlen out' = zlen out
    /\ skipn (Z.to_nat t) out' = skipn (Z.to_nat t) out.
Proof.
  intros Ho Hb Hall.
  induction Hall as [|e exts Hend _ IH]; intros out total t out' Ht Hout H.
  - cbn in H. injection H as <- <-. repeat split; lia.
  - cbn [read_extents] in H.
    destruct (total <? size) eqn:Elt;
      [|injection H as <- <-; repeat split; lia].
    apply Z.ltb_lt in Elt.
    rewrite (s64_small (logical_offset e + ext_length e)) in H by lia.
    destruct (offset >=? logical_offset e + ext_length e);
      [exact (IH _ _ _ _ Ht Hout H)|].
    rewrite (u64_small (size - total)) in H by lia.
    rewrite (s64_small (size - total)) in H by lia.
    rewrite (s64_small (offset + (size - total))) in H by lia.
    set (start := if offset >? logical_offset e then offset
                  else logical_offset e) in *.
    set (end_ := if logical_offset e + ext_length e
                    >? offset + (size - total)
                 then offset + (size - total)
                 else logical_offset e + ext_length e) in *.
    assert (Hstart : offset <= start).
    { subst start. destruct (offset >? logical_offset e) eqn:E; [lia|].
      apply gtb_false_inv in E. lia. }
    assert (Hendb : end_ <= offset + (size - total)).
    { subst end_.
      destruct (logical_offset e + ext_length e >? offset + (size - total))
        eqn:E; [lia|]. apply gtb_false_inv in E. lia. }
    destruct (start >=? end_) eqn:Ese; [exact (IH _ _ _ _ Ht Hout H)|].
    rewrite Z.geb_leb in Ese. apply Z.leb_gt in Ese.
    rewrite (u64_small (end_ - start)) in H by lia.
    match type of H with
    | context [sys_pread data ?n ?pos] => set (got := sys_pread data n pos) in *
    end.
    destruct (zlen got =? end_ - start) eqn:Eg; [|discriminate H].
    apply Z.eqb_eq in Eg.
    rewrite (u64_small (total + (end_ - start))) in H by lia.
    assert (Hlen1 : zlen (memcpy_at out total got) = zlen out)
      by (apply length_memcpy_at; lia).
    destruct (IH (memcpy_at out total got) (total + (end_ - start)) t out')
      as (Ht' & Hl' & Hs'); [lia|lia|exact H|].
    split; [lia|]. split; [lia|].
    rewrite Hs'. apply skipn_memcpy_at; lia.
Qed.

(** X22.  A successful [appendfs_read] returns between 0 and [size]
    bytes, keeps the length of the caller's buffer, leaves every byte of
    it behind the returned count as it was, and writes to neither
    backing file.  (The buffer holds at least [size] bytes; offsets and
    extent ends are in the range of [off_t].) *)
Theorem read_stays_within_the_request (ctx ctx' : appendfs_context)
    (p : string) (out out' : list byte) (size offset now t : Z)
    (idx : nat) :
  find_inode_by_path ctx p = Some idx ->
  Forall (fun e => - 2 ^ 63 <= logical_offset e + ext_length e < 2 ^ 63)
         (extents (inode_at ctx idx)) ->
  0 <= offset -> 0 <= size <= zlen out -> offset + size < 2 ^ 63 ->
  appendfs_read ctx p out size offset now = (Ok t, out', ctx') ->
  0 <= t <= size
  /\ zlen out' = zlen out
  /\ skipn (Z.to_nat t) out' = skipn (Z.to_nat t) out
  /\ data_fd ctx' = data_fd ctx /\ meta_fd ctx' = meta_fd ctx.
Proof.
  intros Ef Hall Ho Hs Hb H. unfold appendfs_read in H. rewrite Ef in H.
  destruct (deleted (inode_at ctx idx)); [discriminate H|].
  destruct (offset >=? isize (inode_at ctx idx)).
  { injection H as <- <- <-. repeat split; lia. }
  destruct (read_extents (data_fd ctx) (extents (inode_at ctx idx)) out size
              offset 0) as [[t1|e] out1] eqn:E; [|discriminate H].
  injection H as <- <- <-.
  destruct (read_extents_bounded (data_fd ctx) size offset _ Ho Hb Hall
              out 0 t1 out1) as (Ht & Hl & Hsk); [lia|lia|exact E|].
  split; [lia|]. split; [exact Hl|]. split; [exact Hsk|].
  destruct (t1 >? 0); split; reflexivity.
Qed.

Lemma read_stays_within_the_request_witness :
  0 <= 2 <= 4
  /\ zlen (snd (fst (appendfs_read
                       (snd (fst (appendfs_flush (fst store_f_written)
                                    (snd store_f_written) 4)))
                       "/f" (repeat xff 6) 4 1 5)))
     = zlen (repeat xff 6)
  /\ skipn (Z.to_nat 2)
           (snd (fst (appendfs_read
                        (snd (fst (appendfs_flush (fst store_f_written)
                                     (snd store_f_written) 4)))
                        "/f" (repeat xff 6) 4 1 5)))
     = skipn (Z.to_nat 2) (repeat xff 6)
  /\ data_fd (snd (appendfs_read
                     (snd (fst (appendfs_flush (fst store_f_written)
                                  (snd store_f_written) 4)))
                     "/f" (repeat xff 6) 4 1 5))
     = data_fd (snd (fst (appendfs_flush (fst store_f_written)
                            (snd store_f_written) 4)))
  /\ meta_fd (snd (appendfs_read
                     (snd (fst (appendfs_flush (fst store_f_written)
                                  (snd store_f_written) 4)))
                     "/f" (repeat xff 6) 4 1 5))
     = meta_fd (snd (fst (appendfs_flush (fst store_f_written)
                            (snd store_f_written) 4))).
Proof.
  apply (read_stays_within_the_request
           (snd (fst (appendfs_flush (fst store_f_written)
                        (snd store_f_written) 4))) _
           "/f" (repeat xff 6) _ 4 1 5 2 0).
  - vm_compute; reflexivity.
  - apply (bool_decide_unpack _); vm_compute; exact I.
  - lia.
  - vm_compute; split; congruence.
  - lia.
  - vm_compute; reflexivity.
Defined.

(** ** Replay never builds two rows with one inode id *)

Lemma NoDup_ids_alter (f : appendfs_inode -> appendfs_inode) (k : nat)
    (l : list appendfs_inode) :
  (forall x, inode_id (f x) = inode_id x) ->
  NoDup (map inode_id l) -> NoDup (map inode_id (alter f k l)).
Proof. intros Hf H. rewrite ids_alter by exact Hf. exact H. Qed.

Lemma snd_set_xattr_internal_id (r : appendfs_inode) (name : string)
    (value : list byte) (flags : Z) :
  inode_id (snd (set_xattr_internal r name value flags)) = inode_id r.
Proof.
  destruct (set_xattr_internal r name value flags) as [res i1] eqn:E.
  exact (set_xattr_internal_id _ _ _ _ _ _ E).
Qed.

Lemma snd_remove_xattr_internal_id (r : appendfs_inode) (name : string) :
  inode_id (snd (remove_xattr_internal r name)) = inode_id r.
Proof.
  destruct (remove_xattr_internal r name) as [res i1] eqn:E.
  exact (remove_xattr_internal_id _ _ _ _ E).
Qed.

Ltac id_kept :=
  let x := fresh "x" in
  intros x; cbn;
  repeat match goal with
         | |- context [if ?b then _ else _] => destruct b
         end; reflexivity.

Lemma apply_create_NoDup_ids (c : appendfs_context) (payload : list byte) :
  NoDup (map inode_id (inodes c)) ->
  NoDup (map inode_id (inodes (apply_create c payload))).
Proof.
  intros H. unfold apply_create.
  destruct (zlen payload <? 28); [exact H|].
  destruct (32 + field payload 28 4 >? zlen payload); [exact H|].
  destruct (find_inode_by_id c (field payload 0 8)) as [i|] eqn:Ef.
  - match goal with
    | |- context [if ?b then _ else _] => destruct b
    end; cbn [inodes set_next_inode_id update_inode set_inodes];
      (apply NoDup_ids_alter; [id_kept|]);
      (apply NoDup_ids_alter; [reflexivity|exact H]).
  - assert (Hnew : NoDup (map inode_id
                     (inodes c ++ [mkInode (field payload 0 8) EmptyString
                                     0 0 0 0 0 false [] None []]))).
    { rewrite map_app. cbn [map]. apply NoDup_app. split; [exact H|].
      split; [|apply NoDup_singleton].
      intros x Hx Hx'. apply list_elem_of_singleton in Hx'. subst x.
      apply list_elem_of_In, in_map_iff in Hx as (r & Er & Hr).
      pose proof (find_index_None _ _ Ef r Hr) as Hne. cbn in Hne.
      apply Z.eqb_neq in Hne. contradiction. }
    match goal with
    | |- context [if ?b then _ else _] => destruct b
    end; cbn [inodes set_next_inode_id update_inode set_inodes];
      (apply NoDup_ids_alter; [id_kept|exact Hnew]).
Qed.

Ltac by_id_NoDup H :=
  match goal with
  | |- context [find_inode_by_id ?c ?id] =>
      destruct (find_inode_by_id c id); [|exact H]
  end;
  apply NoDup_ids_alter; [|exact H].

Lemma apply_record_NoDup_ids (c : appendfs_context) (type : Z)
    (payload : list byte) :
  NoDup (map inode_id (inodes c)) ->
  NoDup (map inode_id (inodes (apply_record c type payload))).
Proof.
  intros H. unfold apply_record.
  destruct (_ || _); [apply apply_create_NoDup_ids; exact H|].
  destruct (type =? APPENDFS_RECORD_EXTENT).
  { unfold apply_extent. destruct (_ <? _); [exact H|]. by_id_NoDup H.
    intros x. cbn.
    match goal with
    | |- context [if ?b then _ else _] => destruct b
    end; reflexivity. }
  destruct (type =? APPENDFS_RECORD_TRUNCATE).
  { unfold apply_truncate. destruct (_ <? _); [exact H|]. by_id_NoDup H.
    reflexivity. }
  destruct (type =? APPENDFS_RECORD_UNLINK).
  { unfold apply_unlink. destruct (_ <? _); [exact H|]. by_id_NoDup H.
    reflexivity. }
  destruct (type =? APPENDFS_RECORD_RENAME).
  { unfold apply_rename. destruct (_ <? _); [exact H|].
    destruct (_ >? _); [exact H|]. by_id_NoDup H. reflexivity. }
  destruct (type =? APPENDFS_RECORD_SETXATTR).
  { unfold apply_setxattr. destruct (_ <? _); [exact H|].
    destruct (_ >? _); [exact H|]. by_id_NoDup H.
    intros x. apply snd_set_xattr_internal_id. }
  destruct (type =? APPENDFS_RECORD_REMOVEXATTR).
  { unfold apply_removexattr. destruct (_ <? _); [exact H|].
    destruct (_ >? _); [exact H|]. by_id_NoDup H.
    intros x. apply snd_remove_xattr_internal_id. }
  destruct (type =? APPENDFS_RECORD_TIMES); [|exact H].
  unfold apply_times. destruct (_ <? _); [exact H|]. by_id_NoDup H.
  reflexivity.
Qed.

Lemma replay_loop_NoDup_ids (fuel : nat) :
  forall c,
    NoDup (map inode_id (inodes c)) ->
    NoDup (map inode_id (inodes (replay_loop fuel c))).
Proof.
  induction fuel as [|k IH]; intros c H; [exact H|].
  cbn [replay_loop].
  destruct (sys_read (meta_fd c) RECORD_HEADER_SIZE) as [header fd1].
  destruct (zlen header <? RECORD_HEADER_SIZE); [exact H|].
  destruct (read_all fd1 (field header 1 4)) as [[payload|] fd2];
    [|exact H].
  destruct (negb _).
  - apply IH. exact H.
  - apply IH. apply apply_record_NoDup_ids. exact H.
Qed.

(** X23.  Whatever the bytes of the two backing files, the table that
    [appendfs_open] builds has no two rows with the same inode id: a
    CREATE or MKDIR record for an id that is already in the table reuses
    its row. *)
Theorem open_never_builds_two_rows_with_one_id (data meta : file) :
  NoDup (map inode_id (inodes (appendfs_open data meta))).
Proof.
  unfold appendfs_open, replay_metadata.
  cbn [inodes set_meta_fd].
  apply replay_loop_NoDup_ids. cbn. constructor.
Qed.

(** ** Listing a directory, and when it counts as empty *)

Lemma iterate_rows_collect (parent : string) (rows : list appendfs_inode) :
  forall seen,
    iterate_rows parent collect_entry rows seen
    = seen ++ map (fun r => (child_name parent (path r), info_of r))
                  (List.filter (is_listed parent) rows).
Proof.
  induction rows as [|r rows IH]; intros seen.
  - cbn. rewrite app_nil_r. reflexivity.
  - cbn [iterate_rows List.filter]. unfold is_listed at 1.
    destruct (deleted r); cbn [negb andb]; [apply IH|].
    destruct (is_immediate_child parent (path r)); cbn [negb map].
    + unfold collect_entry at 1. cbn [negb Z.eqb].
      rewrite IH, <- app_assoc. reflexivity.
    + apply IH.
Qed.

Lemma char_at_length (s : string) : char_at s (String.length s) = Ascii.zero.
Proof.
  unfold char_at. induction s as [|c s IH]; [reflexivity|].
  cbn [String.length String.get]. exact IH.
Qed.

Lemma is_immediate_child_self (d : string) : is_immediate_child d d = false.
Proof.
  unfold is_immediate_child. destruct (String.eqb d "/") eqn:E.
  - apply String.eqb_eq in E. subst d. reflexivity.
  - destruct (negb (strncmp_eq d d (String.length d))); [reflexivity|].
    rewrite char_at_length. reflexivity.
Qed.

Lemma directory_empty_filter (ctx : appendfs_context) (p : string) :
  appendfs_is_directory_empty ctx p = true
  <-> List.filter (is_listed (normalize_path_view p)) (inodes ctx) = [].
Proof.
  unfold appendfs_is_directory_empty.
  induction (inodes ctx) as [|r rows IH]; [split; reflexivity|].
  cbn [forallb List.filter]. unfold is_listed at 1.
  destruct (deleted r); cbn [negb andb orb]; [exact IH|].
  destruct (String.eqb (path r) (normalize_path_view p)) eqn:Ep.
  - apply String.eqb_eq in Ep. rewrite Ep, is_immediate_child_self.
    cbn [orb andb]. exact IH.
  - cbn [orb].
    destruct (is_immediate_child (normalize_path_view p) (path r));
      cbn [negb andb]; [|exact IH].
    split; discriminate.
Qed.

(** X24.  The emptiness test of [appendfs_rmdir] and the listing agree:
    [appendfs_is_directory_empty] answers 1 exactly when
    [appendfs_iterate_children], run with a callback that always asks
    for the next entry, hands out nothing. *)
Theorem directory_is_empty_iff_nothing_is_listed (ctx : appendfs_context)
    (p : string) :
  appendfs_is_directory_empty ctx p = true <-> list_children ctx p = [].
Proof.
  rewrite directory_empty_filter.
  unfold list_children, appendfs_iterate_children. cbn [snd].
  rewrite iterate_rows_collect. cbn [app].
  split.
  - intros ->. reflexivity.
  - intros H. destruct (List.filter _ _); [reflexivity|discriminate H].
Qed.

(** ** A created row is listed in its parent *)

Lemma strrchr_None (s : string) (c : ascii) :
  strrchr s c = None -> strchr_found s c = false.
Proof.
  induction s as [|a r IH]; [reflexivity|].
  cbn [strrchr strchr_found]. destruct (strrchr r c); [discriminate|].
  destruct (Ascii.eqb a c); [discriminate|]. intros _. apply IH. reflexivity.
Qed.

Lemma strrchr_Some (s : string) (c : ascii) :
  forall k,
    strrchr s c = Some k ->
    char_at s k = c
    /\ strchr_found (str_drop (S k) s) c = false
    /\ (k < String.length s)%nat.
Proof.
  induction s as [|a r IH]; intros k H; [discriminate H|].
  cbn [strrchr] in H. destruct (strrchr r c) as [k'|] eqn:Er.
  - injection H as <-. destruct (IH k' eq_refl) as (Hc & Hn & Hl).
    split; [exact Hc|]. split; [exact Hn|]. cbn [String.length]. lia.
  - destruct (Ascii.eqb a c) eqn:Ea; [|discriminate H].
    injection H as <-. apply Ascii.eqb_eq in Ea.
    split; [exact Ea|]. split; [|cbn [String.length]; lia].
    cbn [str_drop]. apply strrchr_None.
    destruct r; exact Er.
Qed.

Lemma append_take_drop (k : nat) :
  forall s, String.append (str_take k s) (str_drop k s) = s.
Proof.
  induction k as [|k IH]; intros s; [reflexivity|].
  destruct s as [|c s]; [reflexivity|].
  cbn [str_take str_drop String.append]. rewrite IH. reflexivity.
Qed.

Lemma length_str_take (k : nat) :
  forall s, (k <= String.length s)%nat -> String.length (str_take k s) = k.
Proof.
  induction k as [|k IH]; intros s H; [reflexivity|].
  destruct s as [|c s]; [cbn in H; lia|].
  cbn [str_take String.length] in *. rewrite IH by lia. reflexivity.
Qed.

Lemma char_at_str_drop (n : nat) :
  forall s j, char_at (str_drop n s) j = char_at s (n + j).
Proof.
  induction n as [|n IH]; intros s j; [reflexivity|].
  destruct s as [|c s]; [destruct j; reflexivity|].
  cbn [str_drop]. rewrite IH. reflexivity.
Qed.

(** The parent [split_path] computes has the path as an immediate child,
    unless the path begins with two slashes. *)
Lemma split_path_immediate_child (p parent : string) :
  split_path p = Ok parent ->
  Ascii.eqb (char_at p 1) slash = false ->
  is_immediate_child parent p = true
  /\ Ascii.eqb (char_at parent 0) slash = true.
Proof.
  unfold split_path. intros H H1.
  destruct (negb (Ascii.eqb (char_at p 0) slash)) eqn:E0;
    [discriminate H|]. apply negb_false_iff in E0.
  destruct (Ascii.eqb (char_at p 1) Ascii.zero) eqn:E1; [discriminate H|].
  cbn [orb] in H.
  destruct (strrchr p slash) as [k|] eqn:Ek; [|discriminate H].
  destruct (Ascii.eqb (char_at p (S k)) Ascii.zero) eqn:En;
    [discriminate H|].
  destruct (strrchr_Some _ _ _ Ek) as (Hc & Hn & Hl).
  injection H as <-. destruct k as [|k].
  - split; [|reflexivity].
    unfold is_immediate_child. cbn [String.eqb Ascii.eqb].
    change (String.eqb "/" "/") with true. cbv iota.
    rewrite E0, E1. cbn [negb orb]. rewrite Hn. reflexivity.
  - destruct k as [|k].
    { rewrite Hc in H1. discriminate H1. }
    assert (Hlen : String.length (str_take (S (S k)) p) = S (S k))
      by (apply length_str_take; lia).
    assert (Hroot : String.eqb (str_take (S (S k)) p) "/" = false).
    { apply String.eqb_neq. intros E.
      apply (f_equal String.length) in E. rewrite Hlen in E.
      discriminate E. }
    split.
    + unfold is_immediate_child. rewrite Hroot, Hlen.
      assert (Hpre : strncmp_eq p (str_take (S (S k)) p) (S (S k)) = true).
      { rewrite <- Hlen at 2. apply strncmp_eq_prefix.
        exists (str_drop (S (S k)) p). symmetry. apply append_take_drop. }
      rewrite Hpre, Hc. cbn [negb]. change (Ascii.eqb slash slash) with true.
      cbn [negb]. rewrite char_at_str_drop, Nat.add_0_r, En, Hn.
      reflexivity.
    + destruct p as [|c p]; [discriminate E0|]. exact E0.
Qed.

(** X25.  A row stored by a successful [appendfs_create_file],
    [appendfs_mkdir] or [appendfs_symlink] is handed out by
    [appendfs_iterate_children] on the parent that [split_path] computes
    for it, under the name behind the last slash, unless the path
    begins with two slashes. *)
Theorem created_row_is_listed_in_its_parent (ctx ctx' : appendfs_context)
    (p parent : string) (call : create_call) (now : Z) :
  run_create ctx p call now = (Ok tt, ctx') ->
  split_path (normalize_path_copy p) = Ok parent ->
  Ascii.eqb (char_at (normalize_path_copy p) 1) slash = false ->
  In (child_name parent (normalize_path_copy p),
      info_of (created_row ctx p call now))
     (list_children ctx' parent).
Proof.
  intros H Hsplit Hslash.
  destruct (split_path_immediate_child _ _ Hsplit Hslash) as [Hchild Hp0].
  apply run_create_outcome in H.
  destruct H as [(e & He & _)|(Hfree & c3 & r3 & E & Hcase)];
    [discriminate He|].
  destruct Hcase as [(_ & _ & ->)|(e & _ & He & _)]; [|discriminate He].
  apply append_create_record_frame in E.
  assert (Hin : inodes c3
                = inodes ctx ++ [created_row ctx p call now])
    by (rewrite E; reflexivity).
  assert (Hrow : deleted (created_row ctx p call now) = false
                 /\ path (created_row ctx p call now)
                    = normalize_path_copy p)
    by (destruct call; split; reflexivity).
  destruct Hrow as [Hd Hpath].
  unfold list_children, appendfs_iterate_children. cbn [snd].
  rewrite iterate_rows_collect. cbn [app].
  assert (Hnorm : normalize_path_view parent = parent)
    by (unfold normalize_path_view, normalize_path_copy;
        rewrite Hp0; reflexivity).
  rewrite Hnorm, Hin, <- Hpath.
  apply (in_map (fun r => (child_name parent (path r), info_of r))).
  apply filter_In. split.
  - apply in_or_app. right. left. reflexivity.
  - unfold is_listed. rewrite Hd, Hpath, Hchild. reflexivity.
Qed.

Lemma created_row_is_listed_in_its_parent_witness :
  In (child_name "/d" (normalize_path_copy "/d/f"),
      info_of (created_row store_d "/d/f" (CreateFile 420) 2))
     (list_children (snd (run_create store_d "/d/f" (CreateFile 420) 2))
        "/d").
Proof.
  apply (created_row_is_listed_in_its_parent store_d _ "/d/f" "/d"
           (CreateFile 420) 2).
  - vm_compute; reflexivity.
  - vm_compute; reflexivity.
  - vm_compute; reflexivity.
Defined.

(** X26.  [appendfs_rmdir] succeeds only on a directory for which
    [appendfs_iterate_children] lists nothing; it then tombstones the
    row and keeps its path. *)
Theorem rmdir_removes_only_a_directory_that_lists_nothing
    (ctx ctx' : appendfs_context) (p : string) (now : Z) (idx : nat) :
  find_inode_by_path ctx p = Some idx ->
  appendfs_rmdir ctx p now = (Ok tt, ctx') ->
  list_children ctx p = []
  /\ S_ISDIR (mode (inode_at ctx idx)) = true
  /\ deleted (inode_at ctx' idx) = true
  /\ path (inode_at ctx' idx) = path (inode_at ctx idx).
Proof.
  intros Ef H. unfold appendfs_rmdir in H.
  destruct (String.eqb p "/"); [discriminate H|]. rewrite Ef in H.
  destruct (deleted (inode_at ctx idx)); [discriminate H|].
  destruct (S_ISDIR (mode (inode_at ctx idx))); [|discriminate H].
  destruct (appendfs_is_directory_empty ctx p) eqn:Ee; [|discriminate H].
  cbn [negb] in H. unfold append_unlink_record in H.
  split_write_record H E c2. injection H as <-.
  pose proof (find_inode_by_path_lt _ _ _ Ef) as Hlt.
  assert (Hrow : inode_at c2 idx
                 = set_mtime now (set_deleted true (inode_at ctx idx))).
  { apply (inode_at_update_same ctx c2 idx
             (fun i => set_mtime now (set_deleted true i)) Hlt).
    rewrite (write_record_inodes _ _ _ _ _ E). reflexivity. }
  split.
  - pose proof (directory_empty_filter ctx p) as [Hf _].
    unfold list_children, appendfs_iterate_children. cbn [snd].
    rewrite iterate_rows_collect, (Hf Ee). reflexivity.
  - rewrite Hrow. repeat split.
Qed.

Lemma rmdir_removes_only_a_directory_that_lists_nothing_witness :
  list_children store_d "/d" = []
  /\ S_ISDIR (mode (inode_at store_d 0)) = true
  /\ deleted (inode_at (snd (appendfs_rmdir store_d "/d" 2)) 0) = true
  /\ path (inode_at (snd (appendfs_rmdir store_d "/d" 2)) 0)
     = path (inode_at store_d 0).
Proof.
  apply (rmdir_removes_only_a_directory_that_lists_nothing store_d _ "/d" 2
           0).
  - vm_compute; reflexivity.
  - vm_compute; reflexivity.
Defined.

(** ** Opening is repeatable *)

Lemma replay_loop_rows (fuel : nat) :
  forall c1 c2,
    f_data (meta_fd c1) = f_data (meta_fd c2) ->
    f_pos (meta_fd c1) = f_pos (meta_fd c2) ->
    inodes c1 = inodes c2 -> next_inode_id c1 = next_inode_id c2 ->
    inodes (replay_loop fuel c1) = inodes (replay_loop fuel c2)
    /\ next_inode_id (replay_loop fuel c1)
       = next_inode_id (replay_loop fuel c2).
Proof.
  induction fuel as [|k IH]; intros c1 c2 Hd Hp Hi Hn; [split; assumption|].
  cbn [replay_loop]. unfold sys_read. rewrite Hd, Hp.
  destruct (zlen (slice (f_data (meta_fd c2)) (f_pos (meta_fd c2))
                    RECORD_HEADER_SIZE) <? RECORD_HEADER_SIZE);
    [split; assumption|].
  unfold read_all, sys_read. cbn [f_data f_pos].
  match goal with
  | |- context [zlen ?got <? ?n] =>
      destruct (zlen got <? n); [split; assumption|]
  end.
  match goal with
  | |- context [negb ?b] => destruct (negb b)
  end.
  - apply IH; cbn; try assumption; reflexivity.
  - match goal with
    | |- context [apply_record (set_meta_fd ?f1 c1) ?t ?pl] =>
        destruct (apply_record_rows (set_meta_fd f1 c1)
                    (set_meta_fd (mkFile (f_data (meta_fd c2))
                                    (f_pos f1) (f_room (meta_fd c2))) c2)
                    t pl Hi Hn) as [Ei En];
        apply IH; rewrite ?meta_fd_apply_record; cbn; try assumption;
        try reflexivity
    end.
Qed.

Lemma f_data_meta_fd_open (data meta : file) :
  f_data (meta_fd (appendfs_open data meta)) = f_data meta.
Proof.
  unfold appendfs_open, replay_metadata. cbn [meta_fd set_meta_fd].
  unfold lseek_end. cbn [f_data].
  destruct (replay_loop_keeps_log
              (S (List.length (f_data meta)))
              (set_meta_fd (lseek_set meta 0)
                 (mkContext data meta 1 [] APPENDFS_DEFAULT_BUFFER)))
    as [Hd _].
  exact Hd.
Qed.

Lemma open_rows_by_log (d1 m1 d2 m2 : file) :
  f_data m1 = f_data m2 ->
  inodes (appendfs_open d1 m1) = inodes (appendfs_open d2 m2)
  /\ next_inode_id (appendfs_open d1 m1)
     = next_inode_id (appendfs_open d2 m2).
Proof.
  intros H. unfold appendfs_open, replay_metadata.
  cbn [inodes next_inode_id set_meta_fd meta_fd]. rewrite H.
  apply replay_loop_rows; cbn; try reflexivity. exact H.
Qed.

(** X27.  Opening is repeatable and leaves the log alone: whatever the
    metadata file holds (torn tails and records with a wrong checksum
    included), [appendfs_open] does not change its bytes, and closing
    and opening again builds the same table and the same next inode
    id. *)
Theorem open_is_repeatable (data meta : file) :
  f_data (meta_fd (appendfs_open data meta)) = f_data meta
  /\ inodes (reopen (appendfs_open data meta))
     = inodes (appendfs_open data meta)
  /\ next_inode_id (reopen (appendfs_open data meta))
     = next_inode_id (appendfs_open data meta).
Proof.
  split; [apply f_data_meta_fd_open|].
  unfold reopen. apply open_rows_by_log. apply f_data_meta_fd_open.
Qed.

(** ** SEEK_DATA lands on data *)

Lemma seek_data_loop_in_data (exts : list appendfs_extent) (offset : Z) :
  Forall (fun e => 0 < ext_length e
                   /\ - 2 ^ 63 <= logical_offset e + ext_length e < 2 ^ 63)
         exts ->
  0 <= seek_data_loop exts offset ->
  offset <= seek_data_loop exts offset
  /\ Exists (fun e => logical_offset e <= seek_data_loop exts offset
                      < logical_offset e + ext_length e) exts.
Proof.
  intros Hall. induction Hall as [|e exts (Hlen & Hend) _ IH]; intros Hr.
  - cbn in Hr. lia.
  - cbn [seek_data_loop] in *.
    rewrite (s64_small (logical_offset e + ext_length e)) in * by lia.
    destruct (logical_offset e + ext_length e <=? offset) eqn:E1.
    + destruct (IH Hr) as [Ho Hex]. split; [exact Ho|].
      apply Exists_cons_tl. exact Hex.
    + apply Z.leb_gt in E1.
      destruct (offset <? logical_offset e) eqn:E2.
      * apply Z.ltb_lt in E2. split; [lia|]. apply Exists_cons_hd. lia.
      * apply Z.ltb_ge in E2. split; [lia|]. apply Exists_cons_hd. lia.
Qed.

(** X28.  With nothing buffered, a successful [appendfs_seek] with
    SEEK_DATA returns a position at or after the offset that lies inside
    an extent of the file, makes it the position of the open file and
    leaves the store alone.  (It is the first extent in array order that
    ends behind the offset, not necessarily the nearest data.) *)
Theorem seek_data_lands_inside_an_extent (ctx ctx' : appendfs_context)
    (f f' : appendfs_file) (offset now pos : Z) :
  buffer_used f <= 0 ->
  Forall (fun e => 0 < ext_length e
                   /\ - 2 ^ 63 <= logical_offset e + ext_length e < 2 ^ 63)
         (extents (inode_at ctx (of_inode f))) ->
  appendfs_seek ctx f offset SEEK_DATA now = (Ok pos, ctx', f') ->
  offset <= pos
  /\ Exists (fun e => logical_offset e <= pos
                      < logical_offset e + ext_length e)
            (extents (inode_at ctx (of_inode f)))
  /\ position f' = pos /\ ctx' = ctx.
Proof.
  intros Hu Hall H. unfold appendfs_seek in H.
  replace (buffer_used f >? 0) with false in H
    by (symmetry; apply gtb_false; exact Hu).
  change (SEEK_DATA =? SEEK_SET) with false in H.
  change (SEEK_DATA =? SEEK_CUR) with false in H.
  change (SEEK_DATA =? SEEK_END) with false in H.
  change (SEEK_DATA =? SEEK_DATA) with true in H.
  cbn [orb] in H.
  destruct (offset <? 0); [discriminate H|].
  destruct (offset >=? isize (inode_at ctx (of_inode f)));
    [discriminate H|].
  destruct (seek_data_loop (extents (inode_at ctx (of_inode f))) offset <? 0)
    eqn:Eneg; [discriminate H|].
  apply Z.ltb_ge in Eneg. injection H as <- <- <-.
  destruct (seek_data_loop_in_data _ offset Hall Eneg) as [Ho Hex].
  repeat split; assumption.
Qed.

Lemma seek_data_lands_inside_an_extent_witness :
  1 <= 1
  /\ Exists (fun e => logical_offset e <= 1
                      < logical_offset e + ext_length e)
            (extents
               (inode_at
                  (snd (fst (appendfs_flush (fst store_f_written)
                               (snd store_f_written) 4)))
                  (of_inode (snd (appendfs_flush (fst store_f_written)
                                    (snd store_f_written) 4)))))
  /\ position
       (snd (appendfs_seek
               (snd (fst (appendfs_flush (fst store_f_written)
                            (snd store_f_written) 4)))
               (snd (appendfs_flush (fst store_f_written)
                       (snd store_f_written) 4))
               1 SEEK_DATA 5)) = 1
  /\ snd (fst (appendfs_seek
                 (snd (fst (appendfs_flush (fst store_f_written)
                              (snd store_f_written) 4)))
                 (snd (appendfs_flush (fst store_f_written)
                         (snd store_f_written) 4))
                 1 SEEK_DATA 5))
     = snd (fst (appendfs_flush (fst store_f_written)
                   (snd store_f_written) 4)).
Proof.
  apply (seek_data_lands_inside_an_extent
           (snd (fst (appendfs_flush (fst store_f_written)
                        (snd store_f_written) 4))) _
           (snd (appendfs_flush (fst store_f_written)
                   (snd store_f_written) 4)) _ 1 5 1).
  - vm_compute; congruence.
  - apply (bool_decide_unpack _); vm_compute; exact I.
  - vm_compute; reflexivity.
Defined.

(** ** An unlinked path is gone *)

Lemma filter_nil_find_index {A} (p : A -> bool) (l : list A) :
  List.filter p l = [] -> find_index p l = None.
Proof.
  intros H. apply find_index_None_intro. intros x Hx.
  destruct (p x) eqn:E; [|reflexivity].
  assert (Hin : In x (List.filter p l)) by (apply filter_In; split; assumption).
  rewrite H in Hin. destruct Hin.
Qed.

Lemma find_index_alter_only_match {A} (p : A -> bool) (f : A -> A)
    (l : list A) :
  (forall x, p (f x) = false) ->
  forall k,
    find_index p l = Some k ->
    List.length (List.filter p l) = 1%nat ->
    find_index p (alter f k l) = None.
Proof.
  intros Hf. induction l as [|a l IH]; intros k Hk Hone; [discriminate Hk|].
  cbn [find_index List.filter] in Hk, Hone.
  destruct (p a) eqn:Ea.
  - injection Hk as <-. cbn [alter list_alter find_index].
    rewrite Hf. cbn [List.length] in Hone.
    assert (Hnil : List.filter p l = [])
      by (destruct (List.filter p l); [reflexivity|discriminate Hone]).
    rewrite (filter_nil_find_index p l Hnil). reflexivity.
  - destruct (find_index p l) as [k'|] eqn:Ek; [|discriminate Hk].
    injection Hk as <-. cbn [alter list_alter find_index]. rewrite Ea.
    fold (alter f k' l). rewrite (IH k' eq_refl Hone). reflexivity.
Qed.

(** X29.  After a successful [appendfs_unlink] of a path that exactly one
    live row answers to, the path is gone: lookup finds nothing and
    [appendfs_stat] fails with ENOENT. *)
Theorem unlinked_path_is_gone (ctx ctx' : appendfs_context) (p : string) :
  List.length (List.filter (path_matches (normalize_path_view p))
                 (inodes ctx)) = 1%nat ->
  appendfs_unlink ctx p = (Ok tt, ctx') ->
  find_inode_by_path ctx' p = None
  /\ appendfs_stat ctx' p = Err ENOENT.
Proof.
  intros Hone H. unfold appendfs_unlink in H.
  destruct (find_inode_by_path ctx p) as [idx|] eqn:Ef; [|discriminate H].
  destruct (S_ISDIR (mode (inode_at ctx idx))); [discriminate H|].
  unfold append_unlink_record in H.
  split_write_record H E c2. injection H as <-.
  assert (Hnone : find_inode_by_path c2 p = None).
  { unfold find_inode_by_path in *.
    rewrite (write_record_inodes _ _ _ _ _ E).
    cbn [inodes update_inode set_inodes].
    apply find_index_alter_only_match; [|exact Ef|exact Hone].
    intros x. reflexivity. }
  split; [exact Hnone|].
  unfold appendfs_stat. rewrite Hnone. reflexivity.
Qed.

Lemma unlinked_path_is_gone_witness :
  find_inode_by_path (snd (appendfs_unlink store_f "/f")) "/f" = None
  /\ appendfs_stat (snd (appendfs_unlink store_f "/f")) "/f" = Err ENOENT.
Proof.
  apply (unlinked_path_is_gone store_f _ "/f").
  - vm_compute; reflexivity.
  - vm_compute; reflexivity.
Defined.

(** ** A record whose append failed is ignored by the next open *)

Lemma write_all_loop_Err_inv (buf : list byte) (fuel : nat) :
  forall f written d0 e f',
    f_pos f = file_size f ->
    0 <= written ->
    f_data f = d0 ++ firstn (Z.to_nat written) buf ->
    write_all_loop fuel f buf written = (Err e, f') ->
    exists n, (n < List.length buf)%nat /\ f_data f' = d0 ++ firstn n buf.
Proof.
  induction fuel as [|k IH]; intros f written d0 e f' Hpos Hw Hdata H;
    [discriminate H|].
  cbn [write_all_loop] in H.
  destruct (written <? zlen buf) eqn:Elt; [|discriminate H].
  apply Z.ltb_lt in Elt. unfold sys_write in H.
  destruct (f_room f <=? 0) eqn:Eroom.
  - injection H as _ <-. exists (Z.to_nat written).
    split; [unfold zlen in Elt; lia|exact Hdata].
  - apply Z.leb_gt in Eroom.
    set (rest := skipn (Z.to_nat written) buf) in *.
    assert (Hrest : zlen rest = zlen buf - written)
      by (subst rest; unfold zlen in *; rewrite length_drop; lia).
    set (n := Z.min (zlen rest) (f_room f)) in *.
    assert (Hn : 0 < n <= zlen rest) by (subst n; lia).
    replace (n =? 0) with false in H by (symmetry; apply Z.eqb_neq; lia).
    refine (IH _ (written + n) d0 e f' _ _ _ H).
    + cbn [f_pos f_data]. unfold file_size in *. cbn [f_data].
      rewrite Hpos. unfold zlen.
      rewrite Nat2Z.id, firstn_all, drop_ge by lia.
      rewrite app_nil_r, !length_app, length_take.
      unfold zlen in Hn. lia.
    + lia.
    + cbn [f_data]. unfold file_size in Hpos. rewrite Hpos. unfold zlen.
      rewrite Nat2Z.id, firstn_all, drop_ge by lia.
      rewrite app_nil_r, Hdata, <- app_assoc. f_equal.
      subst rest. rewrite take_drop_commute.
      replace (Z.to_nat (written + n)) with (Z.to_nat written + Z.to_nat n)%nat
        by lia.
      rewrite <- (take_drop (Z.to_nat written)
                    (take (Z.to_nat written + Z.to_nat n) buf)) at 2.
      rewrite take_take. f_equal. f_equal. lia.
Qed.

Lemma write_all_Err_inv (f f' : file) (buf : list byte) (e : errno) :
  write_all f buf = (Err e, f') ->
  f_pos f = file_size f ->
  exists n, (n < List.length buf)%nat
            /\ f_data f' = f_data f ++ firstn n buf.
Proof.
  intros H Hpos. unfold write_all in H.
  apply (write_all_loop_Err_inv buf (S (List.length buf)) f 0 (f_data f)
           e f' Hpos); [lia| |exact H].
  cbn. rewrite app_nil_r. reflexivity.
Qed.

Lemma frame_record_of (type : Z) (payload : list byte) :
  frame (record_of type payload)
  = (byte_of_Z type
       :: le_encode 4 (u32 (zlen payload))
       ++ le_encode 4
            (appendfs_crc32
               (firstn (Z.to_nat (u32 (zlen payload))) payload)))
    ++ firstn (Z.to_nat (u32 (zlen payload))) payload.
Proof.
  unfold frame, record_of. cbn [rec_type rec_payload rec_checksum].
  rewrite zlen_record_body. cbn [app]. rewrite <- app_assoc. reflexivity.
Qed.

(** A failed [write_record] leaves a proper prefix of the frame behind. *)
Lemma write_record_Err_inv (ctx ctx' : appendfs_context) (type : Z)
    (payload : list byte) (e : errno) :
  write_record ctx type payload = (Err e, ctx') ->
  f_pos (meta_fd ctx) = file_size (meta_fd ctx) ->
  exists tail rest,
    frame (record_of type payload) = tail ++ rest /\ rest <> []
    /\ f_data (meta_fd ctx') = f_data (meta_fd ctx) ++ tail.
Proof.
  intros H Hpos. rewrite frame_record_of. unfold write_record in H.
  set (body := firstn (Z.to_nat (u32 (zlen payload))) payload) in *.
  set (hdr := byte_of_Z type :: le_encode 4 (u32 (zlen payload))
                ++ le_encode 4 (appendfs_crc32 body)) in *.
  destruct (write_all (meta_fd ctx) hdr) as [[[]|e1] f1] eqn:E1.
  - destruct (write_all f1 body) as [r2 f2] eqn:E2.
    injection H as -> <-.
    pose proof (write_all_Ok_inv _ _ _ E1 Hpos) as Hf1.
    assert (Hpos1 : f_pos f1 = file_size f1).
    { rewrite Hf1. unfold file_size in *. cbn [f_pos f_data].
      rewrite zlen_app. lia. }
    destruct (write_all_Err_inv _ _ _ _ E2 Hpos1) as (n & Hn & Hd).
    exists (hdr ++ firstn n body), (skipn n body).
    split; [rewrite <- app_assoc, take_drop; reflexivity|]. split.
    + intros Hnil. apply (f_equal (@List.length byte)) in Hnil.
      rewrite length_drop in Hnil. cbn in Hnil. lia.
    + cbn [meta_fd set_meta_fd]. rewrite Hd, Hf1. cbn [f_data].
      rewrite <- app_assoc. reflexivity.
  - injection H as -> <-.
    destruct (write_all_Err_inv _ _ _ _ E1 Hpos) as (n & Hn & Hd).
    exists (firstn n hdr), (skipn n hdr ++ body).
    split; [rewrite app_assoc, take_drop; reflexivity|]. split.
    + intros Hnil. apply (f_equal (@List.length byte)) in Hnil.
      rewrite length_app, length_drop in Hnil. cbn [List.length] in Hnil. lia.
    + cbn [meta_fd set_meta_fd]. exact Hd.
Qed.

(** The loop stops at a record that is cut short. *)
Lemma replay_loop_torn_tail (k : nat) (ctx : appendfs_context)
    (pre tail rest : list byte) (r : log_record) :
  well_framed r ->
  frame r = tail ++ rest -> rest <> [] ->
  f_data (meta_fd ctx) = pre ++ tail ->
  f_pos (meta_fd ctx) = zlen pre ->
  exists fd, replay_loop (S k) ctx = set_meta_fd fd ctx.
Proof.
  intros [Hlen [Hc0 Hc1]] Hframe Hrest Hdata Hpos.
  pose proof (zlen_nonneg (rec_payload r)) as Hnn.
  set (hdr := rec_type r :: le_encode 4 (zlen (rec_payload r))
                ++ le_encode 4 (rec_checksum r)).
  assert (Hh : zlen hdr = 9).
  { unfold zlen, hdr. rewrite length_header, !length_le_encode.
    reflexivity. }
  assert (Hfr : frame r = hdr ++ rec_payload r).
  { unfold frame, hdr. cbn [app]. rewrite <- app_assoc. reflexivity. }
  assert (Hrl : 0 < zlen rest).
  { destruct rest; [contradiction|]. unfold zlen. cbn [List.length]. lia. }
  assert (Htl : zlen tail + zlen rest = 9 + zlen (rec_payload r))
    by (rewrite <- Hh, <- !zlen_app, <- Hframe, Hfr; reflexivity).
  cbn [replay_loop]. unfold sys_read, RECORD_HEADER_SIZE.
  rewrite Hpos, Hdata.
  assert (Hgot : slice (pre ++ tail) (zlen pre) 9 = firstn 9 tail).
  { unfold slice, zlen. rewrite Nat2Z.id, drop_app_length. reflexivity. }
  rewrite Hgot.
  destruct (zlen (firstn 9 tail) <? 9) eqn:Eshort; [eexists; reflexivity|].
  apply Z.ltb_ge in Eshort.
  assert (Ht9 : 9 <= zlen tail).
  { unfold zlen in *. rewrite length_take in Eshort. lia. }
  assert (Hhdr : firstn 9 tail = hdr).
  { assert (E : firstn 9 (tail ++ rest) = firstn 9 (hdr ++ rec_payload r))
      by (rewrite <- Hframe, Hfr; reflexivity).
    rewrite take_app_le in E by (unfold zlen in Ht9; lia).
    rewrite E. replace 9%nat with (List.length hdr)
      by (unfold zlen in Hh; lia).
    apply take_app_length. }
  rewrite Hhdr.
  assert (Hl : field hdr 1 4 = zlen (rec_payload r)).
  { unfold field, hdr.
    change (rec_type r :: ?l) with ([rec_type r] ++ l).
    change 1 with (zlen [rec_type r]).
    replace 4 with (zlen (le_encode 4 (zlen (rec_payload r))))
      by (unfold zlen; rewrite length_le_encode; reflexivity).
    rewrite slice_app_mid. apply le_decode_encode_4. lia. }
  rewrite Hl. unfold read_all, sys_read. cbn [f_data f_pos f_room].
  assert (Hshort : zlen (slice (pre ++ tail) (zlen pre + zlen hdr)
                           (zlen (rec_payload r)))
                   < zlen (rec_payload r)).
  { unfold slice, zlen in *. rewrite length_take, length_drop, length_app.
    lia. }
  replace (zlen (slice (pre ++ tail) (zlen pre + zlen hdr)
                   (zlen (rec_payload r))) <? zlen (rec_payload r))
    with true by (symmetry; apply Z.ltb_lt; exact Hshort).
  eexists. reflexivity.
Qed.

Lemma replay_loop_frames_torn (rs : list log_record) :
  forall (fuel : nat) (ctx : appendfs_context) (pre tail rest : list byte)
         (r : log_record),
    Forall well_framed rs ->
    well_framed r -> frame r = tail ++ rest -> rest <> [] ->
    f_data (meta_fd ctx) = pre ++ encode_log rs ++ tail ->
    f_pos (meta_fd ctx) = zlen pre ->
    (List.length rs < fuel)%nat ->
    exists fd,
      replay_loop fuel ctx = set_meta_fd fd (fold_left apply_if_valid rs ctx).
Proof.
  induction rs as [|r0 rs IH];
    intros fuel ctx pre tail rest r Hwf Hr Hframe Hrest Hdata Hpos Hfuel.
  - destruct fuel as [|k]; [cbn in Hfuel; lia|].
    cbn [fold_left]. unfold encode_log in Hdata. cbn [map concat app] in Hdata.
    exact (replay_loop_torn_tail k ctx pre tail rest r Hr Hframe Hrest
             Hdata Hpos).
  - destruct fuel as [|k]; [cbn in Hfuel; lia|].
    apply Forall_cons_1 in Hwf as [Hr0 Hrs].
    unfold encode_log in Hdata. cbn [map concat] in Hdata.
    fold (encode_log rs) in Hdata. rewrite <- app_assoc in Hdata.
    rewrite (replay_loop_step k ctx pre (encode_log rs ++ tail) r0 Hr0
               Hdata Hpos).
    destruct (IH k (apply_if_valid
                      (set_meta_fd
                         (mkFile (f_data (meta_fd ctx))
                                 (zlen (pre ++ frame r0))
                                 (f_room (meta_fd ctx))) ctx) r0)
                (pre ++ frame r0) tail rest r Hrs Hr Hframe Hrest)
      as [fd Hfd].
    + rewrite meta_fd_apply_if_valid, meta_fd_set_meta_fd. cbn [f_data].
      rewrite Hdata, <- app_assoc. reflexivity.
    + rewrite meta_fd_apply_if_valid, meta_fd_set_meta_fd. reflexivity.
    + cbn [List.length] in Hfuel. lia.
    + exists fd. rewrite Hfd. cbn [fold_left].
      rewrite apply_if_valid_set_meta_fd, fold_apply_set_meta_fd,
        set_meta_fd_twice. reflexivity.
Qed.

(** X30.  A record whose append failed is ignored by the next open: when
    [write_record] fails on a log that held whole records, however many
    bytes of the new record reached the file, closing and opening again
    builds the table and the next inode id that the log held before the
    call.  Whatever the caller had already changed in memory for that
    record is therefore not in the reopened store. *)
Theorem failed_append_is_ignored_by_the_next_open
    (c c' : appendfs_context) (type : Z) (payload : list byte) (e : errno) :
  log_intact c ->
  write_record c type payload = (Err e, c') ->
  inodes (reopen c') = inodes (reopen c)
  /\ next_inode_id (reopen c') = next_inode_id (reopen c)
  /\ inodes c' = inodes c.
Proof.
  intros [Hpos (rs & Hrs & Hlog)] H.
  destruct (write_record_Err_inv _ _ _ _ _ H Hpos)
    as (tail & rest & Hframe & Hrest & Hdata).
  pose proof (write_record_inodes _ _ _ _ _ H) as Hin.
  destruct (reopen_rows c rs Hrs Hlog) as [E1 E2]. rewrite E1, E2.
  unfold reopen, appendfs_open, replay_metadata.
  cbn [inodes next_inode_id set_meta_fd meta_fd].
  destruct (replay_loop_frames_torn rs
              (S (List.length (f_data (meta_fd c'))))
              (set_meta_fd (lseek_set (meta_fd c') 0)
                 (mkContext (data_fd c') (meta_fd c') 1 []
                    APPENDFS_DEFAULT_BUFFER))
              [] tail rest (record_of type payload) Hrs
              (record_of_well_framed type payload) Hframe Hrest)
    as [fd Hfd].
  - cbn [meta_fd set_meta_fd lseek_set f_data app].
    rewrite Hdata, Hlog. reflexivity.
  - reflexivity.
  - rewrite Hdata, Hlog, length_app.
    pose proof (length_encode_log rs). lia.
  - rewrite Hfd. cbn [inodes next_inode_id set_meta_fd].
    destruct (fold_apply_if_valid_rows rs
                (set_meta_fd (lseek_set (meta_fd c') 0)
                   (mkContext (data_fd c') (meta_fd c') 1 []
                      APPENDFS_DEFAULT_BUFFER))
                (unopened [] 0) eq_refl eq_refl) as [F1 F2].
    repeat split; assumption.
Qed.

Lemma failed_append_is_ignored_by_the_next_open_witness :
  inodes (reopen (snd (write_record store_f_nearly_full
                         APPENDFS_RECORD_UNLINK (unlink_payload row_f))))
  = inodes (reopen store_f_nearly_full)
  /\ next_inode_id
       (reopen (snd (write_record store_f_nearly_full
                       APPENDFS_RECORD_UNLINK (unlink_payload row_f))))
     = next_inode_id (reopen store_f_nearly_full)
  /\ inodes (snd (write_record store_f_nearly_full
                    APPENDFS_RECORD_UNLINK (unlink_payload row_f)))
     = inodes store_f_nearly_full.
Proof.
  apply (failed_append_is_ignored_by_the_next_open store_f_nearly_full _
           APPENDFS_RECORD_UNLINK (unlink_payload row_f) ENOSPC).
  - split; [vm_compute; reflexivity|].
    exists [record_f]. split.
    + repeat constructor; apply record_of_well_framed.
    + vm_compute; reflexivity.
  - vm_compute; reflexivity.
Defined.
